(** * Item synchronisation routes of the server (routes/api/items)

    A shallow embedding of the item routes: the six handlers registered on
    the router, the [itemFromPath] helper, and the collaborators they call
    (item model, change model, pagination helpers).  The handlers are
    written once, over an interface of the models, in a small state and
    error monad; the store that implements the interface follows the
    specification of the item synchronisation subsystem. *)

From Stdlib Require Import String Ascii List Arith Bool Lia Permutation Sorted.
From Stdlib Require Import DecimalString DecimalNat Decimal.
From Stdlib Require OrderedTypeEx.
From Stdlib Require Import ZArith.
Import ListNotations.
Open Scope string_scope.
Open Scope list_scope.
Open Scope nat_scope.

Set Implicit Arguments.

(** ** Basic data *)

(** [Uuid] of db.ts: an identifier kept as a string. *)
Definition Uuid := string.

(** A [Buffer]: the raw bytes of an item. *)
Definition Buffer := list Byte.byte.

(** Modelled from the spec: utils/errors.ts is not part of the sources at
    hand.  The route file imports [ErrorNotFound] and
    [ErrorMethodNotAllowed]; the other constructors are the remaining
    entries of the error taxonomy (section 7).  The specification fixes the
    statuses 404 and 405 only. *)
Inductive Error : Type :=
| ErrorNotFound (message : string)
| ErrorMethodNotAllowed (message : string)
| ErrorInvalidPath (message : string)
| ErrorInvalidCursor
| ErrorPayloadTooLarge
| ErrorInternal (message : string).

(** Modelled from the spec: the status of an error; section 6 gives 404 for
    an absent item and 405 for the refused deletion of the root. *)
Definition httpCode (e : Error) : nat :=
  match e with
  | ErrorNotFound _ => 404
  | ErrorMethodNotAllowed _ => 405
  | ErrorInvalidPath _ => 400
  | ErrorInvalidCursor => 400
  | ErrorPayloadTooLarge => 413
  | ErrorInternal _ => 500
  end.

(** [error instanceof ErrorNotFound] *)
Definition instanceofErrorNotFound (e : Error) : bool :=
  match e with
  | ErrorNotFound _ => true
  | _ => false
  end.

(** The outcome of a call that may throw. *)
Definition Result (A : Type) : Type := (Error + A)%type.

(** ** Pagination cursor *)

(** Modelled from the spec: models/utils/pagination.ts is not part of the
    sources at hand.  Section 4.3: a cursor holds a position and a limit,
    the limit lies in [1, maxPageSize], a request without a cursor starts at
    position 0 with a default limit. *)
Record Pagination : Type := mkPagination {
  position : nat;
  limit : nat
}.

(** Modelled from the spec: the configuration the subsystem is run with, the
    bounds of the page size (section 4.3). *)
Class Config : Type := {
  maxPageSize : nat;
  defaultLimit : nat
}.

(** Modelled from the spec: "limit is clamped to a configured
    [1, maxPageSize] range". *)
Definition clampLimit `{Config} (n : nat) : nat :=
  Nat.max 1 (Nat.min n maxPageSize).

(** Modelled from the spec: the limit of a cursor lies within the range. *)
Definition validPagination `{Config} (p : Pagination) : bool :=
  (1 <=? limit p) && (limit p <=? maxPageSize).

Definition natToString (n : nat) : string :=
  NilEmpty.string_of_uint (Nat.to_uint n).

Definition stringToNat (s : string) : option nat :=
  option_map Nat.of_uint (NilEmpty.uint_of_string s).

Definition separator : ascii := ":"%char.

Definition cursorVersion : string := "c1".

(** The integrity field of a token: a number that no two cursors share, so
    that a token whose position or limit was edited no longer carries the
    check of what it says. *)
Definition checksum (p : Pagination) : nat :=
  (position p + limit p) * (position p + limit p) + position p.

(** Modelled from the spec: the encoding of section 9, "a small versioned,
    tamper-detectable encoding (an integer position plus an integrity
    check)": version, position, limit and check, separated by colons. *)
Definition encodeCursor (p : Pagination) : string :=
  (cursorVersion ++ String separator
    (natToString (position p) ++ String separator
      (natToString (limit p) ++ String separator
        (natToString (checksum p)))))%string.

Fixpoint split (sep : ascii) (s : string) : list string :=
  match s with
  | EmptyString => [EmptyString]
  | String c r =>
      if Ascii.eqb c sep then EmptyString :: split sep r
      else match split sep r with
           | h :: t => String c h :: t
           | [] => [String c EmptyString]
           end
  end.

(** No character of [s] is [sep]. *)
Fixpoint freeOf (sep : ascii) (s : string) : bool :=
  match s with
  | EmptyString => true
  | String c r => negb (Ascii.eqb c sep) && freeOf sep r
  end.

(** Modelled from the spec: [decode(token) -> {position, limit} |
    InvalidCursor].  A token is accepted when it has the four fields, the
    known version, a limit within range, the right check, and is the
    encoding of the cursor it denotes. *)
Definition decodeCursor `{Config} (token : string) : Result Pagination :=
  match split separator token with
  | [v; sp; sl; sk] =>
      match stringToNat sp, stringToNat sl, stringToNat sk with
      | Some p, Some l, Some k =>
          let c := mkPagination p l in
          if String.eqb v cursorVersion && validPagination c
             && (k =? checksum c) && String.eqb (encodeCursor c) token
          then inr c
          else inl ErrorInvalidCursor
      | _, _, _ => inl ErrorInvalidCursor
      end
  | _ => inl ErrorInvalidCursor
  end.

(** [ctx.query]: the pagination parameters of a request, a cursor token and
    an optional page-size hint. *)
Record Query : Type := mkQuery {
  cursor : option string;
  limitHint : option nat
}.

(** Modelled from the spec: [requestPagination] of pagination.ts. *)
Definition requestPagination `{Config} (query : Query) : Result Pagination :=
  match cursor query with
  | Some token => decodeCursor token
  | None =>
      inr (mkPagination 0
             (clampLimit (match limitHint query with
                          | Some n => n
                          | None => defaultLimit
                          end)))
  end.

(** Modelled from the spec: [requestChangePagination] of pagination.ts, the
    helper of the change feed.  Section 4.3 has one cursor mechanism for the
    change feed and the children listing: the tokens of the feed are
    decoded by the same decoder, and a feed read from the start begins at
    position 0. *)
Definition requestChangePagination `{Config} (query : Query)
  : Result Pagination :=
  match cursor query with
  | Some token => decodeCursor token
  | None =>
      let hint := match limitHint query with
                  | Some n => n
                  | None => defaultLimit
                  end in
      inr (mkPagination 0 (clampLimit hint))
  end.

(** Modelled from the spec: a page of results with the envelope of
    section 6, the items, [has_more] and the cursor of the next page. *)
Record Page (A : Type) : Type := mkPage {
  items : list A;
  has_more : bool;
  nextCursor : string
}.

(** ** A state and error monad for the handlers

    An [async] function runs against the models' state and either returns a
    value or throws; what it wrote before throwing stays written. *)

Definition M (St A : Type) : Type := St -> St * Result A.

Definition ret {St A : Type} (a : A) : M St A :=
  fun s => (s, inr a).

Definition throw {St A : Type} (e : Error) : M St A :=
  fun s => (s, inl e).

Definition bind {St A B : Type} (m : M St A) (k : A -> M St B) : M St B :=
  fun s =>
    match m s with
    | (s', inr a) => k a s'
    | (s', inl e) => (s', inl e)
    end.

(** [try { body } catch (error) { handler }] *)
Definition tryCatch {St A : Type} (body : M St A) (handler : Error -> M St A)
  : M St A :=
  fun s =>
    match body s with
    | (s', inr a) => (s', inr a)
    | (s', inl e) => handler e s'
    end.

(** A synchronous call that may throw, inside an [async] function. *)
Definition lift {St A : Type} (r : Result A) : M St A :=
  fun s => (s, r).

(** Reading a property of a value that may be [null]. *)
Definition deref {St A : Type} (o : option A) : M St A :=
  match o with
  | Some a => ret a
  | None => throw (ErrorInternal "TypeError")
  end.

Declare Scope monad_scope.
Delimit Scope monad_scope with monad.
Notation "x <- m ;; k" := (bind m (fun x => k))
  (at level 61, m at next level, right associativity) : monad_scope.
Notation "m ;; k" := (bind m (fun _ => k))
  (at level 61, right associativity) : monad_scope.
Open Scope monad_scope.

(** ** Entities *)

(** Modelled from the spec: db.ts is not part of the sources at hand.  An
    item is identified by the composite key of section 9, the owner and a
    number of the owner's own. *)
Definition ItemId : Type := (Uuid * nat)%type.

Record Item : Type := mkItem {
  id : ItemId;
  name : string;
  content : Buffer
}.

Definition owner_id (i : Item) : Uuid := fst (id i).

Definition size (i : Item) : nat := length (content i).

Inductive ChangeType : Type := Create | Update | Delete.

(** Modelled from the spec: the ChangeEvent of section 3.  The event is
    identified by its owner and its sequence number. *)
Record Change : Type := mkChange {
  change_owner_id : Uuid;
  item_id : ItemId;
  item_name : string;
  type : ChangeType;
  sequence : nat
}.

(** ** Requests *)

(** [SubPath] of routeUtils.ts, of which the routes read [id]. *)
Record SubPath : Type := mkSubPath {
  path_id : string
}.

(** [User] of db.ts, of which the item routes read [id]. *)
Record User : Type := mkUser {
  user_id : Uuid
}.

(** The file of an uploaded form: [fs.readFile] of its path returns its
    bytes or throws. *)
Record UploadedFile : Type := mkUploadedFile {
  readFile : Result Buffer
}.

(** [ctx.req], the incoming request, of which the put route reads the form:
    [formParse] throws, for instance on a body that cannot be parsed or
    that is larger than a transfer may be (section 5), or returns a body
    with a file ([files.file]) or without one. *)
Record IncomingMessage : Type := mkIncomingMessage {
  formParse : Result (option UploadedFile)
}.

(** [AppContext] of types.ts: the authenticated owner, the environment, the
    query and the incoming request. *)
Record AppContext : Type := mkAppContext {
  owner : User;
  env : string;
  query : Query;
  req : IncomingMessage
}.

(** A request that uploads these bytes, and one that uploads no file. *)
Definition upload (b : Buffer) : IncomingMessage :=
  mkIncomingMessage (inr (Some (mkUploadedFile (inr b)))).

Definition noUpload : IncomingMessage := mkIncomingMessage (inr None).

(** ** The models, as the routes use them *)

(** The methods of [ItemModel] that the routes call, with the arguments of
    the call sites; [pathToName] is synchronous and may throw. *)
Record ItemModel (St ApiOutput : Type) : Type := mkItemModel {
  pathToName : string -> Result string;
  loadByName : Uuid -> string -> M St (option Item);
  toApiOutput : Item -> ApiOutput;
  delete : ItemId -> M St unit;
  deleteAll : Uuid -> M St unit;
  serializedContent : ItemId -> M St Buffer;
  saveFromRawContent : Uuid -> string -> Buffer -> M St Item;
  children : Uuid -> string -> Pagination -> M St (Page Item)
}.

(** The method of [ChangeModel] that the delta route calls. *)
Record ChangeModel (St : Type) : Type := mkChangeModel {
  allForUser : Uuid -> Pagination -> M St (Page Change)
}.

(** Modelled from the spec: [respondWithItemContent] of routeUtils.ts is not
    part of the sources at hand; the response carries the raw bytes and
    their length. *)
Record ItemContentResponse : Type := mkItemContentResponse {
  body : Buffer;
  contentLength : nat
}.

(** Modelled from the spec: "stream raw bytes with appropriate content
    metadata" (section 6). *)
Definition respondWithItemContent (item : Item) (serializedContent : Buffer)
  : ItemContentResponse :=
  mkItemContentResponse serializedContent (length serializedContent).

(** ** The routes *)

Section Routes.

Context {St ApiOutput : Type}.
Variable itemModel : ItemModel St ApiOutput.
Variable changeModel : ChangeModel St.
Context `{Config}.

Definition itemFromPath (userId : Uuid) (path : SubPath) (mustExists : bool)
  : M St (option Item) :=
  name <- lift (pathToName itemModel (path_id path)) ;;
  item <- loadByName itemModel userId name ;;
  if mustExists && (match item with Some _ => false | None => true end)
  then throw (ErrorNotFound ("Not found: " ++ path_id path))
  else ret item.

(** [router.get('api/items/:id')] *)
Definition get_items_id (path : SubPath) (ctx : AppContext) : M St ApiOutput :=
  item <- itemFromPath (user_id (owner ctx)) path true ;;
  i <- deref item ;;
  ret (toApiOutput itemModel i).

(** [router.del('api/items/:id')] *)
Definition del_items_id (path : SubPath) (ctx : AppContext) : M St unit :=
  tryCatch
    (if String.eqb (path_id path) "root" || String.eqb (path_id path) "root:/:"
     then
       (if negb (String.eqb (env ctx) "dev")
        then throw (ErrorMethodNotAllowed "Deleting the root is not allowed")
        else ret tt) ;;
       deleteAll itemModel (user_id (owner ctx))
     else
       item <- itemFromPath (user_id (owner ctx)) path true ;;
       i <- deref item ;;
       delete itemModel (id i))
    (fun error =>
       if instanceofErrorNotFound error then ret tt else throw error).

(** [router.get('api/items/:id/content')] *)
Definition get_items_id_content (path : SubPath) (ctx : AppContext)
  : M St ItemContentResponse :=
  item <- itemFromPath (user_id (owner ctx)) path true ;;
  i <- deref item ;;
  serialized <- serializedContent itemModel (id i) ;;
  ret (respondWithItemContent i serialized).

(** [router.put('api/items/:id/content')] *)
Definition put_items_id_content (path : SubPath) (ctx : AppContext)
  : M St ApiOutput :=
  name <- lift (pathToName itemModel (path_id path)) ;;
  parsedBody <- lift (formParse (req ctx)) ;;
  buffer <- match parsedBody with
            | Some file => lift (readFile file)
            | None => ret []
            end ;;
  item <- saveFromRawContent itemModel (user_id (owner ctx)) name buffer ;;
  ret (toApiOutput itemModel item).

(** [router.get('api/items/:id/delta')] *)
Definition get_items_id_delta (_path : SubPath) (ctx : AppContext)
  : M St (Page Change) :=
  pagination <- lift (requestChangePagination (query ctx)) ;;
  allForUser changeModel (user_id (owner ctx)) pagination.

(** [router.get('api/items/:id/children')] *)
Definition get_items_id_children (path : SubPath) (ctx : AppContext)
  : M St (Page Item) :=
  parentName <- lift (pathToName itemModel (path_id path)) ;;
  pagination <- lift (requestPagination (query ctx)) ;;
  children itemModel (user_id (owner ctx)) parentName pagination.

End Routes.

(** The test of the delete route for the ids of the root. *)
Definition isRoot (p : SubPath) : bool :=
  String.eqb (path_id p) "root" || String.eqb (path_id p) "root:/:".

(** What the [catch] clause of the delete route makes of an outcome of its
    [try] block. *)
Definition caught (r : Result unit) : Result unit :=
  match r with
  | inl e => if instanceofErrorNotFound e then inr tt else inl e
  | inr _ => inr tt
  end.

(** ** The store

    Modelled from the spec: models/ItemModel.ts and models/ChangeModel.ts
    are not part of the sources at hand.  The item store and the change log
    follow sections 3, 4.1 and 4.2: items are unique by owner and name, every
    mutation of an item appends one change with the owner's next sequence
    number, and the log is only ever appended to. *)

Record Store : Type := mkStore {
  storeItems : list Item;
  storeChanges : list Change
}.

Definition emptyStore : Store := mkStore [] [].

Definition itemIdEqb (a b : ItemId) : bool :=
  String.eqb (fst a) (fst b) && (snd a =? snd b).

Definition isCreate (t : ChangeType) : bool :=
  match t with Create => true | _ => false end.

Definition ownChanges (o : Uuid) (l : list Change) : list Change :=
  filter (fun c => String.eqb (change_owner_id c) o) l.

(** The changes of one owner, oldest first. *)
Definition changesOf (o : Uuid) (s : Store) : list Change :=
  ownChanges o (storeChanges s).

Definition ownedBy (o : Uuid) (i : Item) : bool := String.eqb (owner_id i) o.

(** The items of one owner. *)
Definition itemsOf (o : Uuid) (s : Store) : list Item :=
  filter (ownedBy o) (storeItems s).

Definition nextSequence (o : Uuid) (s : Store) : nat :=
  S (length (changesOf o s)).

Definition nextItemNumber (o : Uuid) (s : Store) : nat :=
  S (length (filter (fun c => isCreate (type c)) (changesOf o s))).

(** Modelled from the spec: [append] of section 4.2, which gives the change
    the next sequence number of the owner. *)
Definition appendChange (o : Uuid) (i : Item) (t : ChangeType) (s : Store)
  : Store :=
  mkStore (storeItems s)
          (storeChanges s ++ [mkChange o (id i) (name i) t (nextSequence o s)]).

Definition hasName (o : Uuid) (n : string) (i : Item) : bool :=
  String.eqb (owner_id i) o && String.eqb (name i) n.

(** Modelled from the spec: [loadByName] of section 4.1; the route tests the
    result for absence, so an absent item is [None]. *)
Definition storeLoadByName (o : Uuid) (n : string) : M Store (option Item) :=
  fun s => (s, inr (find (hasName o n) (storeItems s))).

(** Modelled from the spec: [saveContent] of section 4.1, "idempotent
    upsert: creates the item if absent, replaces content if present; emits
    exactly one ChangeEvent (Create or Update depending on prior existence)
    as part of the same atomic operation". *)
Definition storeSaveFromRawContent (o : Uuid) (n : string) (b : Buffer)
  : M Store Item :=
  fun s =>
    match find (hasName o n) (storeItems s) with
    | Some old =>
        let item := mkItem (id old) n b in
        let replaced :=
          map (fun i => if hasName o n i then item else i) (storeItems s) in
        (appendChange o item Update (mkStore replaced (storeChanges s)),
         inr item)
    | None =>
        let item := mkItem (o, nextItemNumber o s) n b in
        (appendChange o item Create
           (mkStore (storeItems s ++ [item]) (storeChanges s)),
         inr item)
    end.

Definition removeItem (i : ItemId) (s : Store) : Store :=
  match find (fun x => itemIdEqb (id x) i) (storeItems s) with
  | Some old =>
      appendChange (owner_id old) old Delete
        (mkStore (filter (fun x => negb (itemIdEqb (id x) i)) (storeItems s))
                 (storeChanges s))
  | None => s
  end.

(** Modelled from the spec: [delete] of section 4.1, by the id of the item as
    the route calls it; nothing happens when the item is absent, one Delete
    change is appended otherwise. *)
Definition storeDelete (i : ItemId) : M Store unit :=
  fun s => (removeItem i s, inr tt).

(** Modelled from the spec: [deleteAll] of section 4.1; every item of the
    owner is deleted, each with its Delete change. *)
Definition storeDeleteAll (o : Uuid) : M Store unit :=
  fun s =>
    (fold_left (fun acc i => removeItem (id i) acc) (itemsOf o s) s, inr tt).

(** Modelled from the spec: [readContent] of section 4.1, by the id of the
    item as the route calls it. *)
Definition storeSerializedContent (i : ItemId) : M Store Buffer :=
  fun s =>
    match find (fun x => itemIdEqb (id x) i) (storeItems s) with
    | Some item => (s, inr (content item))
    | None => (s, inl (ErrorNotFound "Not found"))
    end.

Fixpoint hasSlash (s : string) : bool :=
  match s with
  | EmptyString => false
  | String c r => Ascii.eqb c "/"%char || hasSlash r
  end.

Definition childPrefix (parentName : string) : string :=
  if String.eqb parentName "" then "" else (parentName ++ "/")%string.

(** Modelled from the spec: names are hierarchical paths (section 3).  A
    name is a direct descendant of a parent name when it is the parent name,
    a slash, and one more non-empty segment; under the empty parent name,
    when it is one non-empty segment. *)
Definition isDirectChild (parentName n : string) : bool :=
  let pre := childPrefix parentName in
  let rest := substring (String.length pre)
                        (String.length n - String.length pre) n in
  prefix pre n && negb (String.eqb rest "") && negb (hasSlash rest).

Fixpoint insertByName (i : Item) (l : list Item) : list Item :=
  match l with
  | [] => [i]
  | j :: r =>
      if String.leb (name i) (name j) then i :: j :: r
      else j :: insertByName i r
  end.

Fixpoint sortByName (l : list Item) : list Item :=
  match l with
  | [] => []
  | i :: r => insertByName i (sortByName r)
  end.

(** The order of the children listing. *)
Definition byName (a b : Item) : Prop := String.leb (name a) (name b) = true.

Definition childrenOf (o : Uuid) (parentName : string) (s : Store)
  : list Item :=
  sortByName (filter (fun i => isDirectChild parentName (name i)) (itemsOf o s)).

(** Modelled from the spec: [listChildren] of section 4.1; the position of
    the cursor counts the children already listed. *)
Definition storeChildren (o : Uuid) (parentName : string) (p : Pagination)
  : M Store (Page Item) :=
  fun s =>
    let all := childrenOf o parentName s in
    let page := firstn (limit p) (skipn (position p) all) in
    (s, inr (mkPage page
               (position p + limit p <? length all)
               (encodeCursor
                  (mkPagination (position p + length page) (limit p))))).

(** Modelled from the spec: [pageSince] of section 4.2; the events after the
    cursor's position, oldest first, at most [limit] of them. *)
Definition storeAllForUser (o : Uuid) (p : Pagination)
  : M Store (Page Change) :=
  fun s =>
    let rest := filter (fun c => position p <? sequence c) (changesOf o s) in
    let page := firstn (limit p) rest in
    (s, inr (mkPage page
               (limit p <? length rest)
               (encodeCursor
                  (mkPagination (last (map sequence page) (position p))
                                (limit p))))).

Section StoreModels.

Context `{Config}.
Variable ApiOutput : Type.
Variable resolve : string -> Result string.
Variable render : Item -> ApiOutput.

Definition storeItemModel : ItemModel Store ApiOutput :=
  mkItemModel resolve storeLoadByName render storeDelete storeDeleteAll
              storeSerializedContent storeSaveFromRawContent storeChildren.

Definition storeChangeModel : ChangeModel Store :=
  mkChangeModel storeAllForUser.

End StoreModels.

(** ** Requests, histories and clients *)

Inductive Route : Type :=
| GetItem | DelItem | GetContent | PutContent | GetDelta | GetChildren.

Inductive Response (ApiOutput : Type) : Type :=
| ItemResponse (item : ApiOutput)
| EmptyResponse
| ContentResponse (response : ItemContentResponse)
| ChangesResponse (page : Page Change)
| ItemsResponse (page : Page Item).

Arguments EmptyResponse {ApiOutput}.
Arguments ContentResponse {ApiOutput} response.
Arguments ChangesResponse {ApiOutput} page.
Arguments ItemsResponse {ApiOutput} page.

Record Request : Type := mkRequest {
  route : Route;
  path : SubPath;
  context : AppContext
}.

Definition withCursor (ctx : AppContext) (token : string) : AppContext :=
  mkAppContext (owner ctx) (env ctx)
               (mkQuery (Some token) (limitHint (query ctx))) (req ctx).

Section Clients.

Context {St ApiOutput : Type}.
Variable itemModel : ItemModel St ApiOutput.
Variable changeModel : ChangeModel St.
Context `{Config}.

Definition fmap {A B : Type} (f : A -> B) (m : M St A) : M St B :=
  a <- m ;; ret (f a).

(** The router: the handler registered for the route of the request. *)
Definition dispatch (r : Request) : M St (Response ApiOutput) :=
  match route r with
  | GetItem =>
      fmap (@ItemResponse ApiOutput)
           (get_items_id itemModel (path r) (context r))
  | DelItem =>
      fmap (fun _ => EmptyResponse)
           (del_items_id itemModel (path r) (context r))
  | GetContent =>
      fmap ContentResponse
           (get_items_id_content itemModel (path r) (context r))
  | PutContent =>
      fmap (@ItemResponse ApiOutput)
           (put_items_id_content itemModel (path r) (context r))
  | GetDelta =>
      fmap ChangesResponse
           (get_items_id_delta changeModel (path r) (context r))
  | GetChildren =>
      fmap ItemsResponse
           (get_items_id_children itemModel (path r) (context r))
  end.

(** The state after a history of requests, whatever their outcomes. *)
Definition runRequests (history : list Request) (s : St) : St :=
  fold_left (fun acc r => fst (dispatch r acc)) history s.

(** A client that follows the change feed: it asks for a page, and while
    the page says there is more, asks again with the cursor of the page. *)
Fixpoint replayDelta (fuel : nat) (p : SubPath) (ctx : AppContext) (s : St)
  : option (list Change) :=
  match fuel with
  | 0 => None
  | S fuel' =>
      match get_items_id_delta changeModel p ctx s with
      | (s', inr page) =>
          if has_more page
          then option_map (List.app (items page))
                 (replayDelta fuel' p (withCursor ctx (nextCursor page)) s')
          else Some (items page)
      | (_, inl _) => None
      end
  end.

(** The same client on the children listing. *)
Fixpoint replayChildren (fuel : nat) (p : SubPath) (ctx : AppContext)
  (s : St) : option (list Item) :=
  match fuel with
  | 0 => None
  | S fuel' =>
      match get_items_id_children itemModel p ctx s with
      | (s', inr page) =>
          if has_more page
          then option_map (List.app (items page))
                 (replayChildren fuel' p (withCursor ctx (nextCursor page)) s')
          else Some (items page)
      | (_, inl _) => None
      end
  end.

End Clients.

(** What one owner can see of the store. *)
Definition view (o : Uuid) (s : Store) : Store :=
  mkStore (itemsOf o s) (changesOf o s).

(** An item of this name exists for this owner. *)
Definition itemExists (o : Uuid) (n : string) (s : Store) : Prop :=
  exists i, In i (storeItems s) /\ owner_id i = o /\ name i = n.

(** ** What the specification asks of the listings

    The wording of sections 3, 4.1 and 4.2, written without the functions
    of the store, for the statements about the change feed and the children
    listing. *)

(** [feed] is made of the events of the owner [o] in the log, each once and
    in the order of the log. *)
Inductive FeedOf (o : Uuid) : list Change -> list Change -> Prop :=
| feed_nil : FeedOf o [] []
| feed_own (c : Change) (log feed : list Change) :
    change_owner_id c = o -> FeedOf o log feed ->
    FeedOf o (c :: log) (c :: feed)
| feed_other (c : Change) (log feed : list Change) :
    change_owner_id c <> o -> FeedOf o log feed ->
    FeedOf o (c :: log) feed.

(** The characters of a string. *)
Fixpoint characters (s : string) : list ascii :=
  match s with
  | EmptyString => []
  | String c r => c :: characters r
  end.

(** A path segment: not empty, and without a slash. *)
Definition Segment (segment : string) : Prop :=
  segment <> "" /\ ~ In "/"%char (characters segment).

(** The name [n] is a direct descendant of [parentName]: the parent name, a
    slash and one segment; under the root, whose name is empty, one
    segment. *)
Definition DirectDescendant (parentName n : string) : Prop :=
  exists segment,
    Segment segment
    /\ ((parentName = "" /\ n = segment)
        \/ (parentName <> "" /\ n = (parentName ++ "/" ++ segment)%string)).

(** ** Invariants of the store *)

(** The sequence numbers of each owner are 1, 2, 3, ... in the order of the
    log. *)
Definition sequencedLog (l : list Change) : Prop :=
  forall o, map sequence (ownChanges o l) = seq 1 (length (ownChanges o l)).

Definition key (i : Item) : Uuid * string := (owner_id i, name i).

Record wf (s : Store) : Prop := mkWf {
  wf_sequenced : sequencedLog (storeChanges s);
  wf_ids : NoDup (map id (storeItems s));
  wf_keys : NoDup (map key (storeItems s));
  wf_numbers :
    forall i, In i (storeItems s) -> snd (id i) < nextItemNumber (owner_id i) s
}.

(** ** Sample data *)

Definition sampleConfig : Config := Build_Config 3 2.

(** A resolver in the manner of the hierarchical paths of section 3:
    [root:/a/b:] names [a/b], and [root] and [root:/:] name the root. *)
Definition samplePathToName (p : string) : Result string :=
  if String.eqb p "root" || String.eqb p "root:/:" then inr ""
  else if prefix "root:/" p && (2 + String.length "root:/" <=? String.length p)
       then inr (substring 6 (String.length p - 7) p)
       else inl (ErrorInvalidPath p).

Definition sampleItemModel : ItemModel Store Item :=
  @storeItemModel Item samplePathToName (fun i => i).

Definition sampleChangeModel : ChangeModel Store := storeChangeModel.

Definition alice : User := mkUser "alice".
Definition bob : User := mkUser "bob".

Definition b1 : Byte.byte := Byte.x61.
Definition b2 : Byte.byte := Byte.x62.

Definition put (u : User) (p : string) (b : Buffer) : Request :=
  mkRequest PutContent (mkSubPath p)
            (mkAppContext u "prod" (mkQuery None None) (upload b)).

Definition del (u : User) (e : string) (p : string) : Request :=
  mkRequest DelItem (mkSubPath p)
            (mkAppContext u e (mkQuery None None) noUpload).

Definition sampleHistory : list Request :=
  [ put alice "root:/notes/x:" [b1];
    put bob "root:/b:" [b1];
    put alice "root:/notes/x:" [b2];
    put alice "root:/notes/y:" [];
    put alice "root:/notes:" [];
    put alice "root:/notes/z/w:" [b1];
    del alice "prod" "root:/notes/y:";
    put alice "root:/notes/a:" [b1; b2];
    put alice "root:/notes/y:" [b2] ].

Definition aliceContext : AppContext :=
  mkAppContext alice "prod" (mkQuery None None) noUpload.

Definition sampleStore : Store :=
  Eval vm_compute in
    runRequests sampleItemModel sampleChangeModel sampleHistory emptyStore.

(** The scenario of section 8: two writes to one name. *)
Definition scenarioConfig : Config := Build_Config 100 10.

Definition scenarioStore : Store :=
  Eval vm_compute in
    runRequests (H := scenarioConfig)
      (@storeItemModel Item samplePathToName (fun i => i))
      storeChangeModel
      [put alice "root:/notes/x:" [b1]; put alice "root:/notes/x:" [b2]]
      emptyStore.

(** * User routes of the server (routes/index/users.ts)

    The functions of the user routes: [checkPassword], [makeUser],
    [defaultUser], [userIsNew], [userIsMe], the comparison function of the
    user list, and the handlers of the profile form.  The users, the form
    fields and the option lists are JavaScript objects, read by key and
    tested for truth, so they are modelled as objects of values. *)

Module Users.

(** The values the routes handle: strings of the form, numbers and flags of
    the database, [undefined] for a missing property.  [VNaN] is the number
    that equals no number, not even itself. *)
Inductive Value : Type :=
| VUndefined
| VNull
| VBoolean (b : bool)
| VNumber (z : Z)
| VNaN
| VString (s : string).

(** The test of a condition on a value: [if (v)], [v ? a : b], [!v]. *)
Definition truthy (v : Value) : bool :=
  match v with
  | VUndefined | VNull | VNaN => false
  | VBoolean b => b
  | VNumber z => negb (Z.eqb z 0)
  | VString s => negb (String.eqb s "")
  end.

(** [a === b] *)
Definition strictEquals (a b : Value) : bool :=
  match a, b with
  | VUndefined, VUndefined => true
  | VNull, VNull => true
  | VBoolean x, VBoolean y => Bool.eqb x y
  | VNumber x, VNumber y => Z.eqb x y
  | VString x, VString y => String.eqb x y
  | _, _ => false
  end.

(** The text of a value inside a template literal. *)
Definition toString (v : Value) : string :=
  match v with
  | VUndefined => "undefined"
  | VNull => "null"
  | VBoolean true => "true"
  | VBoolean false => "false"
  | VNumber z => NilZero.string_of_int (Z.to_int z)
  | VNaN => "NaN"
  | VString s => s
  end.

(** An object: its properties in the order they were created. *)
Definition Object : Type := list (string * Value).

(** [o.k], [undefined] when the object has no such property. *)
Fixpoint getProperty (o : Object) (k : string) : Value :=
  match o with
  | [] => VUndefined
  | (k', v) :: r => if String.eqb k' k then v else getProperty r k
  end.

(** [k in o] *)
Fixpoint hasProperty (k : string) (o : Object) : bool :=
  match o with
  | [] => false
  | (k', _) :: r => String.eqb k' k || hasProperty k r
  end.

(** [o.k = v] *)
Fixpoint setProperty (o : Object) (k : string) (v : Value) : Object :=
  match o with
  | [] => [(k, v)]
  | (k', v') :: r =>
      if String.eqb k' k then (k, v) :: r else (k', v') :: setProperty r k v
  end.

(** [{ ...a, ...b }] *)
Definition spread (a b : Object) : Object :=
  fold_left (fun acc kv => setProperty acc (fst kv) (snd kv)) b a.

(** The error classes the user routes tell apart: the two they import,
    [TypeError] of the runtime, [new Error(...)], and any other class. *)
Inductive Error : Type :=
| ErrorForbidden (message : string)
| ErrorUnprocessableEntity (message : string)
| TypeError (message : string)
| PlainError (message : string)
| OtherError (className message : string).

(** [error instanceof ErrorForbidden] *)
Definition instanceofErrorForbidden (e : Error) : bool :=
  match e with
  | ErrorForbidden _ => true
  | _ => false
  end.

Definition Result (A : Type) : Type := (Error + A)%type.

(** What the routes use of the rest of the server and of the runtime: the
    conversion [Number], [accountTypeProperties] and [accountTypeOptions] of
    UserModel.ts, [baseUrl] and [accountTypesEnabled] of the configuration,
    and the lower-casing and the order of strings. *)
Class Externals : Type := {
  Number : Value -> Value;
  accountTypeProperties : Value -> Object;
  accountTypeOptions : list Object;
  baseUrl : string;
  accountTypesEnabled : Value;
  toLowerCase : string -> string;
  stringLt : string -> string -> bool
}.

(** [checkPassword], lines 22 to 31. *)
Definition checkPassword (fields : Object) (required : bool) : Result Value :=
  if truthy (getProperty fields "password") then
    if negb (strictEquals (getProperty fields "password")
                          (getProperty fields "password2"))
    then inl (ErrorUnprocessableEntity "Passwords do not match")
    else inr (getProperty fields "password")
  else
    if required then inl (ErrorUnprocessableEntity "Password is required")
    else inr (VString "").

(** [if (k in fields) user.k = fields.k] *)
Definition copyProperty (k : string) (fields user : Object) : Object :=
  if hasProperty k fields then setProperty user k (getProperty fields k)
  else user.

(** The part of [makeUser] before the password, lines 34 to 48. *)
Definition userFromFields `{Externals} (fields : Object) : Object :=
  let user := [] in
  let user := copyProperty "email" fields user in
  let user := copyProperty "full_name" fields user in
  let user := copyProperty "is_admin" fields user in
  let user :=
    if hasProperty "max_item_size" fields
    then setProperty user "max_item_size"
           (if truthy (getProperty fields "max_item_size")
            then getProperty fields "max_item_size" else VNumber 0)
    else user in
  let user :=
    if hasProperty "can_share" fields
    then setProperty user "can_share"
           (if truthy (getProperty fields "can_share")
            then VNumber 1 else VNumber 0)
    else user in
  if hasProperty "account_type" fields
  then
    let user :=
      setProperty user "account_type"
        (Number (getProperty fields "account_type")) in
    spread user (accountTypeProperties (getProperty user "account_type"))
  else user.

(** [makeUser], lines 33 to 61; [uuid] is what [uuidgen()] returns when it
    is called. *)
Definition makeUser `{Externals} (isNew : bool) (fields : Object)
  (uuid : string) : Result Object :=
  let user := userFromFields fields in
  match checkPassword fields false with
  | inl e => inl e
  | inr password =>
      let user :=
        if truthy password then setProperty user "password" password
        else user in
      let user :=
        if negb isNew then setProperty user "id" (getProperty fields "id")
        else user in
      let user :=
        if isNew then
          let user :=
            setProperty user "must_set_password"
              (if truthy (getProperty user "password")
               then VNumber 0 else VNumber 1) in
          setProperty user "password"
            (if truthy (getProperty user "password")
             then getProperty user "password" else VString uuid)
        else user in
      inr user
  end.

(** [defaultUser], lines 63 to 68. *)
Definition defaultUser : Object :=
  [("can_share", VNumber 1); ("max_item_size", VNumber 0)].

(** [userIsNew], lines 70 to 72. *)
Definition userIsNew (path : SubPath) : bool :=
  String.eqb (path_id path) "new".

(** [userIsMe], lines 74 to 76. *)
Definition userIsMe (path : SubPath) : bool :=
  String.eqb (path_id path) "me".

(** [v.toLowerCase()], a [TypeError] when the value is not a string. *)
Definition lowerCase `{Externals} (v : Value) : Result string :=
  match v with
  | VString s => inr (toLowerCase s)
  | _ => inl (TypeError "toLowerCase is not a function")
  end.

(** [a.toLowerCase() < b.toLowerCase() ? -1 : +1] *)
Definition lowerCaseOrder `{Externals} (a b : Value) : Result Z :=
  match lowerCase a with
  | inl e => inl e
  | inr x =>
      match lowerCase b with
      | inl e => inl e
      | inr y => inr (if stringLt x y then (-1)%Z else 1%Z)
      end
  end.

(** The comparison function given to [users.sort], lines 86 to 91. *)
Definition compareUsers `{Externals} (u1 u2 : Object) : Result Z :=
  let name1 := getProperty u1 "full_name" in
  let name2 := getProperty u2 "full_name" in
  if truthy name1 && truthy name2 then lowerCaseOrder name1 name2
  else if truthy name1 && negb (truthy name2) then inr 1%Z
  else if negb (truthy name1) && truthy name2 then inr (-1)%Z
  else lowerCaseOrder (getProperty u1 "email") (getProperty u2 "email").

(** The monad of the handlers, as for the item routes, over the errors of
    the user routes. *)
Definition M (St A : Type) : Type := St -> St * Result A.

Definition ret {St A : Type} (a : A) : M St A :=
  fun s => (s, inr a).

Definition throw {St A : Type} (e : Error) : M St A :=
  fun s => (s, inl e).

Definition bind {St A B : Type} (m : M St A) (k : A -> M St B) : M St B :=
  fun s =>
    match m s with
    | (s', inr a) => k a s'
    | (s', inl e) => (s', inl e)
    end.

Definition tryCatch {St A : Type} (body : M St A) (handler : Error -> M St A)
  : M St A :=
  fun s =>
    match body s with
    | (s', inr a) => (s', inr a)
    | (s', inl e) => handler e s'
    end.

(** Reading a property of an object that may be [null]. *)
Definition deref {St : Type} (o : option Object) : M St Object :=
  match o with
  | Some a => ret a
  | None => throw (TypeError "Cannot read properties of null")
  end.

Declare Scope users_scope.
Delimit Scope users_scope with users.
Notation "x <- m ;; k" := (bind m (fun x => k))
  (at level 61, m at next level, right associativity) : users_scope.
Notation "m ;; k" := (bind m (fun _ => k))
  (at level 61, right associativity) : users_scope.
Local Open Scope users_scope.

(** [AclAction] of BaseModel.ts. *)
Inductive AclAction : Type := Create | Read | Update | Delete | List.

(** The methods of [UserModel] that the profile routes call, with the
    arguments of the call sites; [save] takes the options object of the
    call, [{ isNew: false }] or none. *)
Record UserModel (St : Type) : Type := mkUserModel {
  load : Value -> M St (option Object);
  checkIfAllowed : Object -> AclAction -> option Object -> M St unit;
  fromApiInput : Object -> Object;
  save : Object -> option bool -> M St unit;
  delete : Value -> M St unit;
  sendAccountConfirmationEmail : Object -> M St unit
}.

(** The context of a request to the profile routes: the owner of the
    session, what [formParse(ctx.req)] gives as the fields of the form, and
    what [uuidgen()] returns during the request. *)
Record WebContext : Type := mkWebContext {
  owner : Object;
  form : Result Object;
  uuid : string
}.

(** The view of the profile form, [defaultView('user', 'Profile')] with the
    content the route gives it. *)
Record View : Type := mkView {
  viewName : string;
  viewTitle : string;
  user : option Object;
  isNew : bool;
  buttonTitle : string;
  error : option Error;
  postUrl : string;
  showDeleteButton : bool;
  showResetPasswordButton : Value;
  showAccountTypes : bool;
  accountTypes : list Object
}.

Inductive Response : Type :=
| Redirect (url : string)
| Rendered (view : View).

Section Handlers.

Context {St : Type}.
Variable userModel : UserModel St.
Context `{Externals}.

(** [o.selected = user.account_type === o.value] on each option. *)
Definition selectAccountType (u : Object) (o : Object) : Object :=
  setProperty o "selected"
    (VBoolean (strictEquals (getProperty u "account_type")
                            (getProperty o "value"))).

(** [router.get('users/:id')], lines 103 to 143; [user] and [error] are the
    two optional arguments, [null] when the router calls the handler. *)
Definition get_users_id (path : SubPath) (ctx : WebContext)
  (user : option Object) (error : option Error) : M St View :=
  let owner := owner ctx in
  let isMe := userIsMe path in
  let isNew := userIsNew path in
  let userId :=
    if userIsMe path then getProperty owner "id" else VString (path_id path) in
  user <- (if negb isNew
           then match user with
                | Some u => ret (Some u)
                | None => load userModel userId
                end
           else ret None) ;;
  let user :=
    if isNew && (match user with Some _ => false | None => true end)
    then Some defaultUser else user in
  checkIfAllowed userModel owner Read user ;;
  postUrl <- (if isNew then ret (baseUrl ++ "/users/new")%string
              else if isMe then ret (baseUrl ++ "/users/me")%string
              else u <- deref user ;;
                   ret (baseUrl ++ "/users/"
                          ++ toString (getProperty u "id"))%string) ;;
  showDelete <- (if negb isNew && truthy (getProperty owner "is_admin")
                 then u <- deref user ;;
                      ret (negb (strictEquals (getProperty owner "id")
                                              (getProperty u "id")))
                 else ret false) ;;
  let showReset :=
    if negb isNew then getProperty owner "is_admin" else VBoolean false in
  options <- (if truthy accountTypesEnabled
              then u <- deref user ;;
                   ret (map (selectAccountType u) accountTypeOptions)
              else ret []) ;;
  ret (mkView "user" "Profile" user isNew
              (if isNew then "Create user" else "Update profile")
              error postUrl showDelete showReset
              (truthy accountTypesEnabled) options).

(** The branches of the buttons of the form and the redirection, lines 231
    to 252. *)
Definition submit (path : SubPath) (ctx : WebContext) (fields user : Object)
  : M St Response :=
  let isNew := userIsNew path in
  (if truthy (getProperty fields "post_button") then
     let userToSave := fromApiInput userModel user in
     checkIfAllowed userModel (owner ctx) (if isNew then Create else Update)
       (Some userToSave) ;;
     if isNew then save userModel userToSave None
     else save userModel userToSave (Some false)
   else if truthy (getProperty fields "delete_button") then
     user <- load userModel (VString (path_id path)) ;;
     checkIfAllowed userModel (owner ctx) Delete user ;;
     delete userModel (VString (path_id path))
   else if truthy (getProperty fields "send_reset_password_email") then
     user <- load userModel (VString (path_id path)) ;;
     u <- deref user ;;
     save userModel
       [("id", getProperty u "id"); ("must_set_password", VNumber 1)] None ;;
     sendAccountConfirmationEmail userModel u
   else throw (PlainError "Invalid form button")) ;;
  ret (Redirect (baseUrl ++ "/users"
                   ++ (if userIsMe path then "/me" else ""))%string).

(** The [catch] clause of the post route, lines 253 to 257, with the value
    the variable [user] has when the error is caught. *)
Definition redisplay (path : SubPath) (ctx : WebContext) (user : Object)
  (e : Error) : M St Response :=
  if instanceofErrorForbidden e then throw e
  else view <- get_users_id path ctx (Some user) (Some e) ;;
       ret (Rendered view).

(** [router.post('users')], lines 218 to 258.  The variable [user] is the
    empty object until [makeUser] returns. *)
Definition post_users (path : SubPath) (ctx : WebContext) : M St Response :=
  let userId :=
    if userIsMe path then getProperty (owner ctx) "id"
    else VString (path_id path) in
  match form ctx with
  | inl e => redisplay path ctx [] e
  | inr parsed =>
      let fields :=
        if userIsMe path then setProperty parsed "id" userId else parsed in
      match makeUser (userIsNew path) fields (uuid ctx) with
      | inl e => redisplay path ctx [] e
      | inr user => tryCatch (submit path ctx fields user) (redisplay path ctx user)
      end
  end.

End Handlers.

(** A model with another [checkIfAllowed]. *)
Definition withCheck {St : Type} (userModel : UserModel St)
  (check : Object -> AclAction -> option Object -> M St unit)
  : UserModel St :=
  mkUserModel (load userModel) check (fromApiInput userModel)
              (save userModel) (delete userModel)
              (sendAccountConfirmationEmail userModel).

(** The fields the post route works on: the parsed fields, with the id of
    the owner when the path is [me] (line 226). *)
Definition fieldsOf (path : SubPath) (ctx : WebContext) (parsed : Object)
  : Object :=
  if userIsMe path
  then setProperty parsed "id" (getProperty (owner ctx) "id")
  else parsed.

(** A handler's outcome shown as a response. *)
Definition rendered {St : Type} (outcome : St * Result View)
  : St * Result Response :=
  match outcome with
  | (s, inl e) => (s, inl e)
  | (s, inr view) => (s, inr (Rendered view))
  end.

(** ** Sample data of the user routes *)

Definition lowerAscii (c : ascii) : ascii :=
  let n := nat_of_ascii c in
  if (65 <=? n) && (n <=? 90) then ascii_of_nat (n + 32) else c.

Fixpoint lowerString (s : string) : string :=
  match s with
  | EmptyString => EmptyString
  | String c r => String (lowerAscii c) (lowerString r)
  end.

Definition sampleExternals : Externals :=
  Build_Externals
    (fun v => match v with
              | VNumber z => VNumber z
              | VString "1" => VNumber 1
              | VString "2" => VNumber 2
              | _ => VNaN
              end)
    (fun v => [("account_type", v); ("can_share", VNumber 1);
               ("max_item_size", VNumber 0)])
    [[("value", VNumber 1); ("name", VString "Basic")];
     [("value", VNumber 2); ("name", VString "Pro")]]
    "https://example.org"
    (VBoolean true)
    lowerString
    String.ltb.

(** A model that keeps the journal of its calls, newest last.  It knows the
    users [u1] (an admin) and [u2], allows what an admin asks and what a
    user asks about their own profile, and refuses the rest. *)
Definition Journal : Type := list string.

Definition adminUser : Object :=
  [("id", VString "u1"); ("email", VString "admin@example.org");
   ("is_admin", VNumber 1); ("account_type", VNumber 2)].

Definition plainUser : Object :=
  [("id", VString "u2"); ("email", VString "Bob@example.org");
   ("full_name", VString "bob"); ("is_admin", VNumber 0);
   ("account_type", VNumber 1)].

Definition journalLoad (userId : Value) : M Journal (option Object) :=
  fun s =>
    (s ++ [("load " ++ toString userId)%string],
     inr (if strictEquals userId (VString "u1") then Some adminUser
          else if strictEquals userId (VString "u2") then Some plainUser
          else None)).

Definition journalCheck (owner : Object) (action : AclAction)
  (target : option Object) : M Journal unit :=
  fun s =>
    let allowed :=
      truthy (getProperty owner "is_admin")
      || match action, target with
         | (Read | Update), Some u =>
             strictEquals (getProperty owner "id") (getProperty u "id")
         | _, _ => false
         end in
    (s ++ ["checkIfAllowed"],
     if allowed then inr tt else inl (ErrorForbidden "not allowed")).

Definition journalModel : UserModel Journal :=
  mkUserModel
    journalLoad
    journalCheck
    (fun u => u)
    (fun u _ s =>
       (s ++ [("save " ++ toString (getProperty u "id"))%string], inr tt))
    (fun userId s => (s ++ [("delete " ++ toString userId)%string], inr tt))
    (fun u s =>
       (s ++ [("email " ++ toString (getProperty u "id"))%string], inr tt)).

(** A model that refuses every action. *)
Definition refusingModel : UserModel Journal :=
  mkUserModel
    journalLoad
    (fun _ _ _ s => (s ++ ["checkIfAllowed"], inl (ErrorForbidden "refused")))
    (fun u => u)
    (fun u _ s =>
       (s ++ [("save " ++ toString (getProperty u "id"))%string], inr tt))
    (fun userId s => (s ++ [("delete " ++ toString userId)%string], inr tt))
    (fun u s =>
       (s ++ [("email " ++ toString (getProperty u "id"))%string], inr tt)).

Definition newUserForm : Object :=
  [("email", VString "carol@example.org"); ("full_name", VString "Carol");
   ("can_share", VString ""); ("max_item_size", VString "");
   ("password", VString "secret"); ("password2", VString "secret");
   ("post_button", VString "Create user"); ("role", VString "admin")].

Definition profileForm : Object :=
  [("email", VString "bob@example.org"); ("id", VString "u1");
   ("post_button", VString "Update profile")].

Definition mismatchForm : Object :=
  [("password", VString "secret"); ("password2", VString "secrte");
   ("delete_button", VString "Delete")].

Definition resetForm : Object :=
  [("send_reset_password_email", VString "Send")].

Definition deleteForm : Object :=
  [("delete_button", VString "Delete")].

Definition bobContext (fields : Object) : WebContext :=
  mkWebContext plainUser (inr fields) "generated".

Definition adminContext (fields : Object) : WebContext :=
  mkWebContext adminUser (inr fields) "generated".

Definition keysOfUser : list string :=
  ["email"; "full_name"; "is_admin"; "max_item_size"; "can_share";
   "account_type"; "password"; "id"; "must_set_password"].

End Users.

(** * The confirmation routes (routes/index/users.ts, lines 145 to 207)

    [users/:id/confirm] is a public route: its context may have no owner. *)

Module UsersConfirm.

Import Users.
Local Open Scope users_scope.

(** The keys of [NotificationKey] that the routes use. *)
Inductive NotificationKey : Type := EmailConfirmed | PasswordSet.

(** The methods of the user, token, session and notification models and of
    the cookies that the confirmation routes call, with the arguments of
    the call sites. *)
Record Models (St : Type) : Type := mkModels {
  confirmEmail : Value -> Value -> M St unit;
  load : Value -> M St (option Object);
  save : Object -> M St unit;
  confirmUrl : Value -> Value -> string;
  checkToken : Value -> Value -> M St unit;
  deleteByValue : Value -> Value -> M St unit;
  createUserSession : Value -> M St Object;
  add : Value -> NotificationKey -> M St unit;
  cookiesSet : string -> Value -> M St unit
}.

(** The context of a request: the owner of the session, if any, the token
    of the query, and what [bodyFields(ctx.req)] gives. *)
Record Context : Type := mkContext {
  owner : option Object;
  queryToken : Value;
  body : Result Object
}.

(** The view of the confirmation form. *)
Record ConfirmView : Type := mkConfirmView {
  viewName : string;
  viewTitle : string;
  user : Object;
  error : option Error;
  token : Value;
  postUrl : string;
  navbar : bool
}.

Inductive Response : Type :=
| Redirect (url : string)
| Rendered (view : ConfirmView).

Section Handlers.

Context {St : Type}.
Variable models : Models St.
Context `{Externals}.

(** [router.get('users/:id/confirm')], lines 147 to 177; [error] is the
    optional argument, [null] when the router calls the handler. *)
Definition get_users_id_confirm (path : SubPath) (ctx : Context)
  (error : option Error) : M St Response :=
  let userId := VString (path_id path) in
  let token := queryToken ctx in
  (if truthy token then confirmEmail models userId token else ret tt) ;;
  loaded <- load models userId ;;
  user <- deref loaded ;;
  if truthy (getProperty user "must_set_password") then
    ret (Rendered (mkConfirmView "users/confirm" "Confirmation" user error
                     token (confirmUrl models userId token) false))
  else
    deleteByValue models userId token ;;
    add models userId EmailConfirmed ;;
    match owner ctx with
    | Some _ => ret (Redirect (baseUrl ++ "/home")%string)
    | None => ret (Redirect (baseUrl ++ "/login")%string)
    end.

(** The [try] block of the post route, lines 189 to 202. *)
Definition setPassword (path : SubPath) (ctx : Context) : M St Response :=
  let userId := VString (path_id path) in
  fields <- (fun s => (s, body ctx)) ;;
  checkToken models userId (getProperty fields "token") ;;
  password <- (fun s => (s, checkPassword fields true)) ;;
  save models [("id", userId); ("password", password);
               ("must_set_password", VNumber 0)] ;;
  deleteByValue models userId (getProperty fields "token") ;;
  session <- createUserSession models userId ;;
  cookiesSet models "sessionId" (getProperty session "id") ;;
  add models userId PasswordSet ;;
  ret (Redirect (baseUrl ++ "/home")%string).

(** [router.post('users/:id/confirm')], lines 185 to 207. *)
Definition post_users_id_confirm (path : SubPath) (ctx : Context)
  : M St Response :=
  tryCatch (setPassword path ctx)
           (fun error => get_users_id_confirm path ctx (Some error)).

End Handlers.

(** ** Sample data of the confirmation routes *)

Definition invitedUser : Object :=
  [("id", VString "u3"); ("must_set_password", VNumber 1)].

(** A model that keeps the journal of its calls.  It knows the users [u2],
    who has a password, and [u3], who must set one; the token of [u3] is
    [t3]. *)
Definition journalModels : Models Journal :=
  mkModels
    (fun userId token s =>
       (s ++ [("confirmEmail " ++ toString userId)%string], inr tt))
    (fun userId s =>
       (s ++ [("load " ++ toString userId)%string],
        inr (if strictEquals userId (VString "u2") then Some plainUser
             else if strictEquals userId (VString "u3") then Some invitedUser
             else None)))
    (fun u s =>
       (s ++ [("save " ++ toString (getProperty u "id") ++ " "
                 ++ toString (getProperty u "password"))%string], inr tt))
    (fun userId token =>
       ("/users/" ++ toString userId ++ "/confirm?token=" ++ toString token)%string)
    (fun userId token s =>
       (s ++ ["checkToken"],
        if strictEquals userId (VString "u3")
           && strictEquals token (VString "t3")
        then inr tt else inl (ErrorForbidden "Invalid or expired token")))
    (fun userId token s =>
       (s ++ [("deleteByValue " ++ toString token)%string], inr tt))
    (fun userId s =>
       (s ++ ["createUserSession"], inr [("id", VString "session1")]))
    (fun userId key s =>
       (s ++ [match key with
              | EmailConfirmed => "add EmailConfirmed"
              | PasswordSet => "add PasswordSet"
              end], inr tt))
    (fun name v s =>
       (s ++ [("cookie " ++ name ++ "=" ++ toString v)%string], inr tt)).

Definition setPasswordForm : Object :=
  [("token", VString "t3"); ("password", VString "secret");
   ("password2", VString "secret")].

Definition wrongTokenForm : Object :=
  [("token", VString "guess"); ("password", VString "secret");
   ("password2", VString "secret")].

End UsersConfirm.

(** * Properties *)

Unset Implicit Arguments.

Ltac splits :=
  repeat match goal with
         | |- _ /\ _ => split
         end.

(** ** The cursor encoding *)

Lemma split_free (sep : ascii) (a : string) :
  freeOf sep a = true -> split sep a = [a].
Proof.
  induction a as [|c r IH]; simpl; intros Hf.
  - reflexivity.
  - apply andb_true_iff in Hf. destruct Hf as [Hc Hr].
    apply negb_true_iff in Hc. rewrite Hc, (IH Hr). reflexivity.
Qed.

Lemma split_append (sep : ascii) (a b : string) :
  freeOf sep a = true ->
  split sep (a ++ String sep b)%string = a :: split sep b.
Proof.
  induction a as [|c r IH]; simpl; intros Hf.
  - rewrite Ascii.eqb_refl. reflexivity.
  - apply andb_true_iff in Hf. destruct Hf as [Hc Hr].
    apply negb_true_iff in Hc. rewrite Hc, (IH Hr). reflexivity.
Qed.

Lemma string_of_uint_free (d : uint) :
  freeOf separator (NilEmpty.string_of_uint d) = true.
Proof.
  induction d; simpl; auto.
Qed.

Lemma natToString_free (n : nat) : freeOf separator (natToString n) = true.
Proof.
  apply string_of_uint_free.
Qed.

Lemma stringToNat_natToString (n : nat) :
  stringToNat (natToString n) = Some n.
Proof.
  unfold stringToNat, natToString.
  rewrite NilEmpty.usu. simpl. now rewrite Unsigned.of_to.
Qed.

Lemma split_encodeCursor (c : Pagination) :
  split separator (encodeCursor c)
  = [cursorVersion; natToString (position c); natToString (limit c);
     natToString (checksum c)].
Proof.
  unfold encodeCursor.
  rewrite split_append by reflexivity.
  rewrite split_append by apply natToString_free.
  rewrite split_append by apply natToString_free.
  rewrite split_free by apply natToString_free.
  reflexivity.
Qed.

Lemma decode_encode `{Config} (c : Pagination) :
  validPagination c = true -> decodeCursor (encodeCursor c) = inr c.
Proof.
  intros Hv. unfold decodeCursor.
  rewrite split_encodeCursor, !stringToNat_natToString.
  destruct c as [p l]; cbn [position limit] in *.
  rewrite Hv, Nat.eqb_refl, !String.eqb_refl. reflexivity.
Qed.

Lemma decode_inr `{Config} (token : string) (c : Pagination) :
  decodeCursor token = inr c ->
  validPagination c = true /\ token = encodeCursor c.
Proof.
  unfold decodeCursor.
  destruct (split separator token) as [|v [|sp [|sl [|sk [|]]]]]; try discriminate.
  destruct (stringToNat sp) as [p|]; try discriminate.
  destruct (stringToNat sl) as [l|]; try discriminate.
  destruct (stringToNat sk) as [k|]; try discriminate.
  destruct (_ && _) eqn:Hc; try discriminate.
  intros Heq. injection Heq as <-.
  repeat (apply andb_true_iff in Hc; destruct Hc as [Hc ?]).
  split; [assumption|]. symmetry. now apply String.eqb_eq.
Qed.

Lemma decode_inl `{Config} (token : string) (e : Error) :
  decodeCursor token = inl e -> e = ErrorInvalidCursor.
Proof.
  unfold decodeCursor.
  destruct (split separator token) as [|v [|sp [|sl [|sk [|]]]]];
    try (intros Heq; injection Heq as <-; reflexivity).
  destruct (stringToNat sp) as [p|];
    try (intros Heq; injection Heq as <-; reflexivity).
  destruct (stringToNat sl) as [l|];
    try (intros Heq; injection Heq as <-; reflexivity).
  destruct (stringToNat sk) as [k|];
    try (intros Heq; injection Heq as <-; reflexivity).
  destruct (_ && _); try discriminate.
  intros Heq; injection Heq as <-; reflexivity.
Qed.

Lemma validPagination_iff `{Config} (p l : nat) :
  validPagination (mkPagination p l) = true <-> 1 <= l <= maxPageSize.
Proof.
  unfold validPagination; cbn [limit].
  rewrite andb_true_iff, !Nat.leb_le. tauto.
Qed.

Lemma append_associative (a b c : string) :
  ((a ++ b) ++ c = a ++ (b ++ c))%string.
Proof.
  induction a as [|x r IH]; simpl; [reflexivity | now rewrite IH].
Qed.

Lemma split_nonempty (sep : ascii) (a : string) : split sep a <> [].
Proof.
  destruct a as [|c r]; simpl; [discriminate|].
  destruct (Ascii.eqb c sep); [discriminate|].
  destruct (split sep r); discriminate.
Qed.

(** Splitting at a separator splits what is before it and what is after
    it. *)
Lemma split_at_separator (sep : ascii) (a b : string) :
  split sep (a ++ String sep b)%string = split sep a ++ split sep b.
Proof.
  induction a as [|c r IH]; simpl.
  - now rewrite Ascii.eqb_refl.
  - destruct (Ascii.eqb c sep); [now rewrite IH|].
    rewrite IH. pose proof (split_nonempty sep r) as Hr.
    destruct (split sep r); [contradiction | reflexivity].
Qed.

Lemma split_one (sep : ascii) (a k : string) : split sep a = [k] -> a = k.
Proof.
  revert k. induction a as [|c r IH]; simpl; intros k Hs.
  - now injection Hs.
  - destruct (Ascii.eqb c sep).
    + injection Hs as _ Hr. now elim (split_nonempty sep r).
    + destruct (split sep r) as [|h t] eqn:Hr;
        [now elim (split_nonempty sep r)|].
      injection Hs as <- ->. now rewrite (IH h eq_refl).
Qed.

Lemma natToString_injective (a b : nat) :
  natToString a = natToString b -> a = b.
Proof.
  intros Heq. apply (f_equal stringToNat) in Heq.
  rewrite !stringToNat_natToString in Heq. now injection Heq.
Qed.

(** The check of a cursor determines the cursor. *)
Lemma checksum_injective (c c' : Pagination) :
  checksum c = checksum c' -> c = c'.
Proof.
  destruct c as [p l], c' as [p' l']. unfold checksum. cbn [position limit].
  intros Heq.
  assert (Hsum : p + l = p' + l') by nia.
  rewrite Hsum in Heq.
  assert (Hp : p = p') by lia.
  f_equal; lia.
Qed.

(** A token that decodes and ends with the check of a cursor is the
    encoding of that cursor. *)
Lemma decode_same_check `{Config} (c c' : Pagination) (front : string) :
  decodeCursor (front ++ String separator (natToString (checksum c)))%string
  = inr c' ->
  c' = c.
Proof.
  intros Hd. apply decode_inr in Hd. destruct Hd as [_ Ht].
  apply (f_equal (split separator)) in Ht.
  rewrite split_at_separator, split_encodeCursor in Ht.
  rewrite (split_free separator (natToString (checksum c)))
    in Ht by apply natToString_free.
  change [cursorVersion; natToString (position c'); natToString (limit c');
          natToString (checksum c')]
    with ([cursorVersion; natToString (position c'); natToString (limit c')]
          ++ [natToString (checksum c')]) in Ht.
  apply app_inj_tail in Ht. destruct Ht as [_ Hk].
  apply natToString_injective in Hk. symmetry. now apply checksum_injective.
Qed.

(** A token that decodes and begins with the version, the position and the
    limit of a cursor is the encoding of that cursor. *)
Lemma decode_same_fields `{Config} (c c' : Pagination) (check : string) :
  decodeCursor
    (cursorVersion ++ String separator
      (natToString (position c) ++ String separator
        (natToString (limit c) ++ String separator check)))%string
  = inr c' ->
  c' = c /\ check = natToString (checksum c).
Proof.
  intros Hd. apply decode_inr in Hd. destruct Hd as [_ Ht].
  apply (f_equal (split separator)) in Ht.
  rewrite split_encodeCursor in Ht.
  rewrite split_append in Ht by reflexivity.
  rewrite split_append in Ht by apply natToString_free.
  rewrite split_append in Ht by apply natToString_free.
  injection Ht as Hp Hl Hk.
  apply natToString_injective in Hp, Hl.
  assert (Hc : c' = c) by (destruct c, c'; simpl in *; congruence).
  split; [assumption|]. subst c'. now apply split_one in Hk.
Qed.

(** C8.  Decoding the encoding of a position and a limit within
    [1, maxPageSize] gives back that position and that limit.  A token that
    is not the encoding of such a pair, tampered with or malformed, is
    refused with InvalidCursor, and a decoded pair is the one the token
    encodes.  Tampering is detected: a token that carries the check of a
    cursor but another version, position or limit, and a token that carries
    the version, position and limit of a cursor but another check, are both
    refused; a token that keeps the check of a cursor never decodes to
    another cursor. *)
Theorem cursor_round_trip `{Config} :
  (forall p l : nat,
      1 <= l <= maxPageSize ->
      decodeCursor (encodeCursor (mkPagination p l)) = inr (mkPagination p l))
  /\ (forall token : string,
        (forall p l : nat,
            1 <= l <= maxPageSize -> token <> encodeCursor (mkPagination p l)) ->
        decodeCursor token = inl ErrorInvalidCursor)
  /\ (forall (token : string) (p l : nat),
        decodeCursor token = inr (mkPagination p l) ->
        1 <= l <= maxPageSize /\ token = encodeCursor (mkPagination p l))
  /\ (forall (p l : nat) (version pos lim : string),
        let token :=
          (version ++ ":" ++ pos ++ ":" ++ lim ++ ":"
             ++ natToString (checksum (mkPagination p l)))%string in
        token <> encodeCursor (mkPagination p l) ->
        decodeCursor token = inl ErrorInvalidCursor)
  /\ (forall (p l : nat) (check : string),
        check <> natToString (checksum (mkPagination p l)) ->
        decodeCursor
          ("c1:" ++ natToString p ++ ":" ++ natToString l ++ ":" ++ check)%string
        = inl ErrorInvalidCursor)
  /\ (forall (p l p' l' : nat) (version pos lim : string),
        decodeCursor
          (version ++ ":" ++ pos ++ ":" ++ lim ++ ":"
             ++ natToString (checksum (mkPagination p l)))%string
        = inr (mkPagination p' l') ->
        p' = p /\ l' = l).
Proof.
  assert (Hfront : forall (version pos lim check : string),
             (version ++ ":" ++ pos ++ ":" ++ lim ++ ":" ++ check)%string
             = ((version ++ ":" ++ pos ++ ":" ++ lim)
                  ++ String separator check)%string).
  { intros version pos lim check.
    now rewrite !append_associative. }
  splits.
  - intros p l Hl. apply decode_encode. now apply validPagination_iff.
  - intros token Hno.
    destruct (decodeCursor token) as [e|[p l]] eqn:Hd.
    + apply decode_inl in Hd. now subst.
    + apply decode_inr in Hd. destruct Hd as [Hv Ht].
      apply validPagination_iff in Hv. now elim (Hno p l Hv).
  - intros token p l Hd. apply decode_inr in Hd. destruct Hd as [Hv Ht].
    split; [now apply (validPagination_iff p l) | assumption].
  - intros p l version pos lim token Hne.
    destruct (decodeCursor token) as [e|c'] eqn:Hd.
    + apply decode_inl in Hd. now subst.
    + pose proof Hd as Hsame. unfold token in Hsame.
      rewrite Hfront in Hsame. apply decode_same_check in Hsame. subst c'.
      apply decode_inr in Hd. now elim Hne.
  - intros p l check Hne.
    destruct (decodeCursor _) as [e|c'] eqn:Hd.
    + apply decode_inl in Hd. now subst.
    + apply (decode_same_fields (mkPagination p l) c' check) in Hd.
      destruct Hd as [_ Hk]. now elim Hne.
  - intros p l p' l' version pos lim Hd.
    rewrite Hfront in Hd. apply decode_same_check in Hd.
    now injection Hd.
Qed.

(** The cursor of position 0 and limit 2 is [c1:0:2:4].  With the position
    edited and the check kept, with the limit edited and the check kept, and
    with the check edited, the token is refused. *)
Lemma cursor_round_trip_witness :
  1 <= 2 <= @maxPageSize sampleConfig
  /\ encodeCursor (mkPagination 0 2) = "c1:0:2:4"
  /\ @decodeCursor sampleConfig "c1:0:2:4" = inr (mkPagination 0 2)
  /\ "c1:997:2:4" <> encodeCursor (mkPagination 0 2)
  /\ @decodeCursor sampleConfig "c1:997:2:4" = inl ErrorInvalidCursor
  /\ "c1:0:3:4" <> encodeCursor (mkPagination 0 2)
  /\ @decodeCursor sampleConfig "c1:0:3:4" = inl ErrorInvalidCursor
  /\ "9" <> natToString (checksum (mkPagination 0 2))
  /\ @decodeCursor sampleConfig "c1:0:2:9" = inl ErrorInvalidCursor.
Proof.
  assert (Hl : 1 <= 2 <= @maxPageSize sampleConfig) by (simpl; lia).
  assert (Hp : "c1:997:2:4" <> encodeCursor (mkPagination 0 2))
    by discriminate.
  assert (Hm : "c1:0:3:4" <> encodeCursor (mkPagination 0 2))
    by discriminate.
  assert (Hk : "9" <> natToString (checksum (mkPagination 0 2)))
    by discriminate.
  destruct (@cursor_round_trip sampleConfig)
    as [Hround [_ [_ [Hcheck [Hfields _]]]]].
  split; [exact Hl|]. splits; try assumption.
  - reflexivity.
  - exact (Hround 0 2 Hl).
  - exact (Hcheck 0 2 "c1" "997" "2" Hp).
  - exact (Hcheck 0 2 "c1" "0" "3" Hm).
  - exact (Hfields 0 2 "9" Hk).
Defined.

(** ** The routes, over any implementation of the models *)

Section RouteProperties.

Context {St ApiOutput : Type}.
Variable itemModel : ItemModel St ApiOutput.
Variable changeModel : ChangeModel St.
Context `{Config}.

Lemma itemFromPath_resolved (o : Uuid) (p : SubPath) (n : string) (s : St) :
  pathToName itemModel (path_id p) = inr n ->
  itemFromPath itemModel o p true s
  = match loadByName itemModel o n s with
    | (s', inr (Some item)) => (s', inr (Some item))
    | (s', inr None) =>
        (s', inl (ErrorNotFound ("Not found: " ++ path_id p)))
    | (s', inl e) => (s', inl e)
    end.
Proof.
  intros Hn. unfold itemFromPath, bind, lift. rewrite Hn.
  destruct (loadByName itemModel o n s) as [s' [e|[item|]]]; reflexivity.
Qed.

Lemma itemFromPath_unresolved (o : Uuid) (p : SubPath) (e : Error) (s : St) :
  pathToName itemModel (path_id p) = inl e ->
  itemFromPath itemModel o p true s = (s, inl e).
Proof.
  intros Hn. unfold itemFromPath, bind, lift. now rewrite Hn.
Qed.

(** C2.  Outside the 'dev' environment, a DELETE of the id 'root' or
    'root:/:' fails with the MethodNotAllowed error, whose status is 405,
    and the state of the models, every item and every change of it, is
    the one before the request. *)
Theorem delete_root_refused (p : SubPath) (ctx : AppContext) (s : St) :
  path_id p = "root" \/ path_id p = "root:/:" ->
  env ctx <> "dev" ->
  del_items_id itemModel p ctx s
  = (s, inl (ErrorMethodNotAllowed "Deleting the root is not allowed"))
  /\ httpCode (ErrorMethodNotAllowed "Deleting the root is not allowed") = 405.
Proof.
  intros Hroot Henv. split; [|reflexivity].
  apply String.eqb_neq in Henv.
  unfold del_items_id, tryCatch, bind, throw.
  destruct Hroot as [-> | ->]; simpl; rewrite Henv; reflexivity.
Qed.

(** C9.  The delta route does not read the path: two requests with the
    same owner id and the same query get the same answer and leave the
    same state, whatever the ids in their paths and the rest of their
    contexts. *)
Theorem delta_ignores_path (p1 p2 : SubPath) (ctx1 ctx2 : AppContext)
  (s : St) :
  user_id (owner ctx1) = user_id (owner ctx2) ->
  query ctx1 = query ctx2 ->
  get_items_id_delta changeModel p1 ctx1 s
  = get_items_id_delta changeModel p2 ctx2 s.
Proof.
  intros Ho Hq. unfold get_items_id_delta. now rewrite Ho, Hq.
Qed.

(** C10.  In the delete route a NotFound error is caught wherever it is
    raised, by the resolution of the path, by the load of the item, by
    the absence of the item, by the delete or by the bulk delete, and the
    request succeeds; any other error comes out as it was raised, in
    particular the MethodNotAllowed error of the environment gate. *)
Theorem delete_catches_not_found (p : SubPath) (ctx : AppContext) (s : St) :
  let o := user_id (owner ctx) in
  (forall m, caught (inl (ErrorNotFound m)) = inr tt)
  /\ (forall e, instanceofErrorNotFound e = false -> caught (inl e) = inl e)
  /\ (isRoot p = true -> env ctx <> "dev" ->
      del_items_id itemModel p ctx s
      = (s, inl (ErrorMethodNotAllowed "Deleting the root is not allowed")))
  /\ (isRoot p = true -> env ctx = "dev" ->
      del_items_id itemModel p ctx s
      = (fst (deleteAll itemModel o s),
         caught (snd (deleteAll itemModel o s))))
  /\ (isRoot p = false ->
      forall e, pathToName itemModel (path_id p) = inl e ->
      del_items_id itemModel p ctx s = (s, caught (inl e)))
  /\ (isRoot p = false ->
      forall n s' e,
        pathToName itemModel (path_id p) = inr n ->
        loadByName itemModel o n s = (s', inl e) ->
        del_items_id itemModel p ctx s = (s', caught (inl e)))
  /\ (isRoot p = false ->
      forall n s',
        pathToName itemModel (path_id p) = inr n ->
        loadByName itemModel o n s = (s', inr None) ->
        del_items_id itemModel p ctx s = (s', inr tt))
  /\ (isRoot p = false ->
      forall n s' item,
        pathToName itemModel (path_id p) = inr n ->
        loadByName itemModel o n s = (s', inr (Some item)) ->
        del_items_id itemModel p ctx s
        = (fst (delete itemModel (id item) s'),
           caught (snd (delete itemModel (id item) s')))).
Proof.
  intros o. unfold isRoot.
  split; [reflexivity|].
  split; [intros e He; simpl; now rewrite He|].
  split.
  { intros Hr Henv. apply String.eqb_neq in Henv.
    unfold del_items_id, tryCatch, bind, throw.
    rewrite Hr, Henv. reflexivity. }
  split.
  { intros Hr Henv. apply String.eqb_eq in Henv.
    unfold del_items_id, tryCatch, bind, ret, throw.
    rewrite Hr, Henv. cbn [negb]. fold o.
    destruct (deleteAll itemModel o s) as [s' [e|[]]]; simpl;
      [destruct (instanceofErrorNotFound e)|]; reflexivity. }
  split.
  { intros Hr e Hn. unfold del_items_id, tryCatch, bind.
    rewrite Hr, (itemFromPath_unresolved _ _ _ _ Hn). simpl.
    destruct (instanceofErrorNotFound e); reflexivity. }
  split.
  { intros Hr n s' e Hn Hl. unfold del_items_id, tryCatch, bind.
    rewrite Hr, (itemFromPath_resolved _ _ _ _ Hn). fold o. rewrite Hl. simpl.
    destruct (instanceofErrorNotFound e); reflexivity. }
  split.
  { intros Hr n s' Hn Hl. unfold del_items_id, tryCatch, bind.
    rewrite Hr, (itemFromPath_resolved _ _ _ _ Hn). fold o. rewrite Hl.
    reflexivity. }
  { intros Hr n s' item Hn Hl. unfold del_items_id, tryCatch, bind.
    rewrite Hr, (itemFromPath_resolved _ _ _ _ Hn). fold o. rewrite Hl.
    simpl. unfold ret.
    destruct (delete itemModel (id item) s') as [s'' [e|[]]]; simpl;
      [destruct (instanceofErrorNotFound e)|]; reflexivity. }
Qed.

End RouteProperties.

(** ** Lists of consecutive numbers and pages *)

Lemma firstn_seq (k a m : nat) : firstn k (seq a m) = seq a (Nat.min k m).
Proof.
  revert a m. induction k as [|k IH]; intros a [|m]; simpl; try reflexivity.
  now rewrite IH.
Qed.

Lemma last_seq (a m : nat) : last (seq (S a) m) a = a + m.
Proof.
  destruct m as [|m].
  - simpl. lia.
  - rewrite seq_S, last_last. lia.
Qed.

Lemma filter_all {A : Type} (f : A -> bool) (l : list A) :
  (forall x, In x l -> f x = true) -> filter f l = l.
Proof.
  intros Hall. apply forallb_filter_id. apply forallb_forall. exact Hall.
Qed.

(** In a log numbered from [a + 1], the events after position [a + k] are
    the log without its first [k] events. *)
Lemma filter_after (l : list Change) (a k n : nat) :
  map sequence l = seq (S a) n ->
  filter (fun c => a + k <? sequence c) l = skipn k l.
Proof.
  revert a k n. induction l as [|c r IH]; intros a k n Hseq.
  - now destruct k.
  - destruct n as [|n]; [discriminate|].
    simpl in Hseq. injection Hseq as Hc Hr.
    destruct k as [|k].
    + apply filter_all. intros x Hx.
      apply Nat.ltb_lt. rewrite Nat.add_0_r.
      destruct Hx as [<- | Hx]; [lia|].
      apply (in_map sequence) in Hx. rewrite Hr in Hx.
      apply in_seq in Hx. lia.
    + simpl. rewrite Hc.
      replace (a + S k <? S a) with false
        by (symmetry; apply Nat.ltb_ge; lia).
      rewrite <- (IH (S a) k n Hr).
      apply filter_ext. intros x. now rewrite Nat.add_succ_r.
Qed.

Lemma page_last (l : list Change) (n pos lim : nat) :
  map sequence l = seq 1 n ->
  last (map sequence (firstn lim (skipn pos l))) pos
  = pos + length (firstn lim (skipn pos l)).
Proof.
  intros Hseq.
  rewrite <- (length_map sequence).
  rewrite <- firstn_map, <- skipn_map, Hseq, skipn_seq, firstn_seq.
  rewrite length_seq. apply last_seq.
Qed.

(** ** The change log *)

Lemma ownChanges_app (o : Uuid) (l l' : list Change) :
  ownChanges o (l ++ l') = ownChanges o l ++ ownChanges o l'.
Proof.
  apply filter_app.
Qed.

Lemma sequencedLog_nil : sequencedLog [].
Proof.
  intros o. reflexivity.
Qed.

Lemma sequencedLog_append (l : list Change) (o : Uuid) (i : ItemId)
  (n : string) (t : ChangeType) :
  sequencedLog l ->
  sequencedLog (l ++ [mkChange o i n t (S (length (ownChanges o l)))]).
Proof.
  intros Hl o'. rewrite ownChanges_app.
  unfold ownChanges at 2 4. simpl.
  destruct (String.eqb_spec o o') as [<- | Hneq].
  - rewrite map_app, length_app, Hl. simpl.
    rewrite Nat.add_1_r, seq_S. reflexivity.
  - rewrite !app_nil_r. apply Hl.
Qed.

Lemma sequencedLog_NoDup (l : list Change) (o : Uuid) :
  sequencedLog l -> NoDup (ownChanges o l).
Proof.
  intros Hl. apply (NoDup_map_inv sequence). rewrite Hl. apply seq_NoDup.
Qed.

Lemma ownChanges_In (o : Uuid) (l : list Change) (c : Change) :
  In c (ownChanges o l) <-> In c l /\ change_owner_id c = o.
Proof.
  unfold ownChanges. now rewrite filter_In, String.eqb_eq.
Qed.

(** The owner's part of a log is the owner's events of the log, in its
    order. *)
Lemma FeedOf_ownChanges (o : Uuid) (l : list Change) :
  FeedOf o l (ownChanges o l).
Proof.
  induction l as [|c r IH]; simpl; [constructor|].
  destruct (String.eqb_spec (change_owner_id c) o); now constructor.
Qed.

(** The events of an owner in a log are determined by the log. *)
Lemma FeedOf_unique (o : Uuid) (l feed : list Change) :
  FeedOf o l feed -> feed = ownChanges o l.
Proof.
  induction 1 as [|c log feed Ho _ IH|c log feed Ho _ IH]; simpl.
  - reflexivity.
  - apply String.eqb_eq in Ho. now rewrite Ho, IH.
  - apply String.eqb_neq in Ho. now rewrite Ho.
Qed.

(** One page of the change feed, on a well-numbered log. *)
Lemma storeAllForUser_page (o : Uuid) (pos lim : nat) (s : Store) :
  sequencedLog (storeChanges s) ->
  storeAllForUser o (mkPagination pos lim) s
  = (s, inr (mkPage (firstn lim (skipn pos (changesOf o s)))
               (lim <? length (changesOf o s) - pos)
               (encodeCursor
                  (mkPagination
                     (pos + length (firstn lim (skipn pos (changesOf o s))))
                     lim)))).
Proof.
  intros Hl. unfold storeAllForUser. cbn [position limit].
  pose proof (Hl o) as Ho. fold (changesOf o s) in Ho.
  pose proof (filter_after (changesOf o s) 0 pos _ Ho) as Hf.
  cbn [Nat.add] in Hf. rewrite Hf.
  rewrite (page_last _ _ pos lim Ho), length_skipn. reflexivity.
Qed.

(** ** Items, ids and keys *)

Lemma itemIdEqb_eq (a b : ItemId) : itemIdEqb a b = true <-> a = b.
Proof.
  destruct a as [o n], b as [o' n']. unfold itemIdEqb. simpl.
  rewrite andb_true_iff, String.eqb_eq, Nat.eqb_eq.
  split; [intros [-> ->]; reflexivity | intros Heq; now injection Heq].
Qed.

Lemma itemIdEqb_refl (a : ItemId) : itemIdEqb a a = true.
Proof.
  now apply itemIdEqb_eq.
Qed.

Lemma hasName_key (o : Uuid) (n : string) (i : Item) :
  hasName o n i = true <-> key i = (o, n).
Proof.
  unfold hasName, key. rewrite andb_true_iff, !String.eqb_eq.
  split; [intros [-> ->]; reflexivity | intros Heq; now injection Heq].
Qed.

(** Removing items keeps a projection of the items free of duplicates. *)
Lemma NoDup_map_filter {K : Type} (proj : Item -> K) (keep : Item -> bool)
  (its : list Item) :
  NoDup (map proj its) -> NoDup (map proj (filter keep its)).
Proof.
  intros Hnd. induction its as [|x r IH]; simpl in *; [constructor|].
  inversion Hnd as [|? ? Hx Hr]; subst.
  destruct (keep x); simpl; auto.
  constructor; auto.
  intros Hin. apply Hx. apply in_map_iff in Hin.
  destruct Hin as [y [Hy Hin]]. apply filter_In in Hin.
  apply in_map_iff. exists y. tauto.
Qed.

Lemma NoDup_map_inj {A B : Type} (f : A -> B) (l : list A) (x y : A) :
  NoDup (map f l) -> In x l -> In y l -> f x = f y -> x = y.
Proof.
  induction l as [|z r IH]; simpl; intros Hnd Hx Hy Heq; [contradiction|].
  inversion Hnd as [|? ? Hz Hr]; subst.
  destruct Hx as [-> | Hx], Hy as [-> | Hy]; auto.
  - elim Hz. rewrite Heq. now apply in_map.
  - elim Hz. rewrite <- Heq. now apply in_map.
Qed.

Lemma NoDup_snoc {A : Type} (l : list A) (x : A) :
  NoDup l -> ~ In x l -> NoDup (l ++ [x]).
Proof.
  intros Hl Hx.
  apply (Permutation_NoDup (Permutation_cons_append l x)).
  now constructor.
Qed.

(** The item found under a name is the only item of that name. *)
Lemma find_hasName_unique (o : Uuid) (n : string) (l : list Item)
  (old i : Item) :
  NoDup (map key l) ->
  find (hasName o n) l = Some old ->
  In i l -> hasName o n i = true -> i = old.
Proof.
  intros Hnd Hfind Hin Hi.
  apply find_some in Hfind. destruct Hfind as [Hold Ho].
  apply (NoDup_map_inj key l); auto.
  apply hasName_key in Hi. apply hasName_key in Ho. congruence.
Qed.

(** The item found under an id is the item of that id. *)
Lemma find_id_unique (l : list Item) (i : Item) :
  NoDup (map id l) -> In i l ->
  find (fun x => itemIdEqb (id x) (id i)) l = Some i.
Proof.
  intros Hnd Hin.
  destruct (find (fun x => itemIdEqb (id x) (id i)) l) as [j|] eqn:Hfind.
  - apply find_some in Hfind. destruct Hfind as [Hj Heq].
    apply itemIdEqb_eq in Heq.
    f_equal. now apply (NoDup_map_inj id l).
  - apply (find_none _ _ Hfind) in Hin.
    now rewrite itemIdEqb_refl in Hin.
Qed.

Lemma nextItemNumber_appendChange (o' o : Uuid) (i : Item) (t : ChangeType)
  (its : list Item) (s : Store) :
  nextItemNumber o' (appendChange o i t (mkStore its (storeChanges s)))
  = nextItemNumber o' s
    + (if String.eqb o o' && isCreate t then 1 else 0).
Proof.
  unfold nextItemNumber, changesOf, appendChange. cbn [storeChanges].
  rewrite ownChanges_app, filter_app, length_app.
  unfold ownChanges at 2. simpl.
  destruct (String.eqb o o'); simpl; [destruct (isCreate t); simpl|]; lia.
Qed.

(** ** The operations keep the store well formed *)

Lemma wf_emptyStore : wf emptyStore.
Proof.
  split; simpl.
  - apply sequencedLog_nil.
  - constructor.
  - constructor.
  - contradiction.
Qed.

Lemma wf_save (o : Uuid) (n : string) (b : Buffer) (s : Store) :
  wf s -> wf (fst (storeSaveFromRawContent o n b s)).
Proof.
  intros [Hseq Hids Hkeys Hnum]. unfold storeSaveFromRawContent.
  destruct (find (hasName o n) (storeItems s)) as [old|] eqn:Hfind;
    cbn [fst].
  - pose proof (find_some _ _ Hfind) as [Hold Ho].
    assert (Hsame : forall i, In i (storeItems s) ->
              hasName o n i = true -> i = old)
      by (intros i; now apply find_hasName_unique).
    assert (Hkey : key old = (o, n)) by now apply hasName_key.
    split; cbn [appendChange storeItems storeChanges].
    + now apply sequencedLog_append.
    + erewrite map_map, map_ext_in; [rewrite <- map_map, map_id; exact Hids|].
      intros i Hi. simpl.
      destruct (hasName o n i) eqn:Hn; [|reflexivity].
      now rewrite (Hsame i Hi Hn).
    + erewrite map_map, map_ext_in; [rewrite <- map_map, map_id; exact Hkeys|].
      intros i Hi. simpl.
      destruct (hasName o n i) eqn:Hn; [|reflexivity].
      rewrite (Hsame i Hi Hn), Hkey.
      unfold key, owner_id in *. simpl.
      injection Hkey as Hko _. now rewrite Hko.
    + intros i Hi. apply in_map_iff in Hi. destruct Hi as [j [<- Hj]].
      rewrite nextItemNumber_appendChange, andb_false_r, Nat.add_0_r.
      destruct (hasName o n j) eqn:Hn.
      * apply (Hnum old Hold).
      * apply (Hnum j Hj).
  - split; cbn [appendChange storeItems storeChanges].
    + now apply sequencedLog_append.
    + rewrite map_app. apply NoDup_snoc; [assumption|]. simpl.
      intros Hin. apply in_map_iff in Hin. destruct Hin as [i [Hid Hi]].
      specialize (Hnum i Hi). unfold owner_id in Hnum.
      rewrite Hid in Hnum. simpl in Hnum. lia.
    + rewrite map_app. apply NoDup_snoc; [assumption|]. simpl.
      intros Hin. apply in_map_iff in Hin. destruct Hin as [i [Hk Hi]].
      apply (find_none _ _ Hfind) in Hi.
      change (key i = (o, n)) in Hk.
      apply hasName_key in Hk. congruence.
    + intros i Hi. rewrite nextItemNumber_appendChange.
      apply in_app_or in Hi. destruct Hi as [Hi | [<- | []]].
      * specialize (Hnum i Hi).
        destruct (String.eqb o (owner_id i) && isCreate Create); lia.
      * unfold owner_id. cbn [id fst snd andb isCreate].
        rewrite String.eqb_refl. cbn [andb]. lia.
Qed.

Lemma wf_removeItem (i : ItemId) (s : Store) : wf s -> wf (removeItem i s).
Proof.
  intros [Hseq Hids Hkeys Hnum]. unfold removeItem.
  destruct (find _ (storeItems s)) as [old|]; [|now split].
  split; cbn [appendChange storeItems storeChanges].
  - now apply sequencedLog_append.
  - now apply NoDup_map_filter.
  - now apply NoDup_map_filter.
  - intros j Hj. apply filter_In in Hj. destruct Hj as [Hj _].
    rewrite nextItemNumber_appendChange, andb_false_r, Nat.add_0_r.
    apply (Hnum j Hj).
Qed.

Lemma fold_removeItem_preserves (P : Store -> Prop) (l : list Item)
  (s : Store) :
  (forall i s', P s' -> P (removeItem i s')) ->
  P s -> P (fold_left (fun acc i => removeItem (id i) acc) l s).
Proof.
  intros Hstep. revert s.
  induction l as [|i r IH]; simpl; intros s Hs; auto.
Qed.

Lemma wf_deleteAll (o : Uuid) (s : Store) :
  wf s -> wf (fst (storeDeleteAll o s)).
Proof.
  intros Hs. unfold storeDeleteAll. cbn [fst].
  apply fold_removeItem_preserves; [apply wf_removeItem | assumption].
Qed.

(** ** Requests against the store *)

Section StoreRoutes.

Context `{Config}.
Context {ApiOutput : Type}.
Variable resolve : string -> Result string.
Variable render : Item -> ApiOutput.

Let im := storeItemModel resolve render.
Let cm := storeChangeModel.

(** The delete route on the store, case by case. *)
Lemma del_items_id_store (p : SubPath) (ctx : AppContext) (s : Store) :
  del_items_id im p ctx s
  = if isRoot p then
      if negb (String.eqb (env ctx) "dev")
      then (s, inl (ErrorMethodNotAllowed "Deleting the root is not allowed"))
      else (fst (storeDeleteAll (user_id (owner ctx)) s), inr tt)
    else
      match resolve (path_id p) with
      | inl e => (s, caught (inl e))
      | inr n =>
          match find (hasName (user_id (owner ctx)) n) (storeItems s) with
          | Some item => (removeItem (id item) s, inr tt)
          | None => (s, inr tt)
          end
      end.
Proof.
  unfold del_items_id, tryCatch, bind, isRoot.
  destruct (_ || _).
  - destruct (negb _); reflexivity.
  - unfold itemFromPath, bind, lift. simpl.
    destruct (resolve (path_id p)) as [e|n]; simpl.
    + destruct (instanceofErrorNotFound e); reflexivity.
    + destruct (find _ (storeItems s)); reflexivity.
Qed.

(** The put route on the store: the path is resolved, the form parsed and
    the file read, in this order, before the save. *)
Lemma put_items_id_content_store (p : SubPath) (ctx : AppContext)
  (s : Store) :
  put_items_id_content im p ctx s
  = match resolve (path_id p) with
    | inl e => (s, inl e)
    | inr n =>
        match formParse (req ctx) with
        | inl e => (s, inl e)
        | inr parsedBody =>
            match match parsedBody with
                  | Some file => readFile file
                  | None => inr []
                  end
            with
            | inl e => (s, inl e)
            | inr buffer =>
                match storeSaveFromRawContent (user_id (owner ctx)) n buffer s
                with
                | (s', inr item) => (s', inr (render item))
                | (s', inl e) => (s', inl e)
                end
            end
        end
    end.
Proof.
  unfold put_items_id_content, bind, lift, ret. simpl.
  destruct (resolve (path_id p)); [reflexivity|].
  destruct (formParse (req ctx)) as [e|[[[e|b]]|]]; reflexivity.
Qed.

(** The routes that read do not write. *)
Lemma get_items_id_state (p : SubPath) (ctx : AppContext) (s : Store) :
  fst (get_items_id im p ctx s) = s.
Proof.
  unfold get_items_id, itemFromPath, bind, lift. simpl.
  destruct (resolve (path_id p)); simpl; [reflexivity|].
  destruct (find _ (storeItems s)); reflexivity.
Qed.

Lemma get_items_id_content_state (p : SubPath) (ctx : AppContext)
  (s : Store) :
  fst (get_items_id_content im p ctx s) = s.
Proof.
  unfold get_items_id_content, itemFromPath, bind, lift. simpl.
  destruct (resolve (path_id p)); simpl; [reflexivity|].
  destruct (find _ (storeItems s)); simpl; [|reflexivity].
  unfold storeSerializedContent.
  destruct (find _ (storeItems s)); reflexivity.
Qed.

Lemma get_items_id_delta_state (p : SubPath) (ctx : AppContext) (s : Store) :
  fst (get_items_id_delta cm p ctx s) = s.
Proof.
  unfold get_items_id_delta, bind, lift.
  destruct (requestChangePagination (query ctx)); reflexivity.
Qed.

Lemma get_items_id_children_state (p : SubPath) (ctx : AppContext)
  (s : Store) :
  fst (get_items_id_children im p ctx s) = s.
Proof.
  unfold get_items_id_children, bind, lift. simpl.
  destruct (resolve (path_id p)); simpl; [reflexivity|].
  destruct (requestPagination (query ctx)); reflexivity.
Qed.

Lemma fst_fmap {A B : Type} (f : A -> B) (m : M Store A) (s : Store) :
  fst (fmap f m s) = fst (m s).
Proof.
  unfold fmap, bind, ret. destruct (m s) as [s' [e|a]]; reflexivity.
Qed.

(** A relation between the states before and after that holds across the
    writes of the store on behalf of an owner holds across every request
    of that owner. *)
Lemma dispatch_step (R : Store -> Store -> Prop) (o : Uuid) :
  (forall s, R s s) ->
  (forall n b s, R s (fst (storeSaveFromRawContent o n b s))) ->
  (forall i s, fst i = o -> R s (removeItem i s)) ->
  (forall s, R s (fst (storeDeleteAll o s))) ->
  forall r s,
    user_id (owner (context r)) = o -> R s (fst (dispatch im cm r s)).
Proof.
  intros Hrefl Hsave Hremove Hall [rt p ctx] s Ho.
  unfold dispatch. cbn [route path context] in *. subst o.
  destruct rt; rewrite fst_fmap.
  - rewrite get_items_id_state. apply Hrefl.
  - rewrite del_items_id_store.
    destruct (isRoot p).
    + destruct (negb _); [apply Hrefl | apply Hall].
    + destruct (resolve (path_id p)); [apply Hrefl|].
      destruct (find _ (storeItems s)) as [item|] eqn:Hfind;
        [|apply Hrefl].
      apply Hremove. apply find_some in Hfind. destruct Hfind as [_ Hn].
      apply andb_true_iff in Hn. destruct Hn as [Hn _].
      now apply String.eqb_eq in Hn.
  - rewrite get_items_id_content_state. apply Hrefl.
  - rewrite put_items_id_content_store.
    destruct (resolve (path_id p)) as [e|n]; [apply Hrefl|].
    destruct (formParse (req ctx)) as [e|parsedBody]; [apply Hrefl|].
    destruct (match parsedBody with
              | Some file => readFile file
              | None => inr []
              end) as [e|buffer]; [apply Hrefl|].
    specialize (Hsave n buffer s).
    destruct (storeSaveFromRawContent _ _ _ s) as [s' [e|item]]; exact Hsave.
  - rewrite get_items_id_delta_state. apply Hrefl.
  - rewrite get_items_id_children_state. apply Hrefl.
Qed.

Lemma wf_dispatch (r : Request) (s : Store) :
  wf s -> wf (fst (dispatch im cm r s)).
Proof.
  refine (dispatch_step (fun s s' => wf s -> wf s')
            (user_id (owner (context r))) _ _ _ _ r s eq_refl); auto.
  - intros; now apply wf_save.
  - intros; now apply wf_removeItem.
  - intros; now apply wf_deleteAll.
Qed.

Lemma wf_runRequests (history : list Request) (s : Store) :
  wf s -> wf (runRequests im cm history s).
Proof.
  revert s. induction history as [|r h IH]; simpl; intros s Hs; auto.
  apply IH. now apply wf_dispatch.
Qed.

(** The log is only ever appended to. *)
Lemma extends_dispatch (r : Request) (s : Store) :
  exists l, storeChanges (fst (dispatch im cm r s)) = storeChanges s ++ l.
Proof.
  refine (dispatch_step
            (fun s s' => exists l, storeChanges s' = storeChanges s ++ l)
            (user_id (owner (context r))) _ _ _ _ r s eq_refl); clear s.
  - intros s. exists []. now rewrite app_nil_r.
  - intros n b s. unfold storeSaveFromRawContent.
    destruct (find _ (storeItems s)); simpl; eexists; reflexivity.
  - intros i s _. unfold removeItem.
    destruct (find _ (storeItems s)); simpl;
      [eexists; reflexivity | exists []; now rewrite app_nil_r].
  - intros s. unfold storeDeleteAll. cbn [fst].
    apply (fold_removeItem_preserves
             (fun s' => exists l, storeChanges s' = storeChanges s ++ l)).
    + intros i s' [l Hl]. unfold removeItem.
      destruct (find _ (storeItems s')); simpl;
        [|now exists l].
      rewrite Hl, <- app_assoc. eexists; reflexivity.
    + exists []. now rewrite app_nil_r.
Qed.

Lemma extends_runRequests (history : list Request) (s : Store) :
  exists l,
    storeChanges (runRequests im cm history s) = storeChanges s ++ l.
Proof.
  revert s. induction history as [|r h IH]; simpl; intros s.
  - exists []. now rewrite app_nil_r.
  - destruct (extends_dispatch r s) as [l1 H1].
    destruct (IH (fst (dispatch im cm r s))) as [l2 H2].
    exists (l1 ++ l2). now rewrite H2, H1, app_assoc.
Qed.

End StoreRoutes.

(** ** The change feed *)

Lemma clampLimit_valid `{Config} (pos n : nat) :
  1 <= maxPageSize -> validPagination (mkPagination pos (clampLimit n)) = true.
Proof.
  intros Hmax. apply validPagination_iff. unfold clampLimit. lia.
Qed.

Lemma requestPagination_start `{Config} (q : Query) :
  1 <= maxPageSize ->
  cursor q = None ->
  exists lim,
    requestPagination q = inr (mkPagination 0 lim)
    /\ validPagination (mkPagination 0 lim) = true.
Proof.
  intros Hmax Hq. unfold requestPagination. rewrite Hq.
  eexists. split; [reflexivity|]. now apply clampLimit_valid.
Qed.

Lemma requestPagination_withCursor `{Config} (ctx : AppContext)
  (c : Pagination) :
  validPagination c = true ->
  requestPagination (query (withCursor ctx (encodeCursor c))) = inr c.
Proof.
  intros Hv. unfold requestPagination, withCursor. simpl.
  now apply decode_encode.
Qed.

(** The limit of a cursor that a request is read with is within the
    range. *)
Lemma requestPagination_valid `{Config} (q : Query) (c : Pagination) :
  1 <= maxPageSize ->
  requestPagination q = inr c ->
  forall pos, validPagination (mkPagination pos (limit c)) = true.
Proof.
  intros Hmax Hq. unfold requestPagination in Hq.
  assert (Hv : validPagination c = true).
  { destruct (cursor q) as [token|].
    - now apply decode_inr in Hq.
    - injection Hq as <-. now apply clampLimit_valid. }
  destruct c as [p l]. unfold validPagination in *. cbn [limit] in *.
  intros pos. exact Hv.
Qed.

Lemma requestChangePagination_start `{Config} (q : Query) :
  1 <= maxPageSize ->
  cursor q = None ->
  exists lim,
    requestChangePagination q = inr (mkPagination 0 lim)
    /\ validPagination (mkPagination 0 lim) = true.
Proof.
  intros Hmax Hq. unfold requestChangePagination. rewrite Hq.
  eexists. split; [reflexivity|]. now apply clampLimit_valid.
Qed.

Lemma requestChangePagination_withCursor `{Config} (ctx : AppContext)
  (c : Pagination) :
  validPagination c = true ->
  requestChangePagination (query (withCursor ctx (encodeCursor c))) = inr c.
Proof.
  intros Hv. unfold requestChangePagination, withCursor. simpl.
  now apply decode_encode.
Qed.

Lemma runRequests_app {St ApiOutput : Type} `{Config}
  (im : ItemModel St ApiOutput) (cm : ChangeModel St)
  (history more : list Request) (s : St) :
  runRequests im cm (history ++ more) s
  = runRequests im cm more (runRequests im cm history s).
Proof.
  apply fold_left_app.
Qed.

Section Feed.

Context `{Config}.
Context {ApiOutput : Type}.
Variable resolve : string -> Result string.
Variable render : Item -> ApiOutput.

Let im := storeItemModel resolve render.
Let cm := storeChangeModel.

Lemma get_items_id_delta_page (p : SubPath) (ctx : AppContext) (s : Store)
  (pos lim : nat) :
  sequencedLog (storeChanges s) ->
  requestChangePagination (query ctx) = inr (mkPagination pos lim) ->
  let o := user_id (owner ctx) in
  get_items_id_delta cm p ctx s
  = (s, inr (mkPage (firstn lim (skipn pos (changesOf o s)))
               (lim <? length (changesOf o s) - pos)
               (encodeCursor
                  (mkPagination
                     (pos + length (firstn lim (skipn pos (changesOf o s))))
                     lim)))).
Proof.
  intros Hs Hq o. unfold get_items_id_delta, bind, lift. rewrite Hq.
  simpl. now apply storeAllForUser_page.
Qed.

(** From any position the client collects the rest of the owner's log. *)
Lemma replayDelta_from (p : SubPath) (s : Store) (lim fuel : nat) :
  sequencedLog (storeChanges s) ->
  1 <= lim <= maxPageSize ->
  forall (pos : nat) (ctx : AppContext),
    requestChangePagination (query ctx) = inr (mkPagination pos lim) ->
    length (changesOf (user_id (owner ctx)) s) - pos < fuel ->
    replayDelta cm fuel p ctx s
    = Some (skipn pos (changesOf (user_id (owner ctx)) s)).
Proof.
  intros Hs Hlim.
  induction fuel as [|fuel IH]; intros pos ctx Hq Hfuel; [lia|].
  cbn [replayDelta].
  rewrite (get_items_id_delta_page p ctx s pos lim Hs Hq).
  cbn [has_more items nextCursor].
  set (log := changesOf (user_id (owner ctx)) s) in *.
  assert (Hlen : length (skipn pos log) = length log - pos)
    by apply length_skipn.
  destruct (lim <? length log - pos) eqn:Hmore.
  - apply Nat.ltb_lt in Hmore.
    rewrite length_firstn, Hlen, Nat.min_l by lia.
    rewrite (IH (pos + lim) (withCursor ctx _)).
    + simpl. fold log.
      rewrite (Nat.add_comm pos lim), <- skipn_skipn, firstn_skipn.
      reflexivity.
    + apply requestChangePagination_withCursor.
      now apply validPagination_iff.
    + simpl. fold log. lia.
  - apply Nat.ltb_ge in Hmore.
    rewrite firstn_all2 by lia. reflexivity.
Qed.

End Feed.

(** ** Ordering by name *)

Lemma insertByName_perm (i : Item) (l : list Item) :
  Permutation (i :: l) (insertByName i l).
Proof.
  induction l as [|j r IH]; simpl; [reflexivity|].
  destruct (String.leb (name i) (name j)); [reflexivity|].
  rewrite perm_swap. now constructor.
Qed.

Lemma sortByName_perm (l : list Item) : Permutation l (sortByName l).
Proof.
  induction l as [|i r IH]; simpl; [constructor|].
  rewrite <- insertByName_perm. now constructor.
Qed.

Lemma insertByName_sorted (i : Item) (l : list Item) :
  Sorted byName l -> Sorted byName (insertByName i l).
Proof.
  induction l as [|j r IH]; simpl; intros Hs.
  - repeat constructor.
  - inversion Hs as [|? ? Hr Hhd]; subst.
    destruct (String.leb (name i) (name j)) eqn:Hle.
    + constructor; [assumption|]. now constructor.
    + constructor; [now apply IH|].
      assert (Hji : byName j i).
      { unfold byName.
        destruct (String.leb_total (name i) (name j)); congruence. }
      destruct r as [|k r']; simpl; [now constructor|].
      destruct (String.leb (name i) (name k)); constructor; auto.
      now inversion Hhd.
Qed.

Lemma sortByName_sorted (l : list Item) : Sorted byName (sortByName l).
Proof.
  induction l as [|i r IH]; simpl; [constructor|].
  now apply insertByName_sorted.
Qed.

Lemma leb_iff (a b : string) :
  String.leb a b = true <-> a = b \/ OrderedTypeEx.String_as_OT.lt a b.
Proof.
  unfold String.leb.
  pose proof (OrderedTypeEx.String_as_OT.cmp_eq a b) as Heq.
  pose proof (OrderedTypeEx.String_as_OT.cmp_lt a b) as Hlt.
  unfold OrderedTypeEx.String_as_OT.cmp in *.
  destruct (String.compare a b) eqn:Hc.
  - split; [intros _; left; now apply Heq | reflexivity].
  - split; [intros _; right; now apply Hlt | reflexivity].
  - split; [discriminate|].
    intros [Hab | Hab]; [apply Heq in Hab | apply Hlt in Hab]; discriminate.
Qed.

Lemma byName_trans (a b c : Item) : byName a b -> byName b c -> byName a c.
Proof.
  unfold byName. rewrite !leb_iff.
  intros [-> | Hab] [<- | Hbc]; auto.
  right. exact (OrderedTypeEx.String_as_OT.lt_trans _ _ _ Hab Hbc).
Qed.

(** In the sorted list every item comes before all the items after it. *)
Lemma sortByName_strongly_sorted (l : list Item) :
  StronglySorted byName (sortByName l).
Proof.
  apply Sorted_StronglySorted; [|apply sortByName_sorted].
  intros a b c. apply byName_trans.
Qed.

(** ** Direct descendants *)

Lemma prefix_split (pre n : string) :
  prefix pre n = true ->
  n = (pre ++ substring (String.length pre)
                        (String.length n - String.length pre) n)%string.
Proof.
  revert n. induction pre as [|c pre IH]; intros n Hp.
  - simpl. rewrite Nat.sub_0_r.
    clear Hp. induction n as [|d n IHn]; simpl; [reflexivity|].
    now rewrite <- IHn.
  - destruct n as [|d n]; [discriminate|]. simpl in Hp.
    destruct (Ascii.ascii_dec c d) as [<- | Hneq]; [|discriminate].
    simpl. now rewrite <- (IH n Hp).
Qed.

Lemma prefix_append (pre rest : string) :
  prefix pre (pre ++ rest)%string = true.
Proof.
  induction pre as [|c pre IH]; simpl.
  - now destruct rest.
  - destruct (Ascii.ascii_dec c c); [assumption | congruence].
Qed.

Lemma substring_append (pre rest : string) :
  substring (String.length pre)
            (String.length (pre ++ rest)%string - String.length pre)
            (pre ++ rest)%string
  = rest.
Proof.
  induction pre as [|c pre IH]; simpl.
  - rewrite Nat.sub_0_r. induction rest as [|d r IHr]; simpl; [reflexivity|].
    now rewrite IHr.
  - exact IH.
Qed.

(** A direct descendant is the prefix of the parent followed by one more
    segment, not empty and without a slash. *)
Lemma isDirectChild_iff (parentName n : string) :
  isDirectChild parentName n = true
  <-> exists segment,
        n = (childPrefix parentName ++ segment)%string
        /\ segment <> "" /\ hasSlash segment = false.
Proof.
  unfold isDirectChild. split.
  - intros Hc.
    apply andb_true_iff in Hc. destruct Hc as [Hc Hslash].
    apply andb_true_iff in Hc. destruct Hc as [Hpre Hne].
    eexists. split; [apply (prefix_split _ _ Hpre)|]. split.
    + apply negb_true_iff in Hne. now apply String.eqb_neq.
    + now apply negb_true_iff.
  - intros [segment [-> [Hne Hslash]]].
    rewrite prefix_append, substring_append, Hslash.
    apply String.eqb_neq in Hne. now rewrite Hne.
Qed.

Lemma hasSlash_characters (s : string) :
  hasSlash s = false <-> ~ In "/"%char (characters s).
Proof.
  induction s as [|c r IH]; simpl.
  - tauto.
  - rewrite orb_false_iff, IH, Ascii.eqb_neq. tauto.
Qed.

(** The test of the listing is the direct descent of the specification. *)
Lemma isDirectChild_descendant (parentName n : string) :
  isDirectChild parentName n = true <-> DirectDescendant parentName n.
Proof.
  rewrite isDirectChild_iff. unfold DirectDescendant, Segment, childPrefix.
  destruct (String.eqb_spec parentName "") as [-> | Hp].
  - split.
    + intros [segment [Hn [Hne Hs]]]. exists segment.
      apply hasSlash_characters in Hs. simpl in Hn. tauto.
    + intros [segment [[Hne Hs] [[_ Hn] | [Hp _]]]]; [|now elim Hp].
      exists segment. apply hasSlash_characters in Hs. simpl. tauto.
  - split.
    + intros [segment [Hn [Hne Hs]]]. exists segment.
      apply hasSlash_characters in Hs.
      rewrite append_associative in Hn. tauto.
    + intros [segment [[Hne Hs] [[Hp' _] | [_ Hn]]]]; [now elim Hp|].
      exists segment. apply hasSlash_characters in Hs.
      rewrite append_associative. tauto.
Qed.

(** The items are those a test keeps and those it does not. *)
Lemma items_partition (keep : Item -> bool) (its : list Item) :
  Permutation its
    (filter keep its ++ filter (fun i => negb (keep i)) its).
Proof.
  induction its as [|x r IH]; simpl; [constructor|].
  destruct (keep x); simpl.
  - now constructor.
  - now apply Permutation_cons_app.
Qed.

Lemma filter_owned_children (o : Uuid) (parentName : string)
  (its : list Item) :
  filter (fun i => isDirectChild parentName (name i)) (filter (ownedBy o) its)
  = filter (fun i => ownedBy o i && isDirectChild parentName (name i)) its.
Proof.
  induction its as [|x r IH]; simpl; [reflexivity|].
  destruct (ownedBy o x); simpl; [|exact IH].
  destruct (isDirectChild parentName (name x)); now rewrite IH.
Qed.

(** ** The children listing *)

Section Children.

Context `{Config}.
Context {ApiOutput : Type}.
Variable resolve : string -> Result string.
Variable render : Item -> ApiOutput.

Let im := storeItemModel resolve render.

Lemma get_items_id_children_page (p : SubPath) (ctx : AppContext)
  (s : Store) (parentName : string) (pos lim : nat) :
  resolve (path_id p) = inr parentName ->
  requestPagination (query ctx) = inr (mkPagination pos lim) ->
  let all := childrenOf (user_id (owner ctx)) parentName s in
  get_items_id_children im p ctx s
  = (s, inr (mkPage (firstn lim (skipn pos all))
               (pos + lim <? length all)
               (encodeCursor
                  (mkPagination (pos + length (firstn lim (skipn pos all)))
                                lim)))).
Proof.
  intros Hn Hq all. unfold get_items_id_children, bind, lift. simpl.
  rewrite Hn, Hq. reflexivity.
Qed.

Lemma replayChildren_from (p : SubPath) (s : Store) (parentName : string)
  (lim fuel : nat) :
  resolve (path_id p) = inr parentName ->
  1 <= lim <= maxPageSize ->
  forall (pos : nat) (ctx : AppContext),
    requestPagination (query ctx) = inr (mkPagination pos lim) ->
    length (childrenOf (user_id (owner ctx)) parentName s) - pos < fuel ->
    replayChildren im fuel p ctx s
    = Some (skipn pos (childrenOf (user_id (owner ctx)) parentName s)).
Proof.
  intros Hn Hlim.
  induction fuel as [|fuel IH]; intros pos ctx Hq Hfuel; [lia|].
  cbn [replayChildren].
  rewrite (get_items_id_children_page p ctx s parentName pos lim Hn Hq).
  cbn [has_more items nextCursor].
  set (all := childrenOf (user_id (owner ctx)) parentName s) in *.
  assert (Hlen : length (skipn pos all) = length all - pos)
    by apply length_skipn.
  destruct (pos + lim <? length all) eqn:Hmore.
  - apply Nat.ltb_lt in Hmore.
    rewrite length_firstn, Hlen, Nat.min_l by lia.
    rewrite (IH (pos + lim) (withCursor ctx _)).
    + simpl. fold all.
      rewrite (Nat.add_comm pos lim), <- skipn_skipn, firstn_skipn.
      reflexivity.
    + apply requestPagination_withCursor.
      now apply validPagination_iff.
    + simpl. fold all. lia.
  - apply Nat.ltb_ge in Hmore.
    rewrite firstn_all2 by lia. reflexivity.
Qed.

Lemma childrenOf_In (o : Uuid) (parentName : string) (s : Store)
  (i : Item) :
  In i (childrenOf o parentName s)
  <-> In i (storeItems s) /\ owner_id i = o
      /\ isDirectChild parentName (name i) = true.
Proof.
  unfold childrenOf, itemsOf.
  split.
  - intros Hin.
    apply (Permutation_in _ (Permutation_sym (sortByName_perm _))) in Hin.
    apply filter_In in Hin. destruct Hin as [Hin Hc].
    apply filter_In in Hin. destruct Hin as [Hin Ho].
    apply String.eqb_eq in Ho. tauto.
  - intros [Hin [Ho Hc]].
    apply (Permutation_in _ (sortByName_perm _)).
    apply filter_In. split; [|assumption].
    apply filter_In. split; [assumption|]. now apply String.eqb_eq.
Qed.

(** C7.  The children listing lists the items of the owner whose name is a
    direct descendant of the resolved parent name, each once and no other
    item, in the order of their names: a page is the slice of that list at
    the position and of the length of the cursor, and a client that follows
    the cursors from the start collects the list.  The listing reads its
    cursor as the change feed does: the two pagination helpers give the
    same answer to every query, and both decode a token with the one
    decoder. *)
Theorem children_listing (p : SubPath) (ctx : AppContext) (s : Store)
  (parentName : string) (fuel : nat) :
  1 <= maxPageSize ->
  resolve (path_id p) = inr parentName ->
  let o := user_id (owner ctx) in
  exists all rest,
    Permutation (storeItems s) (all ++ rest)
    /\ (forall i,
          In i all ->
          owner_id i = o /\ DirectDescendant parentName (name i))
    /\ (forall i,
          In i rest ->
          ~ (owner_id i = o /\ DirectDescendant parentName (name i)))
    /\ StronglySorted byName all
    /\ (forall pos lim,
          requestPagination (query ctx) = inr (mkPagination pos lim) ->
          get_items_id_children im p ctx s
          = (s, inr (mkPage (firstn lim (skipn pos all))
                       (pos + lim <? length all)
                       (encodeCursor
                          (mkPagination
                             (pos + length (firstn lim (skipn pos all)))
                             lim)))))
    /\ (cursor (query ctx) = None -> length (storeItems s) < fuel ->
        replayChildren im fuel p ctx s = Some all)
    /\ (forall q, requestPagination q = requestChangePagination q)
    /\ (forall token hint,
          requestPagination (mkQuery (Some token) hint) = decodeCursor token
          /\ requestChangePagination (mkQuery (Some token) hint)
             = decodeCursor token)
    /\ (forall pos lim s' page,
          requestPagination (query ctx) = inr (mkPagination pos lim) ->
          get_items_id_children im p ctx s = (s', inr page) ->
          requestChangePagination (query (withCursor ctx (nextCursor page)))
          = inr (mkPagination (pos + length (items page)) lim)).
Proof.
  intros Hmax Hn o.
  set (listed := fun i : Item =>
                   ownedBy o i && isDirectChild parentName (name i)).
  assert (Hlisted : forall i,
             listed i = true
             <-> owner_id i = o /\ DirectDescendant parentName (name i)).
  { intros i. unfold listed, ownedBy.
    now rewrite andb_true_iff, String.eqb_eq, isDirectChild_descendant. }
  assert (Hall : Permutation (filter listed (storeItems s))
                             (childrenOf o parentName s)).
  { unfold childrenOf, itemsOf. rewrite <- sortByName_perm.
    now rewrite filter_owned_children. }
  assert (Hperm : Permutation (storeItems s)
                    (childrenOf o parentName s
                     ++ filter (fun i => negb (listed i)) (storeItems s))).
  { rewrite <- Hall. apply items_partition. }
  exists (childrenOf o parentName s),
         (filter (fun i => negb (listed i)) (storeItems s)).
  splits.
  - exact Hperm.
  - intros i Hi. apply Hlisted.
    apply (Permutation_in _ (Permutation_sym Hall)) in Hi.
    now apply filter_In in Hi.
  - intros i Hi Hd. apply filter_In in Hi. destruct Hi as [_ Hi].
    apply Hlisted in Hd. now rewrite Hd in Hi.
  - apply sortByName_strongly_sorted.
  - intros pos lim Hq.
    exact (get_items_id_children_page p ctx s parentName pos lim Hn Hq).
  - intros Hq Hfuel.
    destruct (requestPagination_start (query ctx) Hmax Hq) as [lim [Hp Hv]].
    apply validPagination_iff in Hv.
    rewrite (replayChildren_from p s parentName lim fuel Hn Hv 0 ctx Hp);
      [reflexivity|].
    apply Permutation_length in Hperm. rewrite length_app in Hperm.
    fold o. lia.
  - intros q. unfold requestPagination, requestChangePagination.
    destruct (cursor q); reflexivity.
  - intros token hint. split; reflexivity.
  - intros pos lim s' page Hq Hpage.
    rewrite (get_items_id_children_page p ctx s parentName pos lim Hn Hq)
      in Hpage.
    injection Hpage as _ <-. cbn [nextCursor items].
    apply requestChangePagination_withCursor.
    exact (requestPagination_valid (query ctx) _ Hmax Hq _).
Qed.

End Children.

(** ** Items by name *)

Lemma find_hasName_None (o : Uuid) (n : string) (s : Store) :
  find (hasName o n) (storeItems s) = None <-> ~ itemExists o n s.
Proof.
  split.
  - intros Hfind [i [Hin [Ho Hn]]].
    apply (find_none _ _ Hfind) in Hin.
    unfold hasName in Hin. subst. now rewrite !String.eqb_refl in Hin.
  - intros Hno.
    destruct (find (hasName o n) (storeItems s)) as [i|] eqn:Hfind;
      [|reflexivity].
    apply find_some in Hfind. destruct Hfind as [Hin Hi].
    apply andb_true_iff in Hi. rewrite !String.eqb_eq in Hi.
    elim Hno. exists i. tauto.
Qed.

Lemma find_hasName_Some (o : Uuid) (n : string) (s : Store) (i : Item) :
  wf s -> In i (storeItems s) -> owner_id i = o -> name i = n ->
  find (hasName o n) (storeItems s) = Some i.
Proof.
  intros Hwf Hin Ho Hn.
  destruct (find (hasName o n) (storeItems s)) as [j|] eqn:Hfind.
  - f_equal. symmetry.
    apply (find_hasName_unique o n (storeItems s)); auto.
    + apply Hwf.
    + unfold hasName. subst. now rewrite !String.eqb_refl.
  - apply find_hasName_None in Hfind. elim Hfind. exists i. tauto.
Qed.

Section ItemRoutes.

Context `{Config}.
Context {ApiOutput : Type}.
Variable resolve : string -> Result string.
Variable render : Item -> ApiOutput.

Let im := storeItemModel resolve render.
Let cm := storeChangeModel.

(** C3.  A DELETE of an id other than the root ids, whose path resolves to
    a name under which the owner has no item, succeeds and leaves the
    store as it was, with no change appended; repeated, it does the same
    again. *)
Theorem delete_absent_is_noop (p : SubPath) (ctx : AppContext) (s : Store)
  (n : string) :
  path_id p <> "root" -> path_id p <> "root:/:" ->
  resolve (path_id p) = inr n ->
  ~ itemExists (user_id (owner ctx)) n s ->
  del_items_id im p ctx s = (s, inr tt)
  /\ del_items_id im p ctx (fst (del_items_id im p ctx s)) = (s, inr tt)
  /\ storeChanges (fst (del_items_id im p ctx s)) = storeChanges s
  /\ storeItems (fst (del_items_id im p ctx s)) = storeItems s.
Proof.
  intros Hr1 Hr2 Hn Hno.
  apply find_hasName_None in Hno.
  assert (Hdel : del_items_id im p ctx s = (s, inr tt)).
  { unfold im. rewrite del_items_id_store. unfold isRoot.
    apply String.eqb_neq in Hr1, Hr2. rewrite Hr1, Hr2. simpl.
    now rewrite Hn, Hno. }
  rewrite Hdel. simpl. now rewrite Hdel.
Qed.

Lemma get_items_id_store (p : SubPath) (ctx : AppContext) (s : Store)
  (n : string) :
  resolve (path_id p) = inr n ->
  get_items_id im p ctx s
  = match find (hasName (user_id (owner ctx)) n) (storeItems s) with
    | Some item => (s, inr (render item))
    | None => (s, inl (ErrorNotFound ("Not found: " ++ path_id p)))
    end.
Proof.
  intros Hn. unfold get_items_id, itemFromPath, bind, lift. simpl.
  rewrite Hn. destruct (find _ (storeItems s)); reflexivity.
Qed.

Lemma get_items_id_content_store (p : SubPath) (ctx : AppContext)
  (s : Store) (n : string) :
  resolve (path_id p) = inr n ->
  get_items_id_content im p ctx s
  = match find (hasName (user_id (owner ctx)) n) (storeItems s) with
    | Some item =>
        match find (fun x => itemIdEqb (id x) (id item)) (storeItems s) with
        | Some stored =>
            (s, inr (respondWithItemContent item (content stored)))
        | None => (s, inl (ErrorNotFound "Not found"))
        end
    | None => (s, inl (ErrorNotFound ("Not found: " ++ path_id p)))
    end.
Proof.
  intros Hn. unfold get_items_id_content, itemFromPath, bind, lift. simpl.
  rewrite Hn. destruct (find _ (storeItems s)); simpl; [|reflexivity].
  unfold storeSerializedContent.
  destruct (find _ (storeItems s)); reflexivity.
Qed.

(** C5.  After any history of requests, and for a path that resolves to a
    name: the GET of the metadata and the GET of the content fail with a
    NotFound error exactly when the owner has no item of that name, they
    fail with no other error, and the status of the error is 404; when
    the owner has the item, the first answers its API representation and
    the second its bytes, and the store is left as it was. *)
Theorem get_item_not_found_iff (history : list Request) (p : SubPath)
  (ctx : AppContext) (n : string) :
  resolve (path_id p) = inr n ->
  let s := runRequests im cm history emptyStore in
  let o := user_id (owner ctx) in
  ((exists m, snd (get_items_id im p ctx s) = inl (ErrorNotFound m))
   <-> ~ itemExists o n s)
  /\ ((exists m, snd (get_items_id_content im p ctx s) = inl (ErrorNotFound m))
      <-> ~ itemExists o n s)
  /\ (forall e,
        snd (get_items_id im p ctx s) = inl e
        \/ snd (get_items_id_content im p ctx s) = inl e ->
        httpCode e = 404)
  /\ (forall item,
        In item (storeItems s) -> owner_id item = o -> name item = n ->
        get_items_id im p ctx s = (s, inr (render item))
        /\ get_items_id_content im p ctx s
           = (s, inr (mkItemContentResponse (content item)
                        (length (content item))))).
Proof.
  intros Hn s o.
  assert (Hwf : wf s) by (apply wf_runRequests, wf_emptyStore).
  rewrite (get_items_id_store p ctx s n Hn).
  rewrite (get_items_id_content_store p ctx s n Hn).
  fold o. rewrite <- find_hasName_None.
  destruct (find (hasName o n) (storeItems s)) as [item|] eqn:Hfind.
  - pose proof (find_some _ _ Hfind) as [Hin _].
    rewrite (find_id_unique (storeItems s) item (wf_ids Hwf) Hin).
    simpl.
    split; [split; [intros [m Hm]|]; discriminate|].
    split; [split; [intros [m Hm]|]; discriminate|].
    split; [intros e [He|He]; discriminate|].
    intros item' Hin' Ho' Hn'.
    pose proof (find_hasName_Some o n s item' Hwf Hin' Ho' Hn') as Hsome.
    rewrite Hfind in Hsome. injection Hsome as <-.
    split; reflexivity.
  - simpl.
    split; [split; [reflexivity | intros _; eexists; reflexivity]|].
    split; [split; [reflexivity | intros _; eexists; reflexivity]|].
    split; [intros e [He|He]; injection He as <-; reflexivity|].
    intros item' Hin' Ho' Hn'.
    pose proof (find_hasName_Some o n s item' Hwf Hin' Ho' Hn') as Hsome.
    rewrite Hfind in Hsome. discriminate.
Qed.

End ItemRoutes.

(** ** Saving content *)

Lemma find_replace (o : Uuid) (n : string) (l : list Item) (old item : Item) :
  find (hasName o n) l = Some old ->
  hasName o n item = true ->
  find (hasName o n) (map (fun i => if hasName o n i then item else i) l)
  = Some item.
Proof.
  intros Hfind Hitem. induction l as [|a r IH]; simpl in *; [discriminate|].
  destruct (hasName o n a) eqn:Ha.
  - now rewrite Hitem.
  - rewrite Ha. now apply IH.
Qed.

Lemma replace_replace (o : Uuid) (n : string) (l : list Item) (item : Item) :
  hasName o n item = true ->
  map (fun i => if hasName o n i then item else i)
      (map (fun i => if hasName o n i then item else i) l)
  = map (fun i => if hasName o n i then item else i) l.
Proof.
  intros Hitem. rewrite map_map. apply map_ext. intros i.
  destruct (hasName o n i) eqn:Hi; [now rewrite Hitem | now rewrite Hi].
Qed.

Lemma replace_absent (o : Uuid) (n : string) (l : list Item) (item : Item) :
  find (hasName o n) l = None ->
  map (fun i => if hasName o n i then item else i) l = l.
Proof.
  intros Hfind. rewrite <- (map_id l) at 2. apply map_ext_in. intros i Hi.
  now rewrite (find_none _ _ Hfind i Hi).
Qed.

Lemma find_snoc (o : Uuid) (n : string) (l : list Item) (item : Item) :
  find (hasName o n) l = None ->
  hasName o n item = true ->
  find (hasName o n) (l ++ [item]) = Some item.
Proof.
  intros Hfind Hitem. induction l as [|a r IH]; simpl in *.
  - now rewrite Hitem.
  - destruct (hasName o n a); [discriminate | now apply IH].
Qed.

Lemma hasName_mkItem (o : Uuid) (n : string) (k : nat) (b : Buffer) :
  hasName o n (mkItem (o, k) n b) = true.
Proof.
  unfold hasName, owner_id. simpl. now rewrite !String.eqb_refl.
Qed.

(** The save of the store when the owner has no item of the name. *)
Lemma save_create (o : Uuid) (n : string) (b : Buffer) (s : Store) :
  find (hasName o n) (storeItems s) = None ->
  let item := mkItem (o, nextItemNumber o s) n b in
  storeSaveFromRawContent o n b s
  = (mkStore (storeItems s ++ [item])
             (storeChanges s
              ++ [mkChange o (id item) n Create (nextSequence o s)]),
     inr item).
Proof.
  intros Hfind item. unfold storeSaveFromRawContent.
  now rewrite Hfind.
Qed.

(** The same, when the owner has an item of the name. *)
Lemma save_update (o : Uuid) (n : string) (b : Buffer) (s : Store)
  (old : Item) :
  find (hasName o n) (storeItems s) = Some old ->
  let item := mkItem (id old) n b in
  storeSaveFromRawContent o n b s
  = (mkStore (map (fun i => if hasName o n i then item else i) (storeItems s))
             (storeChanges s
              ++ [mkChange o (id item) n Update (nextSequence o s)]),
     inr item).
Proof.
  intros Hfind item. unfold storeSaveFromRawContent.
  now rewrite Hfind.
Qed.

(** What a successful save leaves behind. *)
Lemma save_result (o : Uuid) (n : string) (b : Buffer) (s : Store) :
  exists item t items',
    storeSaveFromRawContent o n b s
    = (mkStore items'
               (storeChanges s ++ [mkChange o (id item) n t (nextSequence o s)]),
       inr item)
    /\ owner_id item = o /\ name item = n /\ content item = b
    /\ find (hasName o n) items' = Some item
    /\ map (fun i => if hasName o n i then item else i) items' = items'
    /\ (~ itemExists o n s -> t = Create /\ items' = storeItems s ++ [item])
    /\ (forall old,
          find (hasName o n) (storeItems s) = Some old ->
          t = Update /\ id item = id old
          /\ length items' = length (storeItems s)).
Proof.
  destruct (find (hasName o n) (storeItems s)) as [old|] eqn:Hfind.
  - pose proof (find_some _ _ Hfind) as [_ Hold].
    assert (Hitem : hasName o n (mkItem (id old) n b) = true).
    { unfold hasName, owner_id in *. simpl.
      apply andb_true_iff in Hold. destruct Hold as [Ho _].
      now rewrite Ho, String.eqb_refl. }
    eexists _, _, _. split; [apply (save_update o n b s old Hfind)|].
    splits.
    + apply andb_true_iff in Hold. destruct Hold as [Ho _].
      now apply String.eqb_eq in Ho.
    + reflexivity.
    + reflexivity.
    + now apply (find_replace o n _ old).
    + now apply replace_replace.
    + intros Hno. apply find_hasName_None in Hno. congruence.
    + intros old' Hold'. injection Hold' as <-.
      splits; [reflexivity | reflexivity | apply length_map].
  - eexists _, _, _. split; [apply (save_create o n b s Hfind)|].
    splits; try reflexivity.
    + apply find_snoc; [assumption | apply hasName_mkItem].
    + rewrite map_app. simpl. rewrite hasName_mkItem.
      now rewrite replace_absent.
    + intros _. split; reflexivity.
    + discriminate.
Qed.


Section PutRoute.

Context `{Config}.
Context {ApiOutput : Type}.
Variable resolve : string -> Result string.
Variable render : Item -> ApiOutput.

Let im := storeItemModel resolve render.
Let cm := storeChangeModel.


End PutRoute.

(** ** What an owner sees *)

Lemma filter_idem {A : Type} (f : A -> bool) (l : list A) :
  filter f (filter f l) = filter f l.
Proof.
  apply filter_all. intros x Hx. now apply filter_In in Hx.
Qed.

Lemma filter_comm {A : Type} (f g : A -> bool) (l : list A) :
  filter f (filter g l) = filter g (filter f l).
Proof.
  induction l as [|x r IH]; simpl; [reflexivity|].
  destruct (f x) eqn:Hf, (g x) eqn:Hg; simpl; rewrite ?Hf, ?Hg, IH; reflexivity.
Qed.

Lemma filter_map_commute {A : Type} (q : A -> bool) (f : A -> A)
  (l : list A) :
  (forall x, q (f x) = q x) -> filter q (map f l) = map f (filter q l).
Proof.
  intros Hq. induction l as [|x r IH]; simpl; [reflexivity|].
  rewrite Hq. destruct (q x); simpl; now rewrite IH.
Qed.

Lemma find_filter {A : Type} (p q : A -> bool) (l : list A) :
  (forall x, p x = true -> q x = true) -> find p (filter q l) = find p l.
Proof.
  intros Hpq. induction l as [|x r IH]; simpl; [reflexivity|].
  destruct (p x) eqn:Hp.
  - rewrite (Hpq x Hp). simpl. now rewrite Hp.
  - destruct (q x); simpl; [now rewrite Hp | assumption].
Qed.

Lemma itemsOf_view (o : Uuid) (s : Store) : itemsOf o (view o s) = itemsOf o s.
Proof.
  apply filter_idem.
Qed.

Lemma changesOf_view (o : Uuid) (s : Store) :
  changesOf o (view o s) = changesOf o s.
Proof.
  apply filter_idem.
Qed.

Lemma hasName_ownedBy (o : Uuid) (n : string) (i : Item) :
  hasName o n i = true -> ownedBy o i = true.
Proof.
  unfold hasName, ownedBy. intros Hi.
  now apply andb_true_iff in Hi.
Qed.

Lemma ownedBy_mkItem (o : Uuid) (k : nat) (n : string) (b : Buffer) :
  ownedBy o (mkItem (o, k) n b) = true.
Proof.
  apply String.eqb_refl.
Qed.

Lemma find_hasName_view (o : Uuid) (n : string) (s : Store) :
  find (hasName o n) (storeItems (view o s))
  = find (hasName o n) (storeItems s).
Proof.
  apply (find_filter (hasName o n) (ownedBy o)). apply hasName_ownedBy.
Qed.

Lemma find_id_view (i : ItemId) (s : Store) :
  find (fun x => itemIdEqb (id x) i) (storeItems (view (fst i) s))
  = find (fun x => itemIdEqb (id x) i) (storeItems s).
Proof.
  apply (find_filter _ (ownedBy (fst i))).
  intros x Hx. apply itemIdEqb_eq in Hx. subst i.
  apply String.eqb_refl.
Qed.

Lemma ownChanges_idem (o : Uuid) (l : list Change) :
  ownChanges o (ownChanges o l) = ownChanges o l.
Proof.
  apply filter_idem.
Qed.

Lemma ownChanges_snoc (o o' : Uuid) (l : list Change) (i : ItemId)
  (n : string) (t : ChangeType) (k : nat) :
  ownChanges o' (l ++ [mkChange o i n t k])
  = ownChanges o' l
    ++ (if String.eqb o o' then [mkChange o i n t k] else []).
Proof.
  now rewrite ownChanges_app.
Qed.

(** Appending a change for an owner, as that owner sees it and as another
    owner does. *)
Lemma view_appendChange (o : Uuid) (i : Item) (t : ChangeType)
  (its : list Item) (s : Store) :
  view o (appendChange o i t (mkStore its (storeChanges s)))
  = appendChange o i t (mkStore (filter (ownedBy o) its) (changesOf o s)).
Proof.
  unfold view, appendChange, itemsOf, changesOf, nextSequence, changesOf.
  cbn [storeItems storeChanges].
  now rewrite ownChanges_snoc, String.eqb_refl, ownChanges_idem.
Qed.

Lemma view_appendChange_other (o o' : Uuid) (i : Item) (t : ChangeType)
  (its : list Item) (s : Store) :
  o' <> o ->
  view o' (appendChange o i t (mkStore its (storeChanges s)))
  = mkStore (filter (ownedBy o') its) (changesOf o' s).
Proof.
  intros Hneq.
  unfold view, appendChange, itemsOf, changesOf.
  cbn [storeItems storeChanges].
  rewrite ownChanges_snoc.
  apply not_eq_sym in Hneq. apply String.eqb_neq in Hneq.
  now rewrite Hneq, app_nil_r.
Qed.

Lemma nextItemNumber_view (o : Uuid) (s : Store) :
  nextItemNumber o (view o s) = nextItemNumber o s.
Proof.
  unfold nextItemNumber. now rewrite changesOf_view.
Qed.

(** The save of an owner, as the owner sees it. *)
Lemma save_view (o : Uuid) (n : string) (b : Buffer) (s : Store) :
  storeSaveFromRawContent o n b (view o s)
  = (view o (fst (storeSaveFromRawContent o n b s)),
     snd (storeSaveFromRawContent o n b s)).
Proof.
  unfold storeSaveFromRawContent.
  rewrite find_hasName_view.
  destruct (find (hasName o n) (storeItems s)) as [old|] eqn:Hfind;
    cbn [fst snd].
  - rewrite view_appendChange. f_equal.
    change (storeChanges (view o s)) with (changesOf o s).
    change (storeItems (view o s)) with (filter (ownedBy o) (storeItems s)).
    rewrite filter_map_commute.
    + unfold appendChange, nextSequence, changesOf. cbn [storeChanges].
      now rewrite ownChanges_idem.
    + intros x. destruct (hasName o n x) eqn:Hx; [|reflexivity].
      rewrite (hasName_ownedBy o n x Hx).
      apply find_some in Hfind. destruct Hfind as [_ Hold].
      apply (hasName_ownedBy o n old Hold).
  - rewrite view_appendChange, nextItemNumber_view. f_equal.
    change (storeChanges (view o s)) with (changesOf o s).
    change (storeItems (view o s)) with (filter (ownedBy o) (storeItems s)).
    rewrite filter_app. simpl.
    now rewrite ownedBy_mkItem.
Qed.

Lemma save_other (o o' : Uuid) (n : string) (b : Buffer)
  (s : Store) :
  o' <> o -> view o' (fst (storeSaveFromRawContent o n b s)) = view o' s.
Proof.
  intros Hneq. unfold storeSaveFromRawContent.
  destruct (find (hasName o n) (storeItems s)) as [old|] eqn:Hfind;
    cbn [fst]; rewrite view_appendChange_other by assumption;
    unfold view; f_equal.
  - unfold itemsOf.
    apply find_some in Hfind. destruct Hfind as [_ Hold].
    apply hasName_ownedBy in Hold.
    induction (storeItems s) as [|x r IH]; simpl; [reflexivity|].
    destruct (hasName o n x) eqn:Hx.
    + apply hasName_ownedBy in Hx. unfold ownedBy in *.
      apply String.eqb_eq in Hx, Hold.
      replace (String.eqb (owner_id x) o') with false
        by (symmetry; apply String.eqb_neq; congruence).
      replace (String.eqb (owner_id (mkItem (id old) n b)) o') with false
        by (symmetry; apply String.eqb_neq; unfold owner_id in *; simpl;
            congruence).
      exact IH.
    + destruct (ownedBy o' x); now rewrite IH.
  - rewrite filter_app. simpl.
    unfold ownedBy at 2, owner_id. simpl.
    apply not_eq_sym in Hneq. apply String.eqb_neq in Hneq.
    rewrite Hneq. apply app_nil_r.
Qed.

Lemma removeItem_view (i : ItemId) (s : Store) :
  removeItem i (view (fst i) s) = view (fst i) (removeItem i s).
Proof.
  unfold removeItem. rewrite find_id_view.
  destruct (find _ (storeItems s)) as [old|] eqn:Hfind; [|reflexivity].
  apply find_some in Hfind. destruct Hfind as [_ Hid].
  apply itemIdEqb_eq in Hid.
  assert (Ho : owner_id old = fst i) by (unfold owner_id; now rewrite Hid).
  rewrite Ho, view_appendChange.
  change (storeChanges (view (fst i) s)) with (changesOf (fst i) s).
  change (storeItems (view (fst i) s))
    with (filter (ownedBy (fst i)) (storeItems s)).
  rewrite (filter_comm (ownedBy (fst i))).
  unfold appendChange, nextSequence, changesOf. cbn [storeChanges].
  now rewrite ownChanges_idem.
Qed.

Lemma removeItem_other (i : ItemId) (o' : Uuid) (s : Store) :
  o' <> fst i -> view o' (removeItem i s) = view o' s.
Proof.
  intros Hneq. unfold removeItem.
  destruct (find _ (storeItems s)) as [old|] eqn:Hfind; [|reflexivity].
  apply find_some in Hfind. destruct Hfind as [_ Hid].
  apply itemIdEqb_eq in Hid.
  assert (Ho : owner_id old = fst i) by (unfold owner_id; now rewrite Hid).
  rewrite Ho, view_appendChange_other by assumption.
  unfold view, itemsOf. f_equal.
  rewrite filter_comm. apply filter_all.
  intros x Hx. apply filter_In in Hx. destruct Hx as [_ Hx].
  apply negb_true_iff.
  destruct (itemIdEqb (id x) i) eqn:Hxi; [|reflexivity].
  apply itemIdEqb_eq in Hxi. apply String.eqb_eq in Hx.
  unfold owner_id in Hx. rewrite Hxi in Hx. now elim Hneq.
Qed.

Lemma fold_removeItem_view (o : Uuid) (l : list Item) (s : Store) :
  (forall i, In i l -> owner_id i = o) ->
  fold_left (fun acc i => removeItem (id i) acc) l (view o s)
  = view o (fold_left (fun acc i => removeItem (id i) acc) l s).
Proof.
  revert s. induction l as [|i r IH]; simpl; intros s Hl; [reflexivity|].
  rewrite <- IH by auto.
  rewrite <- (Hl i (or_introl eq_refl)). unfold owner_id.
  now rewrite removeItem_view.
Qed.

Lemma itemsOf_owner (o : Uuid) (s : Store) (i : Item) :
  In i (itemsOf o s) -> owner_id i = o.
Proof.
  intros Hin. apply filter_In in Hin. destruct Hin as [_ Ho].
  now apply String.eqb_eq.
Qed.

Lemma deleteAll_view (o : Uuid) (s : Store) :
  storeDeleteAll o (view o s) = (view o (fst (storeDeleteAll o s)), inr tt).
Proof.
  unfold storeDeleteAll. cbn [fst]. rewrite itemsOf_view.
  rewrite fold_removeItem_view; [reflexivity|].
  intros i. apply itemsOf_owner.
Qed.

Lemma deleteAll_other (o o' : Uuid) (s : Store) :
  o' <> o -> view o' (fst (storeDeleteAll o s)) = view o' s.
Proof.
  intros Hneq. unfold storeDeleteAll. cbn [fst].
  assert (Hl : forall i, In i (itemsOf o s) -> owner_id i = o)
    by (intros i; apply itemsOf_owner).
  revert Hl. generalize (itemsOf o s) as l. intros l. revert s.
  induction l as [|i r IH]; simpl; intros s Hl; [reflexivity|].
  rewrite IH by auto. apply removeItem_other.
  specialize (Hl i (or_introl eq_refl)). unfold owner_id in Hl. congruence.
Qed.

Lemma storeChildren_view (o : Uuid) (n : string) (p : Pagination)
  (s : Store) :
  storeChildren o n p (view o s) = (view o s, snd (storeChildren o n p s)).
Proof.
  unfold storeChildren, childrenOf. now rewrite itemsOf_view.
Qed.

Lemma storeAllForUser_view (o : Uuid) (p : Pagination) (s : Store) :
  storeAllForUser o p (view o s) = (view o s, snd (storeAllForUser o p s)).
Proof.
  unfold storeAllForUser. now rewrite changesOf_view.
Qed.

Section Isolation.

Context `{Config}.
Context {ApiOutput : Type}.
Variable resolve : string -> Result string.
Variable render : Item -> ApiOutput.

Let im := storeItemModel resolve render.
Let cm := storeChangeModel.

Lemma get_items_id_run (p : SubPath) (ctx : AppContext) (s : Store) :
  get_items_id im p ctx s
  = match resolve (path_id p) with
    | inl e => (s, inl e)
    | inr n =>
        match find (hasName (user_id (owner ctx)) n) (storeItems s) with
        | Some item => (s, inr (render item))
        | None => (s, inl (ErrorNotFound ("Not found: " ++ path_id p)))
        end
    end.
Proof.
  destruct (resolve (path_id p)) as [e|n] eqn:Hn.
  - unfold get_items_id, itemFromPath, bind, lift. simpl. now rewrite Hn.
  - now apply get_items_id_store.
Qed.

Lemma get_items_id_content_run (p : SubPath) (ctx : AppContext)
  (s : Store) :
  get_items_id_content im p ctx s
  = match resolve (path_id p) with
    | inl e => (s, inl e)
    | inr n =>
        match find (hasName (user_id (owner ctx)) n) (storeItems s) with
        | Some item =>
            match find (fun x => itemIdEqb (id x) (id item)) (storeItems s)
            with
            | Some stored =>
                (s, inr (respondWithItemContent item (content stored)))
            | None => (s, inl (ErrorNotFound "Not found"))
            end
        | None => (s, inl (ErrorNotFound ("Not found: " ++ path_id p)))
        end
    end.
Proof.
  destruct (resolve (path_id p)) as [e|n] eqn:Hn.
  - unfold get_items_id_content, itemFromPath, bind, lift. simpl.
    now rewrite Hn.
  - now apply get_items_id_content_store.
Qed.

Lemma get_items_id_delta_run (p : SubPath) (ctx : AppContext) (s : Store) :
  get_items_id_delta cm p ctx s
  = match requestChangePagination (query ctx) with
    | inl e => (s, inl e)
    | inr pagination => storeAllForUser (user_id (owner ctx)) pagination s
    end.
Proof.
  unfold get_items_id_delta, bind, lift.
  destruct (requestChangePagination (query ctx)); reflexivity.
Qed.

Lemma get_items_id_children_run (p : SubPath) (ctx : AppContext)
  (s : Store) :
  get_items_id_children im p ctx s
  = match resolve (path_id p) with
    | inl e => (s, inl e)
    | inr n =>
        match requestPagination (query ctx) with
        | inl e => (s, inl e)
        | inr pagination =>
            storeChildren (user_id (owner ctx)) n pagination s
        end
    end.
Proof.
  unfold get_items_id_children, bind, lift. simpl.
  destruct (resolve (path_id p)); [reflexivity|].
  destruct (requestPagination (query ctx)); reflexivity.
Qed.

(** A request of an owner, run on what the owner sees of the store, gives
    the answer it gives on the store, and what the owner then sees. *)
Lemma dispatch_view (r : Request) (s : Store) :
  let o := user_id (owner (context r)) in
  dispatch im cm r (view o s)
  = (view o (fst (dispatch im cm r s)), snd (dispatch im cm r s)).
Proof.
  destruct r as [rt p ctx]. intros o. cbn [context] in o.
  unfold dispatch. cbn [route path context]. unfold fmap, bind, ret.
  destruct rt.
  - rewrite !get_items_id_run. fold o.
    destruct (resolve (path_id p)); [reflexivity|].
    rewrite find_hasName_view.
    destruct (find _ (storeItems s)); reflexivity.
  - unfold im. rewrite !del_items_id_store. fold o.
    destruct (isRoot p).
    + destruct (negb _); [reflexivity|]. now rewrite deleteAll_view.
    + destruct (resolve (path_id p)) as [e|n];
        [destruct (caught (inl e)); reflexivity|].
      rewrite find_hasName_view.
      destruct (find _ (storeItems s)) as [item|] eqn:Hfind; [|reflexivity].
      apply find_some in Hfind. destruct Hfind as [_ Hitem].
      apply hasName_ownedBy, String.eqb_eq in Hitem.
      unfold owner_id in Hitem. rewrite <- Hitem.
      now rewrite removeItem_view.
  - rewrite !get_items_id_content_run. fold o.
    destruct (resolve (path_id p)); [reflexivity|].
    rewrite find_hasName_view.
    destruct (find (hasName o _) (storeItems s)) as [item|] eqn:Hfind;
      [|reflexivity].
    apply find_some in Hfind. destruct Hfind as [_ Hitem].
    apply hasName_ownedBy, String.eqb_eq in Hitem.
    unfold owner_id in Hitem. rewrite <- Hitem, find_id_view.
    destruct (find _ (storeItems s)); reflexivity.
  - unfold im. rewrite !put_items_id_content_store. fold o.
    destruct (resolve (path_id p)) as [e|n]; [reflexivity|].
    destruct (formParse (req ctx)) as [e|parsedBody]; [reflexivity|].
    destruct (match parsedBody with
              | Some file => readFile file
              | None => inr []
              end) as [e|buffer]; [reflexivity|].
    rewrite save_view.
    destruct (storeSaveFromRawContent _ _ _ s) as [s' [e|item]]; reflexivity.
  - rewrite !get_items_id_delta_run. fold o.
    destruct (requestChangePagination (query ctx)); [reflexivity|].
    now rewrite storeAllForUser_view.
  - rewrite !get_items_id_children_run. fold o.
    destruct (resolve (path_id p)); [reflexivity|].
    destruct (requestPagination (query ctx)); [reflexivity|].
    now rewrite storeChildren_view.
Qed.

Lemma dispatch_other (r : Request) (o' : Uuid) (s : Store) :
  o' <> user_id (owner (context r)) ->
  view o' (fst (dispatch im cm r s)) = view o' s.
Proof.
  intros Hneq.
  refine (dispatch_step resolve render
            (fun s s' => view o' s' = view o' s)
            (user_id (owner (context r))) _ _ _ _ r s eq_refl); clear s.
  - reflexivity.
  - intros n b s. now apply save_other.
  - intros i s Hi. apply removeItem_other. congruence.
  - intros s. now apply deleteAll_other.
Qed.

(** C6.  The answer to a request, and what its owner sees of the store
    afterwards, depend only on what the owner saw of the store before:
    two stores with the same items and changes of the owner give the same
    answer and the same items and changes of the owner, whatever the
    other owners have in them; and the request leaves the items and the
    changes of every other owner as they were. *)
Theorem requests_are_owner_scoped (r : Request) (s1 s2 : Store) :
  let o := user_id (owner (context r)) in
  view o s1 = view o s2 ->
  snd (dispatch im cm r s1) = snd (dispatch im cm r s2)
  /\ view o (fst (dispatch im cm r s1)) = view o (fst (dispatch im cm r s2))
  /\ forall o', o' <> o -> view o' (fst (dispatch im cm r s1)) = view o' s1.
Proof.
  intros o Hview.
  pose proof (dispatch_view r s1) as H1.
  pose proof (dispatch_view r s2) as H2.
  cbv zeta in H1, H2. fold o in H1, H2.
  rewrite Hview, H2 in H1.
  assert (Hs : view o (fst (dispatch im cm r s1))
               = view o (fst (dispatch im cm r s2)))
    by (symmetry; exact (f_equal fst H1)).
  assert (Hr : snd (dispatch im cm r s1) = snd (dispatch im cm r s2))
    by (symmetry; exact (f_equal snd H1)).
  splits; [assumption | assumption |].
  intros o' Hneq. now apply dispatch_other.
Qed.

End Isolation.

(** ** The change feed after a history of requests *)

Section FeedReplay.

Context `{Config}.
Context {ApiOutput : Type}.
Variable resolve : string -> Result string.
Variable render : Item -> ApiOutput.

Let im := storeItemModel resolve render.
Let cm := storeChangeModel.

(** Read from the start with enough fuel, the feed is the owner's part of
    the log. *)
Lemma replayDelta_start (p : SubPath) (ctx : AppContext) (s : Store)
  (fuel : nat) :
  wf s ->
  1 <= maxPageSize ->
  cursor (query ctx) = None ->
  length (changesOf (user_id (owner ctx)) s) < fuel ->
  replayDelta cm fuel p ctx s = Some (changesOf (user_id (owner ctx)) s).
Proof.
  intros [Hseq _ _ _] Hmax Hq Hfuel.
  destruct (requestChangePagination_start (query ctx) Hmax Hq)
    as [lim [Hp Hv]].
  apply validPagination_iff in Hv. unfold cm.
  rewrite (replayDelta_from p s lim fuel Hseq Hv 0 ctx Hp); [reflexivity|].
  lia.
Qed.

(** The feed after a store whose log has grown. *)
Lemma replayDelta_grown (p : SubPath) (ctx : AppContext) (s s1 : Store)
  (added : list Change) (fuel : nat) :
  wf s1 ->
  1 <= maxPageSize ->
  cursor (query ctx) = None ->
  length (storeChanges s) < fuel ->
  storeChanges s1 = storeChanges s ++ added ->
  replayDelta cm (fuel + length added) p ctx s1
  = Some (changesOf (user_id (owner ctx)) s
          ++ ownChanges (user_id (owner ctx)) added).
Proof.
  intros Hwf Hmax Hq Hfuel Hlog.
  rewrite (replayDelta_start p ctx s1 _ Hwf Hmax Hq).
  - unfold changesOf. now rewrite Hlog, ownChanges_app.
  - unfold changesOf. rewrite Hlog.
    pose proof (filter_length_le
                  (fun c => String.eqb (change_owner_id c)
                                       (user_id (owner ctx)))
                  (storeChanges s ++ added)) as Hle.
    unfold ownChanges. rewrite length_app in Hle. lia.
Qed.

(** C1.  After any history of requests, a client that pages through the
    change feed from the start, until a page says there is no more,
    collects the events of the owner in the log: each event of the log that
    is the owner's, once, in the order of the log, and no other; their
    sequence numbers are 1, 2, 3, ... without a gap.  The feed follows the
    mutations: after more requests it is the feed before, followed by the
    owner's events among those the requests appended; a request of another
    owner leaves it as it is; a PUT of the owner adds one event at its end,
    a Create or an Update of the name with the next sequence number; a
    DELETE of an item of the owner adds one Delete of that item. *)
Theorem delta_replay_complete (history : list Request) (p : SubPath)
  (ctx : AppContext) (fuel : nat) :
  1 <= maxPageSize ->
  cursor (query ctx) = None ->
  length (storeChanges (runRequests im cm history emptyStore)) < fuel ->
  let s := runRequests im cm history emptyStore in
  let o := user_id (owner ctx) in
  exists feed,
    replayDelta cm fuel p ctx s = Some feed
    /\ FeedOf o (storeChanges s) feed
    /\ (forall c, In c feed <-> In c (storeChanges s) /\ change_owner_id c = o)
    /\ map sequence feed = seq 1 (length feed)
    /\ NoDup feed
    /\ (forall more,
          let s1 := runRequests im cm (history ++ more) emptyStore in
          exists added feed1,
            storeChanges s1 = storeChanges s ++ added
            /\ FeedOf o added feed1
            /\ replayDelta cm (fuel + length added) p ctx s1
               = Some (feed ++ feed1))
    /\ (forall r,
          user_id (owner (context r)) <> o ->
          replayDelta cm fuel p ctx
            (runRequests im cm (history ++ [r]) emptyStore)
          = Some feed)
    /\ (forall r n parsedBody buffer,
          route r = PutContent ->
          user_id (owner (context r)) = o ->
          resolve (path_id (path r)) = inr n ->
          formParse (req (context r)) = inr parsedBody ->
          match parsedBody with
          | Some file => readFile file
          | None => inr []
          end = inr buffer ->
          let s1 := runRequests im cm (history ++ [r]) emptyStore in
          exists i t,
            storeChanges s1
            = storeChanges s ++ [mkChange o i n t (S (length feed))]
            /\ (itemExists o n s -> t = Update)
            /\ (~ itemExists o n s -> t = Create)
            /\ replayDelta cm (fuel + 1) p ctx s1
               = Some (feed ++ [mkChange o i n t (S (length feed))]))
    /\ (forall r n item,
          route r = DelItem ->
          user_id (owner (context r)) = o ->
          path_id (path r) <> "root" -> path_id (path r) <> "root:/:" ->
          resolve (path_id (path r)) = inr n ->
          In item (storeItems s) -> owner_id item = o -> name item = n ->
          let s1 := runRequests im cm (history ++ [r]) emptyStore in
          storeChanges s1
          = storeChanges s ++ [mkChange o (id item) n Delete (S (length feed))]
          /\ replayDelta cm (fuel + 1) p ctx s1
             = Some (feed ++ [mkChange o (id item) n Delete (S (length feed))])).
Proof.
  intros Hmax Hq Hfuel s o.
  assert (Hwf : wf s) by (apply wf_runRequests, wf_emptyStore).
  assert (Hwf1 : forall more,
             wf (runRequests im cm (history ++ more) emptyStore))
    by (intros more; apply wf_runRequests, wf_emptyStore).
  assert (Hown : forall x, ownChanges o [x]
                           = if String.eqb (change_owner_id x) o
                             then [x] else [])
    by reflexivity.
  exists (changesOf o s).
  split.
  { apply replayDelta_start; auto.
    pose proof (filter_length_le
                  (fun c => String.eqb (change_owner_id c) o)
                  (storeChanges s)) as Hle.
    unfold changesOf, ownChanges. fold s in Hfuel. fold o. lia. }
  split; [apply FeedOf_ownChanges|].
  split; [intros c; apply ownChanges_In|].
  split; [apply (wf_sequenced Hwf)|].
  split; [apply sequencedLog_NoDup, (wf_sequenced Hwf)|].
  split.
  { intros more s1.
    destruct (extends_runRequests resolve render more s) as [added Hadded].
    fold im cm in Hadded.
    assert (Hs1 : storeChanges s1 = storeChanges s ++ added)
      by (unfold s1; rewrite runRequests_app; exact Hadded).
    exists added, (ownChanges o added).
    split; [exact Hs1|]. split; [apply FeedOf_ownChanges|].
    apply replayDelta_grown; auto. apply Hwf1. }
  split.
  { intros r Hr.
    rewrite runRequests_app. fold s. simpl.
    pose proof (dispatch_other resolve render r o s (not_eq_sym Hr)) as Hview.
    fold im cm in Hview.
    assert (Hsame : changesOf o (fst (dispatch im cm r s)) = changesOf o s)
      by exact (f_equal storeChanges Hview).
    rewrite replayDelta_start; auto.
    - fold o. now rewrite Hsame.
    - specialize (Hwf1 [r]). rewrite runRequests_app in Hwf1. exact Hwf1.
    - fold o. rewrite Hsame.
      pose proof (filter_length_le
                    (fun c => String.eqb (change_owner_id c) o)
                    (storeChanges s)) as Hle.
      unfold changesOf, ownChanges. fold s in Hfuel. lia. }
  split.
  { intros [rt rp rctx] n parsedBody buffer Hrt Ho Hn Hparse Hread s1.
    cbn [route path context] in *. subst rt.
    assert (Hs1 : s1 = fst (storeSaveFromRawContent o n buffer s)).
    { unfold s1. rewrite runRequests_app. fold s. simpl.
      unfold dispatch. cbn [route path context]. rewrite fst_fmap.
      unfold im. rewrite put_items_id_content_store, Hn, Hparse, Hread, Ho.
      destruct (storeSaveFromRawContent o n buffer s) as [s' [e|item]];
        reflexivity. }
    destruct (save_result o n buffer s)
      as [item [t [items' [Hsave [_ [_ [_ [_ [_ [Hnew Hold]]]]]]]]]].
    rewrite Hsave in Hs1. cbn [fst] in Hs1.
    assert (Hlog : storeChanges s1
                   = storeChanges s
                     ++ [mkChange o (id item) n t (S (length (changesOf o s)))])
      by (rewrite Hs1; reflexivity).
    exists (id item), t.
    split; [exact Hlog|].
    split.
    { intros Hex.
      destruct (find (hasName o n) (storeItems s)) as [old|] eqn:Hfind.
      - now destruct (Hold old eq_refl).
      - apply find_hasName_None in Hfind. contradiction. }
    split; [intros Hno; now destruct (Hnew Hno)|].
    change 1 with (length [mkChange o (id item) n t
                             (S (length (changesOf o s)))]).
    rewrite (replayDelta_grown p ctx s s1 _ fuel (Hwf1 [_]) Hmax Hq Hfuel Hlog).
    fold o. rewrite Hown. cbn [change_owner_id].
    now rewrite String.eqb_refl. }
  { intros [rt rp rctx] n item Hrt Ho Hr1 Hr2 Hn Hin Hio Hname s1.
    cbn [route path context] in *. subst rt.
    assert (Hfind : find (hasName o n) (storeItems s) = Some item)
      by now apply find_hasName_Some.
    assert (Hs1 : s1 = removeItem (id item) s).
    { unfold s1. rewrite runRequests_app. fold s. simpl.
      unfold dispatch. cbn [route path context]. rewrite fst_fmap.
      unfold im. rewrite del_items_id_store. unfold isRoot.
      apply String.eqb_neq in Hr1, Hr2. rewrite Hr1, Hr2. simpl.
      now rewrite Hn, Ho, Hfind. }
    assert (Hlog : storeChanges s1
                   = storeChanges s
                     ++ [mkChange o (id item) n Delete
                           (S (length (changesOf o s)))]).
    { rewrite Hs1. unfold removeItem.
      rewrite (find_id_unique (storeItems s) item (wf_ids Hwf) Hin).
      unfold appendChange, nextSequence, changesOf. cbn [storeChanges].
      now rewrite Hio, Hname. }
    split; [exact Hlog|].
    change 1 with (length [mkChange o (id item) n Delete
                             (S (length (changesOf o s)))]).
    rewrite (replayDelta_grown p ctx s s1 _ fuel (Hwf1 [_]) Hmax Hq Hfuel Hlog).
    fold o. rewrite Hown. cbn [change_owner_id].
    now rewrite String.eqb_refl. }
Qed.

End FeedReplay.

(** ** The theorems at work on the sample data *)

Lemma delete_root_refused_witness :
  (path_id (mkSubPath "root") = "root"
   \/ path_id (mkSubPath "root") = "root:/:")
  /\ env aliceContext <> "dev"
  /\ del_items_id sampleItemModel (mkSubPath "root") aliceContext sampleStore
     = (sampleStore,
        inl (ErrorMethodNotAllowed "Deleting the root is not allowed")).
Proof.
  assert (Hroot : path_id (mkSubPath "root") = "root"
                  \/ path_id (mkSubPath "root") = "root:/:")
    by (left; reflexivity).
  assert (Henv : env aliceContext <> "dev") by discriminate.
  splits; [exact Hroot | exact Henv |].
  exact (proj1 (delete_root_refused sampleItemModel (mkSubPath "root")
                  aliceContext sampleStore Hroot Henv)).
Defined.

Lemma delta_ignores_path_witness :
  get_items_id_delta (H := sampleConfig) sampleChangeModel
    (mkSubPath "root:/notes/x:") aliceContext sampleStore
  = get_items_id_delta (H := sampleConfig) sampleChangeModel
      (mkSubPath "root:/b:")
      (mkAppContext alice "dev" (mkQuery None None) (upload [b1])) sampleStore.
Proof.
  apply (@delta_ignores_path Store sampleChangeModel sampleConfig);
    reflexivity.
Defined.

Lemma delete_catches_not_found_witness :
  del_items_id sampleItemModel (mkSubPath "root:/:") aliceContext sampleStore
  = (sampleStore,
     inl (ErrorMethodNotAllowed "Deleting the root is not allowed"))
  /\ del_items_id sampleItemModel (mkSubPath "nowhere") aliceContext sampleStore
     = (sampleStore, inl (ErrorInvalidPath "nowhere")).
Proof.
  pose proof (delete_catches_not_found sampleItemModel (mkSubPath "root:/:")
                aliceContext sampleStore) as Hroot.
  pose proof (delete_catches_not_found sampleItemModel (mkSubPath "nowhere")
                aliceContext sampleStore) as Hpath.
  cbv zeta in Hroot, Hpath.
  destruct Hroot as [_ [_ [Hgate _]]].
  destruct Hpath as [_ [_ [_ [_ [Hresolve _]]]]].
  split.
  - apply Hgate; [reflexivity | discriminate].
  - apply (Hresolve eq_refl (ErrorInvalidPath "nowhere")). reflexivity.
Defined.

(** The log of the sample history and Alice's feed, which is the log
    without the event of Bob. *)
Lemma delta_replay_complete_witness :
  1 <= @maxPageSize sampleConfig
  /\ cursor (query aliceContext) = None
  /\ length (storeChanges
               (runRequests (H := sampleConfig) sampleItemModel
                  sampleChangeModel sampleHistory emptyStore)) < 10
  /\ storeChanges
       (runRequests (H := sampleConfig) sampleItemModel sampleChangeModel
          sampleHistory emptyStore)
     = [mkChange "alice" ("alice", 1) "notes/x" Create 1;
        mkChange "bob" ("bob", 1) "b" Create 1;
        mkChange "alice" ("alice", 1) "notes/x" Update 2;
        mkChange "alice" ("alice", 2) "notes/y" Create 3;
        mkChange "alice" ("alice", 3) "notes" Create 4;
        mkChange "alice" ("alice", 4) "notes/z/w" Create 5;
        mkChange "alice" ("alice", 2) "notes/y" Delete 6;
        mkChange "alice" ("alice", 5) "notes/a" Create 7;
        mkChange "alice" ("alice", 6) "notes/y" Create 8]
  /\ replayDelta (H := sampleConfig) sampleChangeModel 10 (mkSubPath "root")
       aliceContext
       (runRequests (H := sampleConfig) sampleItemModel sampleChangeModel
          sampleHistory emptyStore)
     = Some [mkChange "alice" ("alice", 1) "notes/x" Create 1;
             mkChange "alice" ("alice", 1) "notes/x" Update 2;
             mkChange "alice" ("alice", 2) "notes/y" Create 3;
             mkChange "alice" ("alice", 3) "notes" Create 4;
             mkChange "alice" ("alice", 4) "notes/z/w" Create 5;
             mkChange "alice" ("alice", 2) "notes/y" Delete 6;
             mkChange "alice" ("alice", 5) "notes/a" Create 7;
             mkChange "alice" ("alice", 6) "notes/y" Create 8].
Proof.
  assert (Hmax : 1 <= @maxPageSize sampleConfig) by (simpl; lia).
  assert (Hfuel : length (storeChanges
                            (runRequests (H := sampleConfig) sampleItemModel
                               sampleChangeModel sampleHistory emptyStore))
                  < 10) by (simpl; lia).
  splits; [exact Hmax | reflexivity | exact Hfuel | reflexivity |].
  destruct (delta_replay_complete (H := sampleConfig) samplePathToName
              (fun i => i) sampleHistory (mkSubPath "root") aliceContext
              10 Hmax eq_refl Hfuel)
    as [feed [Hreplay [Hfeed _]]].
  apply FeedOf_unique in Hfeed.
  unfold sampleItemModel, sampleChangeModel.
  rewrite Hreplay, Hfeed. reflexivity.
Defined.

(** The children of [notes] in the sample store, of which [notes/z/w] is a
    descendant but not a direct one. *)
Lemma children_listing_witness :
  1 <= @maxPageSize sampleConfig
  /\ samplePathToName (path_id (mkSubPath "root:/notes:")) = inr "notes"
  /\ cursor (query aliceContext) = None
  /\ length (storeItems sampleStore) < 7
  /\ In (mkItem ("alice", 4) "notes/z/w" [b1]) (storeItems sampleStore)
  /\ replayChildren (H := sampleConfig) sampleItemModel 7
       (mkSubPath "root:/notes:") aliceContext sampleStore
     = Some [mkItem ("alice", 5) "notes/a" [b1; b2];
             mkItem ("alice", 1) "notes/x" [b2];
             mkItem ("alice", 6) "notes/y" [b2]].
Proof.
  assert (Hmax : 1 <= @maxPageSize sampleConfig) by (simpl; lia).
  assert (Hfuel : length (storeItems sampleStore) < 7) by (simpl; lia).
  splits; [exact Hmax | reflexivity | reflexivity | exact Hfuel
           | simpl; tauto |].
  destruct (children_listing (H := sampleConfig) samplePathToName
              (fun i => i) (mkSubPath "root:/notes:") aliceContext
              sampleStore "notes" 7 Hmax eq_refl)
    as [all [rest [_ [_ [_ [_ [_ [Hreplay _]]]]]]]].
  specialize (Hreplay eq_refl Hfuel).
  unfold sampleItemModel. rewrite Hreplay. vm_compute in Hreplay. symmetry. exact Hreplay.
Defined.

Lemma delete_absent_is_noop_witness :
  samplePathToName (path_id (mkSubPath "root:/notes/none:")) = inr "notes/none"
  /\ ~ itemExists "alice" "notes/none" sampleStore
  /\ del_items_id sampleItemModel (mkSubPath "root:/notes/none:") aliceContext
       sampleStore
     = (sampleStore, inr tt).
Proof.
  assert (Hno : ~ itemExists "alice" "notes/none" sampleStore)
    by (apply find_hasName_None; reflexivity).
  splits; [reflexivity | exact Hno |].
  refine (proj1 (delete_absent_is_noop samplePathToName
                   (fun i => i) (mkSubPath "root:/notes/none:") aliceContext
                   sampleStore "notes/none" _ _ eq_refl Hno));
    discriminate.
Defined.

Lemma get_item_not_found_iff_witness :
  samplePathToName (path_id (mkSubPath "root:/notes/none:")) = inr "notes/none"
  /\ ((exists m,
         snd (get_items_id sampleItemModel (mkSubPath "root:/notes/none:")
                aliceContext
                (runRequests (H := sampleConfig) sampleItemModel
                   sampleChangeModel sampleHistory emptyStore))
         = inl (ErrorNotFound m))
      <-> ~ itemExists "alice" "notes/none"
            (runRequests (H := sampleConfig) sampleItemModel sampleChangeModel
               sampleHistory emptyStore)).
Proof.
  split; [reflexivity|].
  exact (proj1 (get_item_not_found_iff (H := sampleConfig) samplePathToName
                  (fun i => i) sampleHistory (mkSubPath "root:/notes/none:")
                  aliceContext "notes/none" eq_refl)).
Defined.


Lemma requests_are_owner_scoped_witness :
  view "alice" sampleStore = view "alice" (view "alice" sampleStore)
  /\ sampleStore <> view "alice" sampleStore
  /\ snd (dispatch (H := sampleConfig) sampleItemModel sampleChangeModel
            (put alice "root:/notes/x:" [b1]) sampleStore)
     = snd (dispatch (H := sampleConfig) sampleItemModel sampleChangeModel
              (put alice "root:/notes/x:" [b1]) (view "alice" sampleStore)).
Proof.
  assert (Hview : view "alice" sampleStore
                  = view "alice" (view "alice" sampleStore)) by reflexivity.
  splits; [exact Hview | discriminate |].
  exact (proj1 (requests_are_owner_scoped (H := sampleConfig) samplePathToName
                  (fun i => i) (put alice "root:/notes/x:" [b1]) sampleStore
                  (view "alice" sampleStore) Hview)).
Defined.

(** ** The scenario of the specification *)

Example scenario_delta :
  get_items_id_delta (H := scenarioConfig) storeChangeModel
    (mkSubPath "root:/notes/x:")
    (mkAppContext alice "prod" (mkQuery None (Some 10)) noUpload) scenarioStore
  = (scenarioStore,
     inr (mkPage [mkChange "alice" ("alice", 1) "notes/x" Create 1;
                  mkChange "alice" ("alice", 1) "notes/x" Update 2]
                 false "c1:2:10:146")).
Proof.
  reflexivity.
Qed.

Example scenario_content :
  get_items_id_content
    (@storeItemModel Item samplePathToName (fun i => i))
    (mkSubPath "root:/notes/x:") aliceContext scenarioStore
  = (scenarioStore, inr (mkItemContentResponse [b2] 1)).
Proof.
  reflexivity.
Qed.

(** * Further properties of the item routes *)

Section MoreRouteProperties.

Context {St ApiOutput : Type}.
Variable itemModel : ItemModel St ApiOutput.
Variable changeModel : ChangeModel St.
Context `{Config}.

(** X1.  Whatever the models do, the delete route never fails with a
    NotFound error: a request that fails, fails with another error. *)
Theorem delete_never_fails_not_found (p : SubPath) (ctx : AppContext)
  (s : St) (m : string) :
  snd (del_items_id itemModel p ctx s) <> inl (ErrorNotFound m).
Proof.
  unfold del_items_id, tryCatch.
  match goal with
  | |- context [match ?body s with _ => _ end] =>
      destruct (body s) as [s' [e|[]]]
  end; simpl; [|discriminate].
  destruct e; simpl; discriminate.
Qed.

(** X2.  When [itemFromPath] is asked for an item that must exist and
    returns, it returns an item, never [null]; its NotFound error quotes
    the id of the path as it was given; asked for an item that may be
    absent, it returns what [loadByName] returns for the resolved name,
    [null] included. *)
Theorem itemFromPath_returns_item (o : Uuid) (p : SubPath) (s : St) :
  (forall s' r,
      itemFromPath itemModel o p true s = (s', inr r) ->
      exists item, r = Some item)
  /\ (forall n s',
        pathToName itemModel (path_id p) = inr n ->
        loadByName itemModel o n s = (s', inr None) ->
        itemFromPath itemModel o p true s
        = (s', inl (ErrorNotFound ("Not found: " ++ path_id p))))
  /\ (forall n,
        pathToName itemModel (path_id p) = inr n ->
        itemFromPath itemModel o p false s = loadByName itemModel o n s).
Proof.
  splits.
  - intros s' r. unfold itemFromPath, bind, lift.
    destruct (pathToName itemModel (path_id p)) as [e|n]; [discriminate|].
    destruct (loadByName itemModel o n s) as [s1 [e|[item|]]];
      simpl; try discriminate.
    intros Heq. injection Heq as _ <-. now exists item.
  - intros n s' Hn Hload.
    now rewrite (itemFromPath_resolved itemModel o p n s Hn), Hload.
  - intros n Hn. unfold itemFromPath, bind, lift. rewrite Hn.
    destruct (loadByName itemModel o n s) as [s1 [e|r]]; reflexivity.
Qed.

(** X3.  A route that reads its path resolves it before it calls a model:
    when [pathToName] throws, the get, content, put and children routes
    fail with that error and the delete route lets the catch clause decide,
    and none of them has changed the state.  The listing routes read the
    query before they call a model too: when the pagination helper throws,
    they fail with its error and the state is unchanged. *)
Theorem routes_fail_before_any_model_call (p : SubPath) (ctx : AppContext)
  (s : St) :
  (forall e,
      pathToName itemModel (path_id p) = inl e ->
      get_items_id itemModel p ctx s = (s, inl e)
      /\ get_items_id_content itemModel p ctx s = (s, inl e)
      /\ put_items_id_content itemModel p ctx s = (s, inl e)
      /\ get_items_id_children itemModel p ctx s = (s, inl e)
      /\ (isRoot p = false ->
          del_items_id itemModel p ctx s = (s, caught (inl e))))
  /\ (forall e,
        requestChangePagination (query ctx) = inl e ->
        get_items_id_delta changeModel p ctx s = (s, inl e))
  /\ (forall e n,
        pathToName itemModel (path_id p) = inr n ->
        requestPagination (query ctx) = inl e ->
        get_items_id_children itemModel p ctx s = (s, inl e)).
Proof.
  splits.
  - intros e He. splits.
    + unfold get_items_id, bind.
      now rewrite (itemFromPath_unresolved itemModel _ p e s He).
    + unfold get_items_id_content, bind.
      now rewrite (itemFromPath_unresolved itemModel _ p e s He).
    + unfold put_items_id_content, bind, lift. now rewrite He.
    + unfold get_items_id_children, bind, lift. now rewrite He.
    + intros Hroot. unfold del_items_id, tryCatch, bind.
      unfold isRoot in Hroot. rewrite Hroot.
      rewrite (itemFromPath_unresolved itemModel _ p e s He). simpl.
      destruct (instanceofErrorNotFound e); reflexivity.
  - intros e He. unfold get_items_id_delta, bind, lift. now rewrite He.
  - intros e n Hn He. unfold get_items_id_children, bind, lift.
    now rewrite Hn, He.
Qed.

(** X24.  The put route reads the body after it has resolved the path and
    before it saves: when [formParse] throws, or the form has a file and
    [fs.readFile] throws, the route fails with that error and the state is
    unchanged, no model having been called; with a file that is read the
    route saves its bytes under the resolved name for the owner, without
    a file it saves the empty content, and it answers the API
    representation of the item the save returns, or fails as the save
    does. *)
Theorem put_reads_body_before_saving (p : SubPath) (ctx : AppContext)
  (s : St) (n : string) :
  pathToName itemModel (path_id p) = inr n ->
  let saved (buffer : Buffer) :=
    match saveFromRawContent itemModel (user_id (owner ctx)) n buffer s with
    | (s', inr item) => (s', inr (toApiOutput itemModel item))
    | (s', inl e) => (s', inl e)
    end in
  (forall e,
      formParse (req ctx) = inl e ->
      put_items_id_content itemModel p ctx s = (s, inl e))
  /\ (forall file e,
        formParse (req ctx) = inr (Some file) -> readFile file = inl e ->
        put_items_id_content itemModel p ctx s = (s, inl e))
  /\ (forall file buffer,
        formParse (req ctx) = inr (Some file) -> readFile file = inr buffer ->
        put_items_id_content itemModel p ctx s = saved buffer)
  /\ (formParse (req ctx) = inr None ->
      put_items_id_content itemModel p ctx s = saved []).
Proof.
  intros Hn saved. unfold put_items_id_content, bind, lift, ret.
  rewrite Hn. splits.
  - intros e Hparse. now rewrite Hparse.
  - intros file e Hparse Hread. now rewrite Hparse, Hread.
  - intros file buffer Hparse Hread. rewrite Hparse, Hread. unfold saved.
    destruct (saveFromRawContent itemModel _ n buffer s) as [s' [e|item]];
      reflexivity.
  - intros Hparse. rewrite Hparse. unfold saved.
    destruct (saveFromRawContent itemModel _ n [] s) as [s' [e|item]];
      reflexivity.
Qed.

End MoreRouteProperties.

Lemma itemFromPath_returns_item_witness :
  samplePathToName (path_id (mkSubPath "root:/notes/x:")) = inr "notes/x"
  /\ itemFromPath sampleItemModel "alice" (mkSubPath "root:/notes/x:") false
       sampleStore
     = loadByName sampleItemModel "alice" "notes/x" sampleStore.
Proof.
  split; [reflexivity|].
  apply (itemFromPath_returns_item sampleItemModel "alice"
           (mkSubPath "root:/notes/x:") sampleStore).
  reflexivity.
Defined.

Lemma routes_fail_before_any_model_call_witness :
  samplePathToName (path_id (mkSubPath "nowhere"))
  = inl (ErrorInvalidPath "nowhere")
  /\ put_items_id_content sampleItemModel (mkSubPath "nowhere") aliceContext
       sampleStore
     = (sampleStore, inl (ErrorInvalidPath "nowhere")).
Proof.
  split; [reflexivity|].
  apply (@routes_fail_before_any_model_call Store Item sampleItemModel
           sampleChangeModel sampleConfig (mkSubPath "nowhere") aliceContext
           sampleStore).
  reflexivity.
Defined.

(** A PUT to an existing name whose uploaded file cannot be read fails and
    leaves the item as it was; a PUT without a file empties it. *)
Lemma put_reads_body_before_saving_witness :
  samplePathToName (path_id (mkSubPath "root:/notes/x:")) = inr "notes/x"
  /\ put_items_id_content sampleItemModel (mkSubPath "root:/notes/x:")
       (mkAppContext alice "prod" (mkQuery None None)
          (mkIncomingMessage
             (inr (Some (mkUploadedFile (inl (ErrorInternal "EIO")))))))
       sampleStore
     = (sampleStore, inl (ErrorInternal "EIO"))
  /\ snd (put_items_id_content sampleItemModel (mkSubPath "root:/notes/x:")
            aliceContext sampleStore)
     = inr (mkItem ("alice", 1) "notes/x" []).
Proof.
  split; [reflexivity|].
  split.
  - destruct (@put_reads_body_before_saving Store Item sampleItemModel
                (mkSubPath "root:/notes/x:")
                (mkAppContext alice "prod" (mkQuery None None)
                   (mkIncomingMessage
                      (inr (Some (mkUploadedFile (inl (ErrorInternal "EIO")))))))
                sampleStore "notes/x" eq_refl)
      as [_ [Hread _]].
    exact (Hread (mkUploadedFile (inl (ErrorInternal "EIO")))
                 (ErrorInternal "EIO") eq_refl eq_refl).
  - destruct (@put_reads_body_before_saving Store Item sampleItemModel
                (mkSubPath "root:/notes/x:") aliceContext sampleStore
                "notes/x" eq_refl)
      as [_ [_ [_ Hnone]]].
    rewrite (Hnone eq_refl). reflexivity.
Defined.

(** * Properties of the user routes *)

Module UsersFacts.

Import Users.

(** ** Values and objects *)

Lemma strictEquals_eq (a b : Value) : strictEquals a b = true -> a = b.
Proof.
  destruct a, b; simpl; try discriminate; try reflexivity; intros Heq.
  - f_equal. now apply Bool.eqb_prop.
  - f_equal. now apply Z.eqb_eq.
  - f_equal. now apply String.eqb_eq.
Qed.

Lemma getProperty_setProperty (o : Object) (k k' : string) (v : Value) :
  getProperty (setProperty o k v) k'
  = if String.eqb k k' then v else getProperty o k'.
Proof.
  induction o as [|[k0 v0] r IH]; simpl.
  - reflexivity.
  - destruct (String.eqb_spec k0 k) as [-> | Hneq]; simpl.
    + destruct (String.eqb k k'); reflexivity.
    + rewrite IH.
      destruct (String.eqb_spec k0 k') as [-> | Hneq']; [|reflexivity].
      apply String.eqb_neq in Hneq. rewrite String.eqb_sym in Hneq.
      now rewrite Hneq.
Qed.

Lemma hasProperty_setProperty (o : Object) (k k' : string) (v : Value) :
  hasProperty k' (setProperty o k v) = String.eqb k k' || hasProperty k' o.
Proof.
  induction o as [|[k0 v0] r IH]; simpl.
  - now rewrite orb_false_r.
  - destruct (String.eqb_spec k0 k) as [-> | Hneq]; simpl.
    + destruct (String.eqb k k'); reflexivity.
    + rewrite IH. destruct (String.eqb k0 k'), (String.eqb k k'); reflexivity.
Qed.

Lemma getProperty_absent (o : Object) (k : string) :
  hasProperty k o = false -> getProperty o k = VUndefined.
Proof.
  induction o as [|[k0 v0] r IH]; simpl; [reflexivity|].
  destruct (String.eqb k0 k); simpl; [discriminate | exact IH].
Qed.

Lemma hasProperty_spread (a b : Object) (k : string) :
  hasProperty k (spread a b) = hasProperty k a || hasProperty k b.
Proof.
  unfold spread. revert a.
  induction b as [|[k0 v0] r IH]; intros a; simpl.
  - now rewrite orb_false_r.
  - rewrite IH, hasProperty_setProperty.
    destruct (String.eqb k0 k), (hasProperty k a); reflexivity.
Qed.

Lemma getProperty_spread_absent (a b : Object) (k : string) :
  hasProperty k b = false -> getProperty (spread a b) k = getProperty a k.
Proof.
  unfold spread. revert a.
  induction b as [|[k0 v0] r IH]; intros a; simpl; [reflexivity|].
  intros Hb. apply orb_false_iff in Hb. destruct Hb as [Hk Hr].
  rewrite (IH _ Hr), getProperty_setProperty. now rewrite Hk.
Qed.

(** ** [checkPassword] *)

(** X4.  [checkPassword] returns the password of the fields only when it is
    not empty and is strictly equal to its confirmation, and then returns
    it as it is; it fails with "Passwords do not match" exactly when the
    password is not empty and differs from the confirmation, and with
    "Password is required" exactly when it is empty and a password is
    required; when it is empty and none is required the result is the
    empty string, whatever the confirmation holds. *)
Theorem checkPassword_outcomes (fields : Object) (required : bool) :
  let password := getProperty fields "password" in
  let password2 := getProperty fields "password2" in
  (forall v,
      checkPassword fields true = inr v ->
      v = password /\ truthy v = true /\ password2 = v)
  /\ (forall e,
        checkPassword fields required = inl e <->
        (truthy password = true /\ strictEquals password password2 = false
         /\ e = ErrorUnprocessableEntity "Passwords do not match")
        \/ (truthy password = false /\ required = true
            /\ e = ErrorUnprocessableEntity "Password is required"))
  /\ (truthy password = false ->
      checkPassword fields false = inr (VString "")).
Proof.
  intros password password2. unfold checkPassword.
  fold password password2.
  splits.
  - intros v. destruct (truthy password) eqn:Ht; [|discriminate].
    destruct (strictEquals password password2) eqn:Heq; simpl;
      [|discriminate].
    intros Hv. injection Hv as <-. splits; auto.
    symmetry. now apply strictEquals_eq.
  - intros e. destruct (truthy password) eqn:Ht.
    + destruct (strictEquals password password2) eqn:Heq; simpl.
      * split; [discriminate|].
        intros [[_ [Hneq _]] | [Hf _]]; discriminate.
      * split.
        -- intros He. injection He as <-. left. auto.
        -- intros [[_ [_ ->]] | [Hf _]]; [reflexivity | discriminate].
    + destruct required.
      * split.
        -- intros He. injection He as <-. right. auto.
        -- intros [[Hf _] | [_ [_ ->]]]; [discriminate | reflexivity].
      * split; [discriminate|].
        intros [[Hf _] | [_ [Hf _]]]; discriminate.
  - intros Ht. now rewrite Ht.
Qed.

(** ** [makeUser] *)

Section MakeUser.

Context `{Externals}.

Lemma keys_setProperty (P : string -> Prop) (u : Object) (k0 : string)
  (v : Value) :
  P k0 ->
  (forall k, hasProperty k u = true -> P k) ->
  forall k, hasProperty k (setProperty u k0 v) = true -> P k.
Proof.
  intros Hk0 Hu k. rewrite hasProperty_setProperty.
  destruct (String.eqb_spec k0 k) as [<- | _]; simpl; auto.
Qed.

Lemma keys_copyProperty (P : string -> Prop) (fields u : Object)
  (k0 : string) :
  P k0 ->
  (forall k, hasProperty k u = true -> P k) ->
  forall k, hasProperty k (copyProperty k0 fields u) = true -> P k.
Proof.
  intros Hk0 Hu. unfold copyProperty.
  destruct (hasProperty k0 fields); [now apply keys_setProperty | exact Hu].
Qed.

Lemma keys_spread (P : string -> Prop) (a b : Object) :
  (forall k, hasProperty k a = true -> P k) ->
  (forall k, hasProperty k b = true -> P k) ->
  forall k, hasProperty k (spread a b) = true -> P k.
Proof.
  intros Ha Hb k. rewrite hasProperty_spread.
  intros Hk. apply orb_true_iff in Hk. destruct Hk; auto.
Qed.

Lemma keys_empty (P : string -> Prop) :
  forall k, hasProperty k [] = true -> P k.
Proof.
  intros k Hk. discriminate Hk.
Qed.

(** The properties of the user before the password come from six known
    keys, or from the account type properties. *)
Lemma userFromFields_keys (fields : Object) (k : string) :
  hasProperty k (userFromFields fields) = true ->
  In k ["email"; "full_name"; "is_admin"; "max_item_size"; "can_share";
        "account_type"]
  \/ (hasProperty "account_type" fields = true
      /\ hasProperty k
           (accountTypeProperties (Number (getProperty fields "account_type")))
         = true).
Proof.
  revert k. unfold userFromFields. cbv zeta.
  destruct (hasProperty "account_type" fields) eqn:Htype;
    [apply keys_spread; [|intros k Hk; right; split; [reflexivity|]]|].
  - apply keys_setProperty; [simpl; tauto|].
    destruct (hasProperty "can_share" fields);
      [apply keys_setProperty; [simpl; tauto|]|];
      (destruct (hasProperty "max_item_size" fields);
       [apply keys_setProperty; [simpl; tauto|]|]);
      repeat (apply keys_copyProperty; [simpl; tauto|]);
      apply keys_empty.
  - rewrite getProperty_setProperty in Hk. exact Hk.
  - destruct (hasProperty "can_share" fields);
      [apply keys_setProperty; [simpl; tauto|]|];
      (destruct (hasProperty "max_item_size" fields);
       [apply keys_setProperty; [simpl; tauto|]|]);
      repeat (apply keys_copyProperty; [simpl; tauto|]);
      apply keys_empty.
Qed.

Lemma makeUser_eq (isNew : bool) (fields : Object) (uuid : string) :
  makeUser isNew fields uuid
  = match checkPassword fields false with
    | inl e => inl e
    | inr password =>
        let user1 :=
          if truthy password
          then setProperty (userFromFields fields) "password" password
          else userFromFields fields in
        let user2 :=
          if negb isNew then setProperty user1 "id" (getProperty fields "id")
          else user1 in
        inr (if isNew then
               setProperty
                 (setProperty user2 "must_set_password"
                    (if truthy (getProperty user2 "password")
                     then VNumber 0 else VNumber 1))
                 "password"
                 (if truthy
                       (getProperty
                          (setProperty user2 "must_set_password"
                             (if truthy (getProperty user2 "password")
                              then VNumber 0 else VNumber 1))
                          "password")
                  then getProperty
                         (setProperty user2 "must_set_password"
                            (if truthy (getProperty user2 "password")
                             then VNumber 0 else VNumber 1))
                         "password"
                  else VString uuid)
             else user2)
    end.
Proof.
  reflexivity.
Qed.

(** A password that differs from its confirmation makes [makeUser]
    throw. *)
Lemma makeUser_mismatch (isNew : bool) (fields : Object) (uuid : string) :
  truthy (getProperty fields "password") = true ->
  strictEquals (getProperty fields "password")
               (getProperty fields "password2") = false ->
  makeUser isNew fields uuid
  = inl (ErrorUnprocessableEntity "Passwords do not match").
Proof.
  intros Ht Hneq. rewrite makeUser_eq. unfold checkPassword.
  now rewrite Ht, Hneq.
Qed.

(** The user made for an existing user has the id of the fields. *)
Lemma makeUser_existing_id (fields : Object) (uuid : string) (user : Object) :
  makeUser false fields uuid = inr user ->
  getProperty user "id" = getProperty fields "id".
Proof.
  intros Huser. rewrite makeUser_eq in Huser.
  destruct (checkPassword fields false); [discriminate|].
  injection Huser as <-. simpl. now rewrite getProperty_setProperty.
Qed.

(** X5.  [makeUser] fails exactly when the password of the fields is not
    empty and differs from its confirmation, with "Passwords do not match";
    it never asks for a password, for a new user or for an existing one,
    and on any other fields it returns a user. *)
Theorem makeUser_fails_iff_mismatch (isNew : bool) (fields : Object)
  (uuid : string) (e : Error) :
  makeUser isNew fields uuid = inl e
  <-> truthy (getProperty fields "password") = true
      /\ strictEquals (getProperty fields "password")
                      (getProperty fields "password2") = false
      /\ e = ErrorUnprocessableEntity "Passwords do not match".
Proof.
  rewrite makeUser_eq. unfold checkPassword.
  destruct (truthy (getProperty fields "password")).
  - destruct (strictEquals _ _); simpl.
    + split; [discriminate | intros [_ [Hf _]]; discriminate].
    + split; [intros He; injection He as <-; auto|].
      intros [_ [_ ->]]. reflexivity.
  - simpl. split; [discriminate | intros [Hf _]; discriminate].
Qed.

(** X6.  The user that [makeUser] returns has no property other than the
    nine it sets itself and those of the account type properties, and the
    latter only when the fields have an account type: no other field of
    the form reaches the user. *)
Theorem makeUser_keys (isNew : bool) (fields : Object) (uuid : string)
  (user : Object) (k : string) :
  makeUser isNew fields uuid = inr user ->
  hasProperty k user = true ->
  In k keysOfUser
  \/ (hasProperty "account_type" fields = true
      /\ hasProperty k
           (accountTypeProperties (Number (getProperty fields "account_type")))
         = true).
Proof.
  rewrite makeUser_eq.
  destruct (checkPassword fields false) as [e|password]; [discriminate|].
  cbv zeta. intros Huser. injection Huser as <-. revert k.
  assert (Hbase : forall k,
             hasProperty k (userFromFields fields) = true ->
             In k keysOfUser
             \/ (hasProperty "account_type" fields = true
                 /\ hasProperty k
                      (accountTypeProperties
                         (Number (getProperty fields "account_type")))
                    = true)).
  { intros k Hk. apply userFromFields_keys in Hk.
    destruct Hk as [Hk | Hk]; [left | now right].
    unfold keysOfUser. simpl in *. tauto. }
  destruct isNew; cbn [negb];
    repeat (apply keys_setProperty; [left; unfold keysOfUser; simpl; tauto|]);
    destruct (truthy password);
    repeat (apply keys_setProperty; [left; unfold keysOfUser; simpl; tauto|]);
    exact Hbase.
Qed.

Lemma userFromFields_without (fields : Object) (k : string) :
  ~ In k ["email"; "full_name"; "is_admin"; "max_item_size"; "can_share";
          "account_type"] ->
  hasProperty k
    (accountTypeProperties (Number (getProperty fields "account_type")))
  = false ->
  hasProperty k (userFromFields fields) = false.
Proof.
  intros Hk Hprops.
  destruct (hasProperty k (userFromFields fields)) eqn:Hhas; [|reflexivity].
  apply userFromFields_keys in Hhas. destruct Hhas as [Hin | [_ Hin]].
  - contradiction.
  - congruence.
Qed.

(** X7.  For a new user whose account type properties hold no password:
    when the fields have a password, the user gets it and need not set one;
    when they have none, the user gets the generated one and must set a
    password. *)
Theorem makeUser_new_user (fields : Object) (uuid : string) (user : Object) :
  makeUser true fields uuid = inr user ->
  hasProperty "password"
    (accountTypeProperties (Number (getProperty fields "account_type")))
  = false ->
  (truthy (getProperty fields "password") = true ->
   getProperty user "password" = getProperty fields "password"
   /\ getProperty user "must_set_password" = VNumber 0)
  /\ (truthy (getProperty fields "password") = false ->
      getProperty user "password" = VString uuid
      /\ getProperty user "must_set_password" = VNumber 1).
Proof.
  intros Huser Hprops.
  assert (Hbase : getProperty (userFromFields fields) "password" = VUndefined).
  { apply getProperty_absent, userFromFields_without; [|exact Hprops].
    simpl. intuition discriminate. }
  rewrite makeUser_eq in Huser. unfold checkPassword in Huser.
  destruct (truthy (getProperty fields "password")) eqn:Ht.
  - destruct (strictEquals _ _); simpl in Huser; [|discriminate].
    rewrite Ht in Huser. injection Huser as <-.
    split; [intros _ | discriminate].
    repeat (rewrite getProperty_setProperty; cbn [String.eqb Ascii.eqb Bool.eqb]).
    rewrite ?Ht. split; reflexivity.
  - simpl in Huser. injection Huser as <-.
    split; [discriminate | intros _].
    repeat (rewrite getProperty_setProperty; cbn [String.eqb Ascii.eqb Bool.eqb]).
    rewrite ?Hbase. simpl. split; reflexivity.
Qed.

(** X8.  For an existing user: the id of the user is the id of the fields,
    set even when the fields have none; [uuidgen] plays no part; and when
    the account type properties hold neither a password nor the
    must-set-password flag, the user has a password only when the fields
    have one, that one, and never the flag. *)
Theorem makeUser_existing_user (fields : Object) (uuid : string)
  (user : Object) :
  makeUser false fields uuid = inr user ->
  hasProperty "id" user = true
  /\ getProperty user "id" = getProperty fields "id"
  /\ (forall other, makeUser false fields other = inr user)
  /\ (hasProperty "password"
        (accountTypeProperties (Number (getProperty fields "account_type")))
      = false ->
      hasProperty "must_set_password"
        (accountTypeProperties (Number (getProperty fields "account_type")))
      = false ->
      hasProperty "must_set_password" user = false
      /\ (truthy (getProperty fields "password") = true ->
          getProperty user "password" = getProperty fields "password")
      /\ (truthy (getProperty fields "password") = false ->
          hasProperty "password" user = false)).
Proof.
  intros Huser. splits.
  - rewrite makeUser_eq in Huser.
    destruct (checkPassword fields false); [discriminate|].
    injection Huser as <-. simpl. rewrite hasProperty_setProperty.
    reflexivity.
  - rewrite makeUser_eq in Huser.
    destruct (checkPassword fields false); [discriminate|].
    injection Huser as <-. simpl. rewrite getProperty_setProperty.
    reflexivity.
  - intros other. rewrite makeUser_eq in *. exact Huser.
  - intros Hpw Hflag.
    assert (Hbase1 : hasProperty "password" (userFromFields fields) = false).
    { apply userFromFields_without; [|exact Hpw]. simpl. intuition discriminate. }
    assert (Hbase2 :
              hasProperty "must_set_password" (userFromFields fields) = false).
    { apply userFromFields_without; [|exact Hflag].
      simpl. intuition discriminate. }
    rewrite makeUser_eq in Huser. unfold checkPassword in Huser.
    destruct (truthy (getProperty fields "password")) eqn:Ht.
    + destruct (strictEquals _ _); simpl in Huser; [|discriminate].
      rewrite Ht in Huser. injection Huser as <-.
      splits.
      * rewrite !hasProperty_setProperty. exact Hbase2.
      * intros _. rewrite !getProperty_setProperty. reflexivity.
      * discriminate.
    + simpl in Huser. injection Huser as <-.
      splits.
      * rewrite hasProperty_setProperty. exact Hbase2.
      * discriminate.
      * intros _. rewrite hasProperty_setProperty. exact Hbase1.
Qed.

Lemma makeUser_other_property (isNew : bool) (fields : Object)
  (uuid : string) (user : Object) (k : string) :
  makeUser isNew fields uuid = inr user ->
  k <> "password" -> k <> "id" -> k <> "must_set_password" ->
  getProperty user k = getProperty (userFromFields fields) k
  /\ hasProperty k user = hasProperty k (userFromFields fields).
Proof.
  intros Huser H1 H2 H3.
  apply not_eq_sym, String.eqb_neq in H1, H2, H3.
  rewrite makeUser_eq in Huser.
  destruct (checkPassword fields false) as [e|password]; [discriminate|].
  cbv zeta in Huser. injection Huser as <-.
  destruct isNew, (truthy password); cbn [negb];
    rewrite ?getProperty_setProperty, ?hasProperty_setProperty,
            ?H1, ?H2, ?H3;
    split; reflexivity.
Qed.

(** X9.  When the fields have no account type, [makeUser] copies the email,
    the full name and the admin flag as they are, turns the share flag into
    1 or 0, and puts 0 for a maximum item size that is empty or zero; a
    field that is absent stays absent. *)
Theorem makeUser_normalises (isNew : bool) (fields : Object) (uuid : string)
  (user : Object) :
  makeUser isNew fields uuid = inr user ->
  hasProperty "account_type" fields = false ->
  (forall k,
      In k ["email"; "full_name"; "is_admin"; "max_item_size"; "can_share"] ->
      hasProperty k user = hasProperty k fields)
  /\ (forall k,
        In k ["email"; "full_name"; "is_admin"] ->
        hasProperty k fields = true ->
        getProperty user k = getProperty fields k)
  /\ (hasProperty "max_item_size" fields = true ->
      getProperty user "max_item_size"
      = if truthy (getProperty fields "max_item_size")
        then getProperty fields "max_item_size" else VNumber 0)
  /\ (hasProperty "can_share" fields = true ->
      getProperty user "can_share"
      = if truthy (getProperty fields "can_share")
        then VNumber 1 else VNumber 0).
Proof.
  intros Huser Htype.
  assert (Hother : forall k,
             In k ["email"; "full_name"; "is_admin"; "max_item_size";
                   "can_share"] ->
             getProperty user k = getProperty (userFromFields fields) k
             /\ hasProperty k user = hasProperty k (userFromFields fields)).
  { intros k Hk. apply (makeUser_other_property isNew fields uuid); auto;
      simpl in Hk; intuition (subst; discriminate). }
  assert (Hemail := Hother "email" ltac:(simpl; tauto)).
  assert (Hname := Hother "full_name" ltac:(simpl; tauto)).
  assert (Hadmin := Hother "is_admin" ltac:(simpl; tauto)).
  assert (Hsize := Hother "max_item_size" ltac:(simpl; tauto)).
  assert (Hshare := Hother "can_share" ltac:(simpl; tauto)).
  clear Hother Huser.
  unfold userFromFields, copyProperty in *. rewrite Htype in *.
  cbv zeta in *.
  destruct (hasProperty "email" fields) eqn:E1,
           (hasProperty "full_name" fields) eqn:E2,
           (hasProperty "is_admin" fields) eqn:E3,
           (hasProperty "max_item_size" fields) eqn:E4,
           (hasProperty "can_share" fields) eqn:E5;
    rewrite ?getProperty_setProperty, ?hasProperty_setProperty
      in Hemail, Hname, Hadmin, Hsize, Hshare;
    cbn in Hemail, Hname, Hadmin, Hsize, Hshare;
    destruct Hemail as [G1 P1], Hname as [G2 P2], Hadmin as [G3 P3],
             Hsize as [G4 P4], Hshare as [G5 P5];
    (splits;
     [ intros k [<- | [<- | [<- | [<- | [<- | []]]]]]; congruence
     | intros k [<- | [<- | [<- | []]]] Hk; congruence
     | intros Hk; congruence
     | intros Hk; congruence ]).
Qed.

End MakeUser.

(** ** The order of the user list *)

Section CompareUsers.

Context `{Externals}.

(** X10.  In the order of the user list a user without a full name comes
    before a user with one, in both directions of the comparison and
    whatever their emails are, even when they have none. *)
Theorem compareUsers_unnamed_first (u1 u2 : Object) :
  truthy (getProperty u1 "full_name") = false ->
  truthy (getProperty u2 "full_name") = true ->
  compareUsers u1 u2 = inr (-1)%Z /\ compareUsers u2 u1 = inr 1%Z.
Proof.
  intros H1 H2. unfold compareUsers. now rewrite H1, H2.
Qed.

(** X11.  The comparison never answers 0.  Two users with full names are
    ordered by their names in lower case, so that the case of the letters
    plays no part; and when the lower-cased names are the same, or the user
    is compared with itself, the answer is +1 in both directions. *)
Theorem compareUsers_by_lower_case_name (u1 u2 : Object) (n1 n2 : string) :
  (forall z, compareUsers u1 u2 = inr z -> z = (-1)%Z \/ z = 1%Z)
  /\ (getProperty u1 "full_name" = VString n1 -> n1 <> "" ->
      getProperty u2 "full_name" = VString n2 -> n2 <> "" ->
      compareUsers u1 u2
      = inr (if stringLt (toLowerCase n1) (toLowerCase n2)
             then (-1)%Z else 1%Z)
      /\ ((forall x, stringLt x x = false) ->
          toLowerCase n1 = toLowerCase n2 ->
          compareUsers u1 u2 = inr 1%Z /\ compareUsers u2 u1 = inr 1%Z)).
Proof.
  split.
  - intros z. unfold compareUsers, lowerCaseOrder, lowerCase.
    destruct (truthy (getProperty u1 "full_name")),
             (truthy (getProperty u2 "full_name")); simpl.
    + destruct (getProperty u1 "full_name"); try discriminate.
      destruct (getProperty u2 "full_name"); try discriminate.
      destruct (stringLt _ _); intros Hz; injection Hz as <-; auto.
    + intros Hz; injection Hz as <-; auto.
    + intros Hz; injection Hz as <-; auto.
    + destruct (getProperty u1 "email"); try discriminate.
      destruct (getProperty u2 "email"); try discriminate.
      destruct (stringLt _ _); intros Hz; injection Hz as <-; auto.
  - intros Hn1 Hne1 Hn2 Hne2.
    apply String.eqb_neq in Hne1, Hne2.
    assert (Hcmp : forall a b x y,
               getProperty a "full_name" = VString x ->
               String.eqb x "" = false ->
               getProperty b "full_name" = VString y ->
               String.eqb y "" = false ->
               compareUsers a b
               = inr (if stringLt (toLowerCase x) (toLowerCase y)
                      then (-1)%Z else 1%Z)).
    { intros a b x y Ha Hx Hb Hy. unfold compareUsers.
      rewrite Ha, Hb. simpl. rewrite Hx, Hy. reflexivity. }
    split; [now apply Hcmp|].
    intros Hirr Hsame.
    rewrite (Hcmp u1 u2 n1 n2), (Hcmp u2 u1 n2 n1) by assumption.
    now rewrite Hsame, Hirr.
Qed.

End CompareUsers.

(** ** The profile form *)

Section ProfileForm.

Context {St : Type}.
Variable userModel : UserModel St.
Context `{Externals}.

(** The form of a new user. *)
Lemma get_users_id_new (path : SubPath) (ctx : WebContext)
  (given : option Object) (err : option Error) (s : St) :
  userIsNew path = true ->
  get_users_id userModel path ctx given err s
  = match checkIfAllowed userModel (owner ctx) Read (Some defaultUser) s with
    | (s', inl e) => (s', inl e)
    | (s', inr _) =>
        (s', inr (mkView "user" "Profile" (Some defaultUser) true
                    "Create user" err (baseUrl ++ "/users/new")%string false
                    (VBoolean false) (truthy accountTypesEnabled)
                    (if truthy accountTypesEnabled
                     then map (selectAccountType defaultUser)
                            accountTypeOptions
                     else [])))
    end.
Proof.
  intros Hnew. unfold get_users_id, bind, ret. rewrite Hnew. simpl.
  destruct (checkIfAllowed userModel (owner ctx) Read (Some defaultUser) s)
    as [s' [e|[]]]; [reflexivity|].
  destruct (truthy accountTypesEnabled); reflexivity.
Qed.

(** The form of an existing user that the caller of the handler supplies. *)
Lemma get_users_id_given (path : SubPath) (ctx : WebContext) (u : Object)
  (err : option Error) (s : St) :
  userIsNew path = false ->
  get_users_id userModel path ctx (Some u) err s
  = match checkIfAllowed userModel (owner ctx) Read (Some u) s with
    | (s', inl e) => (s', inl e)
    | (s', inr _) =>
        (s', inr (mkView "user" "Profile" (Some u) false
                    "Update profile" err
                    (if userIsMe path then (baseUrl ++ "/users/me")%string
                     else (baseUrl ++ "/users/"
                             ++ toString (getProperty u "id"))%string)
                    (if truthy (getProperty (owner ctx) "is_admin")
                     then negb (strictEquals (getProperty (owner ctx) "id")
                                             (getProperty u "id"))
                     else false)
                    (getProperty (owner ctx) "is_admin")
                    (truthy accountTypesEnabled)
                    (if truthy accountTypesEnabled
                     then map (selectAccountType u) accountTypeOptions
                     else [])))
    end.
Proof.
  intros Hnew. unfold get_users_id, bind, ret. rewrite Hnew. simpl.
  destruct (checkIfAllowed userModel (owner ctx) Read (Some u) s)
    as [s' [e|[]]]; [reflexivity|].
  destruct (userIsMe path), (truthy (getProperty (owner ctx) "is_admin")),
           (truthy accountTypesEnabled); reflexivity.
Qed.

(** X12.  The form of a new user never loads a user and never shows the
    user its caller supplies: whatever that user is, the handler checks the
    right to read the default user and shows the default user, posting to
    [/users/new], without the delete and the reset buttons. *)
Theorem new_user_form_shows_default_user (path : SubPath) (ctx : WebContext)
  (given : option Object) (err : option Error) (s s' : St) (view : View) :
  userIsNew path = true ->
  get_users_id userModel path ctx given err s = (s', inr view) ->
  get_users_id userModel path ctx None err s = (s', inr view)
  /\ checkIfAllowed userModel (owner ctx) Read (Some defaultUser) s
     = (s', inr tt)
  /\ user view = Some defaultUser
  /\ isNew view = true
  /\ postUrl view = (baseUrl ++ "/users/new")%string
  /\ showDeleteButton view = false
  /\ showResetPasswordButton view = VBoolean false
  /\ error view = err.
Proof.
  intros Hnew Hget.
  rewrite (get_users_id_new path ctx None err s Hnew).
  rewrite (get_users_id_new path ctx given err s Hnew) in Hget.
  destruct (checkIfAllowed userModel (owner ctx) Read (Some defaultUser) s)
    as [s1 [e|[]]]; [discriminate|].
  injection Hget as <- <-. splits; reflexivity.
Qed.

(** X13.  The profile form shows the delete button only for an existing
    user, to an owner who is an admin, and never on the profile of that
    owner; it shows the reset button only for an existing user and only to
    an admin. *)
Theorem delete_button_only_for_other_users (path : SubPath)
  (ctx : WebContext) (given : option Object) (err : option Error)
  (s s' : St) (view : View) :
  get_users_id userModel path ctx given err s = (s', inr view) ->
  (showDeleteButton view = true ->
   userIsNew path = false
   /\ truthy (getProperty (owner ctx) "is_admin") = true
   /\ exists u, user view = Some u
                /\ strictEquals (getProperty (owner ctx) "id")
                                (getProperty u "id") = false)
  /\ (truthy (showResetPasswordButton view) = true ->
      userIsNew path = false
      /\ truthy (getProperty (owner ctx) "is_admin") = true).
Proof.
  unfold get_users_id, bind, ret.
  destruct (userIsNew path) eqn:Hnew; cbn [negb andb].
  - destruct (checkIfAllowed userModel (owner ctx) Read (Some defaultUser) s)
      as [s1 [e|[]]]; [discriminate|].
    destruct (truthy accountTypesEnabled); simpl;
      intros Hv; injection Hv as _ <-; simpl; split; discriminate.
  - destruct given as [u|].
    + destruct (checkIfAllowed userModel (owner ctx) Read (Some u) s)
        as [s1 [e|[]]]; [discriminate|].
      destruct (userIsMe path); simpl;
        destruct (truthy (getProperty (owner ctx) "is_admin")) eqn:Hadmin;
        simpl; destruct (truthy accountTypesEnabled); simpl;
        intros Hv; injection Hv as _ <-; simpl;
        (split; [intros Hd; splits; auto; exists u; split;
                   [reflexivity | now apply negb_true_iff]
                | intros Hr; auto; try discriminate;
                  try (rewrite Hadmin in Hr; discriminate)]).
    + destruct (load userModel _ s) as [s0 [e|loaded]]; [discriminate|].
      destruct loaded as [u|].
      * destruct (checkIfAllowed userModel (owner ctx) Read (Some u) s0)
          as [s1 [e|[]]]; [discriminate|].
        destruct (userIsMe path); simpl;
          destruct (truthy (getProperty (owner ctx) "is_admin")) eqn:Hadmin;
          simpl; destruct (truthy accountTypesEnabled); simpl;
          intros Hv; injection Hv as _ <-; simpl;
          (split; [intros Hd; splits; auto; exists u; split;
                     [reflexivity | now apply negb_true_iff]
                  | intros Hr; auto; try discriminate;
                    try (rewrite Hadmin in Hr; discriminate)]).
      * destruct (checkIfAllowed userModel (owner ctx) Read None s0)
          as [s1 [e|[]]]; [discriminate|].
        destruct (userIsMe path); simpl; [|discriminate].
        destruct (truthy (getProperty (owner ctx) "is_admin")) eqn:Hadmin;
          simpl; [discriminate|].
        destruct (truthy accountTypesEnabled); simpl; [discriminate|].
        intros Hv; injection Hv as _ <-; simpl.
        split; [discriminate | intros Hr; rewrite Hadmin in Hr; discriminate].
Qed.

(** X14.  The form posts to [/users/new] for a new user, to [/users/me] on
    the owner's own path, and otherwise to the path of the id of the user
    it shows, as a text: when the caller supplies a user without an id, as
    the post route does after [makeUser] has failed, that is
    [/users/undefined]. *)
Theorem profile_form_post_url (path : SubPath) (ctx : WebContext)
  (given : option Object) (err : option Error) (s s' : St) (view : View) :
  get_users_id userModel path ctx given err s = (s', inr view) ->
  (userIsNew path = true -> postUrl view = (baseUrl ++ "/users/new")%string)
  /\ (userIsNew path = false -> userIsMe path = true ->
      postUrl view = (baseUrl ++ "/users/me")%string)
  /\ (userIsNew path = false -> userIsMe path = false ->
      exists u,
        user view = Some u
        /\ postUrl view
           = (baseUrl ++ "/users/" ++ toString (getProperty u "id"))%string)
  /\ (userIsNew path = false -> userIsMe path = false -> given = Some [] ->
      postUrl view = (baseUrl ++ "/users/undefined")%string).
Proof.
  intros Hget.
  destruct (userIsNew path) eqn:Hnew.
  - rewrite (get_users_id_new path ctx given err s Hnew) in Hget.
    destruct (checkIfAllowed userModel (owner ctx) Read (Some defaultUser) s)
      as [s1 [e|[]]]; [discriminate|].
    injection Hget as _ <-. splits; try discriminate. reflexivity.
  - destruct given as [u|].
    + rewrite (get_users_id_given path ctx u err s Hnew) in Hget.
      destruct (checkIfAllowed userModel (owner ctx) Read (Some u) s)
        as [s1 [e|[]]]; [discriminate|].
      injection Hget as _ <-. cbn [postUrl user].
      splits; try discriminate.
      * intros _ Hme. now rewrite Hme.
      * intros _ Hme. rewrite Hme. now exists u.
      * intros _ Hme Hu. rewrite Hme. injection Hu as ->. reflexivity.
    + unfold get_users_id, bind, ret in Hget. rewrite Hnew in Hget.
      cbn [negb andb] in Hget.
      destruct (load userModel _ s) as [s0 [e|loaded]]; [discriminate|].
      destruct (checkIfAllowed userModel (owner ctx) Read loaded s0)
        as [s1 [e|[]]]; [discriminate|].
      destruct (userIsMe path) eqn:Hme.
      * destruct (truthy (getProperty (owner ctx) "is_admin")).
        -- destruct loaded as [u|]; [|discriminate]. simpl in Hget.
           destruct (truthy accountTypesEnabled); simpl in Hget;
             injection Hget as _ <-; splits; try discriminate; reflexivity.
        -- destruct (truthy accountTypesEnabled).
           ++ destruct loaded as [u|]; [|discriminate]. simpl in Hget.
              injection Hget as _ <-; splits; try discriminate; reflexivity.
           ++ simpl in Hget.
              injection Hget as _ <-; splits; try discriminate; reflexivity.
      * destruct loaded as [u|]; [|discriminate]. simpl in Hget.
        destruct (truthy (getProperty (owner ctx) "is_admin")),
                 (truthy accountTypesEnabled); simpl in Hget;
          injection Hget as _ <-; splits; try discriminate;
          intros _ _; now exists u.
Qed.

(** ** The post of the profile form *)

Lemma post_users_eq (path : SubPath) (ctx : WebContext) (s : St) :
  post_users userModel path ctx s
  = match form ctx with
    | inl e => redisplay userModel path ctx [] e s
    | inr parsed =>
        match makeUser (userIsNew path) (fieldsOf path ctx parsed) (uuid ctx)
        with
        | inl e => redisplay userModel path ctx [] e s
        | inr user =>
            tryCatch (submit userModel path ctx (fieldsOf path ctx parsed) user)
                     (redisplay userModel path ctx user) s
        end
    end.
Proof.
  unfold post_users, fieldsOf.
  destruct (form ctx); [reflexivity|].
  destruct (userIsMe path);
    match goal with
    | |- context [makeUser ?n ?f ?u] => destruct (makeUser n f u)
    end; reflexivity.
Qed.

Lemma post_users_submitted (path : SubPath) (ctx : WebContext)
  (parsed user : Object) (s : St) :
  form ctx = inr parsed ->
  makeUser (userIsNew path) (fieldsOf path ctx parsed) (uuid ctx) = inr user ->
  post_users userModel path ctx s
  = tryCatch (submit userModel path ctx (fieldsOf path ctx parsed) user)
             (redisplay userModel path ctx user) s.
Proof.
  intros Hform Hmake. now rewrite post_users_eq, Hform, Hmake.
Qed.

Lemma redisplay_rendered (path : SubPath) (ctx : WebContext) (u : Object)
  (e : Error) (s : St) :
  instanceofErrorForbidden e = false ->
  redisplay userModel path ctx u e s
  = rendered (get_users_id userModel path ctx (Some u) (Some e) s).
Proof.
  intros He. unfold redisplay, rendered, bind, ret. rewrite He.
  destruct (get_users_id userModel path ctx (Some u) (Some e) s)
    as [s' [e'|v]]; reflexivity.
Qed.

(** The only error of [makeUser] is the one of [checkPassword], which is
    not a Forbidden error. *)
Lemma makeUser_error (isNew : bool) (fields : Object) (uuid : string)
  (e : Error) :
  makeUser isNew fields uuid = inl e -> instanceofErrorForbidden e = false.
Proof.
  rewrite makeUser_eq. unfold checkPassword.
  destruct (truthy (getProperty fields "password"));
    [destruct (strictEquals _ _)|]; simpl; try discriminate.
  intros He. now injection He as <-.
Qed.

(** X15.  In the post route a Forbidden error comes out as it was raised,
    with the state the failing step left, from the parsing of the form as
    from the buttons.  Any other error is not an error of the request: the
    profile form is shown again with the error and with the value the
    variable [user] has when the error is caught, the empty user when the
    parsing of the form or [makeUser] failed, the user made from the
    fields when a step after [makeUser] failed.  A post that raises nothing
    answers its redirection. *)
Theorem post_users_rethrows_forbidden_only (path : SubPath)
  (ctx : WebContext) (s : St) :
  (forall e,
      form ctx = inl e -> instanceofErrorForbidden e = true ->
      post_users userModel path ctx s = (s, inl e))
  /\ (forall e,
        form ctx = inl e -> instanceofErrorForbidden e = false ->
        post_users userModel path ctx s
        = rendered (get_users_id userModel path ctx (Some []) (Some e) s))
  /\ (forall parsed e,
        form ctx = inr parsed ->
        makeUser (userIsNew path) (fieldsOf path ctx parsed) (uuid ctx)
        = inl e ->
        instanceofErrorForbidden e = false
        /\ post_users userModel path ctx s
           = rendered (get_users_id userModel path ctx (Some []) (Some e) s))
  /\ (forall parsed user,
        form ctx = inr parsed ->
        makeUser (userIsNew path) (fieldsOf path ctx parsed) (uuid ctx)
        = inr user ->
        (forall s' e,
            submit userModel path ctx (fieldsOf path ctx parsed) user s
            = (s', inl e) ->
            instanceofErrorForbidden e = true ->
            post_users userModel path ctx s = (s', inl e))
        /\ (forall s' e,
              submit userModel path ctx (fieldsOf path ctx parsed) user s
              = (s', inl e) ->
              instanceofErrorForbidden e = false ->
              post_users userModel path ctx s
              = rendered (get_users_id userModel path ctx (Some user)
                            (Some e) s'))
        /\ (forall s' response,
              submit userModel path ctx (fieldsOf path ctx parsed) user s
              = (s', inr response) ->
              post_users userModel path ctx s = (s', inr response))).
Proof.
  splits.
  - intros e Hform He. rewrite post_users_eq, Hform.
    unfold redisplay, throw. now rewrite He.
  - intros e Hform He. rewrite post_users_eq, Hform.
    now apply redisplay_rendered.
  - intros parsed e Hform Hmake.
    pose proof (makeUser_error _ _ _ _ Hmake) as He.
    split; [exact He|].
    rewrite post_users_eq, Hform, Hmake. now apply redisplay_rendered.
  - intros parsed user Hform Hmake.
    rewrite (post_users_submitted path ctx parsed user s Hform Hmake).
    unfold tryCatch. splits.
    + intros s' e Hsub He. rewrite Hsub. unfold redisplay, throw.
      now rewrite He.
    + intros s' e Hsub He. rewrite Hsub. now apply redisplay_rendered.
    + intros s' response Hsub. now rewrite Hsub.
Qed.

(** X16.  When the password of the form is not empty and differs from its
    confirmation, no button of the form has an effect: the only call to the
    model is the check of the right to read the user of the form shown
    again, the default user for a new user and the empty user otherwise;
    the answer is never a redirection, and the form shown carries the
    error "Passwords do not match". *)
Theorem post_users_password_mismatch (path : SubPath) (ctx : WebContext)
  (parsed : Object) (s : St) :
  form ctx = inr parsed ->
  truthy (getProperty parsed "password") = true ->
  strictEquals (getProperty parsed "password")
               (getProperty parsed "password2") = false ->
  let shown := if userIsNew path then defaultUser else [] in
  let mismatch := ErrorUnprocessableEntity "Passwords do not match" in
  fst (post_users userModel path ctx s)
  = fst (checkIfAllowed userModel (owner ctx) Read (Some shown) s)
  /\ match snd (post_users userModel path ctx s) with
     | inl e =>
         snd (checkIfAllowed userModel (owner ctx) Read (Some shown) s)
         = inl e
     | inr (Redirect _) => False
     | inr (Rendered view) =>
         user view = Some shown /\ error view = Some mismatch
     end.
Proof.
  intros Hform Ht Hneq shown mismatch.
  assert (Hmake : makeUser (userIsNew path) (fieldsOf path ctx parsed)
                    (uuid ctx) = inl mismatch).
  { apply makeUser_mismatch; unfold fieldsOf;
      destruct (userIsMe path); rewrite ?getProperty_setProperty; simpl; auto. }
  rewrite post_users_eq, Hform, Hmake, redisplay_rendered by reflexivity.
  subst shown mismatch. destruct (userIsNew path) eqn:Hnew.
  - rewrite get_users_id_new by assumption.
    destruct (checkIfAllowed userModel (owner ctx) Read (Some defaultUser) s)
      as [s1 [e|[]]]; simpl; splits; reflexivity.
  - rewrite get_users_id_given by assumption.
    destruct (checkIfAllowed userModel (owner ctx) Read _ s)
      as [s1 [e|[]]]; simpl; splits; reflexivity.
Qed.

(** X18.  The branch of the delete button works on the id of the path as
    it is written, also when the path is [me]: it loads that user, asks
    for the right to delete it and deletes that id; when the right is
    refused with a Forbidden error the request fails with it and [delete]
    is not called. *)
Theorem delete_button_checks_before_deleting (path : SubPath)
  (ctx : WebContext) (parsed user : Object) (target : option Object)
  (s s1 : St) :
  form ctx = inr parsed ->
  makeUser (userIsNew path) (fieldsOf path ctx parsed) (uuid ctx) = inr user ->
  truthy (getProperty (fieldsOf path ctx parsed) "post_button") = false ->
  truthy (getProperty (fieldsOf path ctx parsed) "delete_button") = true ->
  load userModel (VString (path_id path)) s = (s1, inr target) ->
  (forall s2 m,
      checkIfAllowed userModel (owner ctx) Delete target s1
      = (s2, inl (ErrorForbidden m)) ->
      post_users userModel path ctx s = (s2, inl (ErrorForbidden m)))
  /\ (forall s2 s3,
        checkIfAllowed userModel (owner ctx) Delete target s1 = (s2, inr tt) ->
        delete userModel (VString (path_id path)) s2 = (s3, inr tt) ->
        post_users userModel path ctx s
        = (s3, inr (Redirect (baseUrl ++ "/users"
                                ++ (if userIsMe path then "/me" else ""))%string))).
Proof.
  intros Hform Hmake Hpost Hdelete Hload.
  rewrite post_users_eq, Hform, Hmake.
  unfold tryCatch, submit, bind, ret. rewrite Hpost, Hdelete, Hload.
  split.
  - intros s2 m Hcheck. now rewrite Hcheck.
  - intros s2 s3 Hcheck Hdel. now rewrite Hcheck, Hdel.
Qed.

(** X19.  The branch of the save button saves the user made from the
    fields, after [fromApiInput], once the right to create it, for a new
    user, or to update it, is granted: a Forbidden refusal fails the
    request and [save] is not called.  The id of an existing user is the id
    of the owner on the path [me], whatever the form says, and the id of
    the form on any other path, whatever the path says. *)
Theorem save_button_checks_before_saving (path : SubPath) (ctx : WebContext)
  (parsed user : Object) (s : St) :
  form ctx = inr parsed ->
  makeUser (userIsNew path) (fieldsOf path ctx parsed) (uuid ctx) = inr user ->
  truthy (getProperty (fieldsOf path ctx parsed) "post_button") = true ->
  let action := if userIsNew path then Create else Update in
  let options := if userIsNew path then None else Some false in
  let userToSave := fromApiInput userModel user in
  (forall s1 m,
      checkIfAllowed userModel (owner ctx) action (Some userToSave) s
      = (s1, inl (ErrorForbidden m)) ->
      post_users userModel path ctx s = (s1, inl (ErrorForbidden m)))
  /\ (forall s1 s2,
        checkIfAllowed userModel (owner ctx) action (Some userToSave) s
        = (s1, inr tt) ->
        save userModel userToSave options s1 = (s2, inr tt) ->
        post_users userModel path ctx s
        = (s2, inr (Redirect (baseUrl ++ "/users"
                                ++ (if userIsMe path then "/me" else ""))%string)))
  /\ (userIsNew path = false ->
      getProperty user "id"
      = if userIsMe path then getProperty (owner ctx) "id"
        else getProperty parsed "id").
Proof.
  intros Hform Hmake Hpost action options userToSave.
  subst action options userToSave.
  rewrite post_users_eq, Hform, Hmake.
  unfold tryCatch, submit, bind, ret. rewrite Hpost.
  splits.
  - intros s1 m Hcheck. now rewrite Hcheck.
  - intros s1 s2 Hcheck Hsave. rewrite Hcheck.
    destruct (userIsNew path); now rewrite Hsave.
  - intros Hnew. rewrite Hnew in Hmake.
    rewrite (makeUser_existing_id _ _ _ Hmake). unfold fieldsOf.
    destruct (userIsMe path); [|reflexivity].
    now rewrite getProperty_setProperty.
Qed.

End ProfileForm.

(** X17.  The branch of the reset button asks for no right: whatever
    [checkIfAllowed] does, were it to refuse everything, a post with the
    reset button alone loads the user of the path, saves the
    must-set-password flag under the id of that user, sends the
    confirmation email and redirects. *)
Theorem reset_password_asks_no_right {St : Type} `{Externals}
  (userModel : UserModel St)
  (check : Object -> AclAction -> option Object -> M St unit)
  (path : SubPath) (ctx : WebContext) (parsed user target : Object)
  (s s1 s2 s3 : St) :
  form ctx = inr parsed ->
  makeUser (userIsNew path) (fieldsOf path ctx parsed) (uuid ctx) = inr user ->
  truthy (getProperty (fieldsOf path ctx parsed) "post_button") = false ->
  truthy (getProperty (fieldsOf path ctx parsed) "delete_button") = false ->
  truthy (getProperty (fieldsOf path ctx parsed) "send_reset_password_email")
  = true ->
  load userModel (VString (path_id path)) s = (s1, inr (Some target)) ->
  save userModel
    [("id", getProperty target "id"); ("must_set_password", VNumber 1)] None s1
  = (s2, inr tt) ->
  sendAccountConfirmationEmail userModel target s2 = (s3, inr tt) ->
  post_users (withCheck userModel check) path ctx s
  = (s3, inr (Redirect (baseUrl ++ "/users"
                          ++ (if userIsMe path then "/me" else ""))%string)).
Proof.
  intros Hform Hmake Hpost Hdelete Hreset Hload Hsave Hsend.
  rewrite post_users_eq, Hform, Hmake.
  change (fromApiInput (withCheck userModel check)) with (fromApiInput userModel).
  unfold tryCatch, submit, bind, ret. rewrite Hpost, Hdelete, Hreset.
  cbn [withCheck load save sendAccountConfirmationEmail].
  rewrite Hload. cbn [deref ret]. now rewrite Hsave, Hsend.
Qed.


(** ** The theorems at work on the sample data of the user routes *)

Lemma checkPassword_outcomes_witness :
  checkPassword newUserForm true = inr (VString "secret")
  /\ getProperty newUserForm "password2" = VString "secret".
Proof.
  split; [reflexivity|].
  apply (proj1 (checkPassword_outcomes newUserForm true) (VString "secret")).
  reflexivity.
Defined.

Lemma makeUser_fails_iff_mismatch_witness :
  makeUser (H := sampleExternals) false mismatchForm "generated"
  = inl (ErrorUnprocessableEntity "Passwords do not match").
Proof.
  apply (makeUser_fails_iff_mismatch (H := sampleExternals)).
  splits; reflexivity.
Defined.

Lemma makeUser_keys_witness :
  exists user,
    makeUser (H := sampleExternals) true newUserForm "generated" = inr user
    /\ hasProperty "role" newUserForm = true
    /\ hasProperty "role" user = false.
Proof.
  eexists. splits; [reflexivity | reflexivity |].
  match goal with
  | |- hasProperty "role" ?u = false =>
      destruct (hasProperty "role" u) eqn:Hrole; [|reflexivity];
      destruct (makeUser_keys (H := sampleExternals) true newUserForm
                  "generated" u "role" eq_refl Hrole)
        as [Hin | [Htype _]]
  end.
  - simpl in Hin. intuition discriminate.
  - discriminate Htype.
Defined.

Lemma makeUser_new_user_witness :
  exists user,
    makeUser (H := sampleExternals) true resetForm "generated" = inr user
    /\ getProperty user "password" = VString "generated"
    /\ getProperty user "must_set_password" = VNumber 1.
Proof.
  eexists. split; [reflexivity|].
  apply (makeUser_new_user (H := sampleExternals) resetForm "generated" _
           eq_refl eq_refl).
  reflexivity.
Defined.

Lemma makeUser_existing_user_witness :
  exists user,
    makeUser (H := sampleExternals) false resetForm "generated" = inr user
    /\ hasProperty "id" user = true
    /\ getProperty user "id" = VUndefined.
Proof.
  eexists. split; [reflexivity|].
  destruct (makeUser_existing_user (H := sampleExternals) resetForm
              "generated" _ eq_refl) as [Hhas [Hid _]].
  split; [exact Hhas | exact Hid].
Defined.

Lemma makeUser_normalises_witness :
  exists user,
    makeUser (H := sampleExternals) true newUserForm "generated" = inr user
    /\ hasProperty "account_type" newUserForm = false
    /\ getProperty user "can_share" = VNumber 0
    /\ getProperty user "max_item_size" = VNumber 0.
Proof.
  eexists. splits; [reflexivity | reflexivity | |].
  - apply (makeUser_normalises (H := sampleExternals) true newUserForm
             "generated" _ eq_refl eq_refl).
    reflexivity.
  - apply (makeUser_normalises (H := sampleExternals) true newUserForm
             "generated" _ eq_refl eq_refl).
    reflexivity.
Defined.

Lemma compareUsers_unnamed_first_witness :
  compareUsers (H := sampleExternals) adminUser plainUser = inr (-1)%Z
  /\ compareUsers (H := sampleExternals) plainUser adminUser = inr 1%Z.
Proof.
  apply (compareUsers_unnamed_first (H := sampleExternals)); reflexivity.
Defined.

Lemma compareUsers_by_lower_case_name_witness :
  compareUsers (H := sampleExternals)
    [("full_name", VString "Bob")] [("full_name", VString "bob")]
  = inr 1%Z
  /\ compareUsers (H := sampleExternals)
       [("full_name", VString "bob")] [("full_name", VString "Bob")]
     = inr 1%Z.
Proof.
  apply (proj2 (compareUsers_by_lower_case_name (H := sampleExternals)
                  [("full_name", VString "Bob")]
                  [("full_name", VString "bob")] "Bob" "bob"));
    try reflexivity; try discriminate.
  intros x. unfold stringLt, sampleExternals, String.ltb.
  pose proof (String.compare_antisym x x) as Hx.
  destruct (String.compare x x); [reflexivity | discriminate | reflexivity].
Defined.

Lemma new_user_form_shows_default_user_witness :
  exists s' view,
    get_users_id (H := sampleExternals) journalModel (mkSubPath "new")
      (adminContext []) (Some plainUser) None []
    = (s', inr view)
    /\ s' = ["checkIfAllowed"]
    /\ user view = Some defaultUser.
Proof.
  eexists _, _. split; [lazy; reflexivity|]. split; [reflexivity|].
  apply (new_user_form_shows_default_user (H := sampleExternals) journalModel
           (mkSubPath "new") (adminContext []) (Some plainUser) None []
           _ _ eq_refl eq_refl).
Defined.

Lemma delete_button_only_for_other_users_witness :
  exists s' view,
    get_users_id (H := sampleExternals) journalModel (mkSubPath "u2")
      (adminContext []) None None []
    = (s', inr view)
    /\ showDeleteButton view = true
    /\ truthy (getProperty adminUser "is_admin") = true.
Proof.
  eexists _, _. split; [lazy; reflexivity|]. split; [reflexivity|].
  apply (proj1 (delete_button_only_for_other_users (H := sampleExternals)
                  journalModel (mkSubPath "u2") (adminContext []) None None
                  [] _ _ eq_refl) eq_refl).
Defined.

Lemma profile_form_post_url_witness :
  exists s' view,
    get_users_id (H := sampleExternals) journalModel (mkSubPath "u2")
      (adminContext []) (Some []) None []
    = (s', inr view)
    /\ postUrl view = "https://example.org/users/undefined".
Proof.
  eexists _, _. split; [lazy; reflexivity|].
  apply (profile_form_post_url (H := sampleExternals) journalModel
           (mkSubPath "u2") (adminContext []) (Some []) None [] _ _ eq_refl);
    reflexivity.
Defined.

Lemma post_users_rethrows_forbidden_only_witness :
  post_users (H := sampleExternals) journalModel (mkSubPath "u1")
    (bobContext deleteForm) []
  = (["load u1"; "checkIfAllowed"], inl (ErrorForbidden "not allowed"))
  /\ exists s' view,
       post_users (H := sampleExternals) journalModel (mkSubPath "u2")
         (mkWebContext adminUser (inl (PlainError "Bad form")) "generated") []
       = (s', inr (Rendered view))
       /\ user view = Some [] /\ error view = Some (PlainError "Bad form").
Proof.
  split.
  - destruct (post_users_rethrows_forbidden_only (H := sampleExternals)
                journalModel (mkSubPath "u1") (bobContext deleteForm) [])
      as [_ [_ [_ Hsubmit]]].
    destruct (Hsubmit deleteForm [("id", VUndefined)] eq_refl eq_refl)
      as [Hforbidden _].
    apply Hforbidden; reflexivity.
  - destruct (post_users_rethrows_forbidden_only (H := sampleExternals)
                journalModel (mkSubPath "u2")
                (mkWebContext adminUser (inl (PlainError "Bad form"))
                   "generated") [])
      as [_ [Hparse _]].
    rewrite (Hparse (PlainError "Bad form") eq_refl eq_refl).
    eexists _, _. split; [lazy; reflexivity|]. split; reflexivity.
Defined.

Lemma post_users_password_mismatch_witness :
  fst (post_users (H := sampleExternals) journalModel (mkSubPath "u2")
         (adminContext mismatchForm) [])
  = ["checkIfAllowed"].
Proof.
  apply (post_users_password_mismatch (H := sampleExternals) journalModel
           (mkSubPath "u2") (adminContext mismatchForm) mismatchForm []);
    reflexivity.
Defined.

Lemma reset_password_asks_no_right_witness :
  post_users (H := sampleExternals) refusingModel (mkSubPath "u1")
    (bobContext resetForm) []
  = (["load u1"; "save u1"; "email u1"],
     inr (Redirect "https://example.org/users")).
Proof.
  apply (reset_password_asks_no_right (H := sampleExternals) journalModel
           (checkIfAllowed refusingModel) (mkSubPath "u1")
           (bobContext resetForm) resetForm [("id", VUndefined)] adminUser
           [] ["load u1"] ["load u1"; "save u1"]
           ["load u1"; "save u1"; "email u1"]);
    reflexivity.
Defined.

Lemma delete_button_checks_before_deleting_witness :
  post_users (H := sampleExternals) journalModel (mkSubPath "me")
    (adminContext deleteForm) []
  = (["load me"; "checkIfAllowed"; "delete me"],
     inr (Redirect "https://example.org/users/me")).
Proof.
  apply (proj2 (delete_button_checks_before_deleting (H := sampleExternals)
                  journalModel (mkSubPath "me") (adminContext deleteForm)
                  deleteForm [("id", VString "u1")] None [] ["load me"]
                  eq_refl eq_refl eq_refl eq_refl eq_refl)
           ["load me"; "checkIfAllowed"]);
    reflexivity.
Defined.

Lemma save_button_checks_before_saving_witness :
  exists user,
    makeUser (H := sampleExternals) false
      (fieldsOf (mkSubPath "me") (bobContext profileForm) profileForm)
      "generated"
    = inr user
    /\ getProperty profileForm "id" = VString "u1"
    /\ getProperty user "id" = VString "u2".
Proof.
  eexists. splits; [reflexivity | reflexivity |].
  apply (save_button_checks_before_saving (H := sampleExternals) journalModel
           (mkSubPath "me") (bobContext profileForm) profileForm _ []
           eq_refl eq_refl eq_refl).
  reflexivity.
Defined.

End UsersFacts.

(** * Properties of the confirmation routes *)

Module UsersConfirmFacts.

Import Users.
Import UsersConfirm.

Section ConfirmRoutes.

Context {St : Type}.
Variable models : Models St.
Context `{Externals}.

(** X20.  The confirmation page asks for no token before it confirms: for
    a user who need not set a password, a request without a token skips
    [confirmEmail], and still deletes the token value it was given, adds
    the EmailConfirmed notification for the user of the path, and
    redirects, to [/home] with a session and to [/login] without. *)
Theorem confirm_without_token_notifies (path : SubPath) (ctx : Context)
  (err : option Error) (u : Object) (s s1 s2 s3 : St) :
  truthy (queryToken ctx) = false ->
  load models (VString (path_id path)) s = (s1, inr (Some u)) ->
  truthy (getProperty u "must_set_password") = false ->
  deleteByValue models (VString (path_id path)) (queryToken ctx) s1
  = (s2, inr tt) ->
  add models (VString (path_id path)) EmailConfirmed s2 = (s3, inr tt) ->
  get_users_id_confirm models path ctx err s
  = (s3, inr (Redirect (baseUrl ++ match owner ctx with
                                   | Some _ => "/home"
                                   | None => "/login"
                                   end)%string)).
Proof.
  intros Htoken Hload Hmust Hdelete Hadd.
  unfold get_users_id_confirm, bind, ret. rewrite Htoken, Hload.
  cbn [deref ret]. rewrite Hmust, Hdelete, Hadd.
  destruct (owner ctx); reflexivity.
Qed.

(** X21.  For a user who must set a password the confirmation page shows
    the form, with the token of the query and the confirmation URL of the
    user and the token, and neither deletes the token nor adds a
    notification: after the load no model is called. *)
Theorem confirm_shows_form_when_password_must_be_set (path : SubPath)
  (ctx : Context) (err : option Error) (u : Object) (s s0 s1 : St) :
  (if truthy (queryToken ctx)
   then confirmEmail models (VString (path_id path)) (queryToken ctx) s
   else (s, inr tt)) = (s0, inr tt) ->
  load models (VString (path_id path)) s0 = (s1, inr (Some u)) ->
  truthy (getProperty u "must_set_password") = true ->
  get_users_id_confirm models path ctx err s
  = (s1, inr (Rendered
                (mkConfirmView "users/confirm" "Confirmation" u err
                   (queryToken ctx)
                   (confirmUrl models (VString (path_id path)) (queryToken ctx))
                   false))).
Proof.
  intros Hconfirm Hload Hmust.
  unfold get_users_id_confirm, bind, ret.
  destruct (truthy (queryToken ctx)).
  - rewrite Hconfirm, Hload. cbn [deref ret]. now rewrite Hmust.
  - injection Hconfirm as <-. rewrite Hload. cbn [deref ret].
    now rewrite Hmust.
Qed.

(** X22.  The post of the confirmation form saves nothing unless the token
    of the form passes [checkToken] and the password is not empty and
    equals its confirmation: when the body cannot be read, when the token
    is refused, with a Forbidden error as with any other, or when the
    password is refused, the answer is the one of the confirmation page
    given the error, from the state the failing step left; [save], the
    session and the cookie are not reached. *)
Theorem set_password_needs_token_and_password (path : SubPath)
  (ctx : Context) (s : St) :
  (forall e,
      body ctx = inl e ->
      post_users_id_confirm models path ctx s
      = get_users_id_confirm models path ctx (Some e) s)
  /\ (forall fields s1 e,
        body ctx = inr fields ->
        checkToken models (VString (path_id path)) (getProperty fields "token")
          s = (s1, inl e) ->
        post_users_id_confirm models path ctx s
        = get_users_id_confirm models path ctx (Some e) s1)
  /\ (forall fields s1,
        body ctx = inr fields ->
        checkToken models (VString (path_id path)) (getProperty fields "token")
          s = (s1, inr tt) ->
        (truthy (getProperty fields "password") = false ->
         post_users_id_confirm models path ctx s
         = get_users_id_confirm models path ctx
             (Some (ErrorUnprocessableEntity "Password is required")) s1)
        /\ (truthy (getProperty fields "password") = true ->
            strictEquals (getProperty fields "password")
                         (getProperty fields "password2") = false ->
            post_users_id_confirm models path ctx s
            = get_users_id_confirm models path ctx
                (Some (ErrorUnprocessableEntity "Passwords do not match")) s1)).
Proof.
  unfold post_users_id_confirm, tryCatch, setPassword, bind.
  splits.
  - intros e Hbody. now rewrite Hbody.
  - intros fields s1 e Hbody Hcheck. now rewrite Hbody, Hcheck.
  - intros fields s1 Hbody Hcheck. rewrite Hbody, Hcheck.
    unfold checkPassword. split.
    + intros Ht. now rewrite Ht.
    + intros Ht Hneq. now rewrite Ht, Hneq.
Qed.

(** X23.  A post of the confirmation form whose token passes and whose
    password is not empty and equals its confirmation saves, in this
    order: the password of the form for the user of the path with the
    must-set-password flag at 0, the deletion of the token, a session for
    that user, the cookie [sessionId] with the id of the session, and the
    PasswordSet notification; it then redirects to [/home]. *)
Theorem set_password_then_opens_session (path : SubPath) (ctx : Context)
  (fields session : Object) (s s1 s2 s3 s4 s5 s6 : St) :
  let userId := VString (path_id path) in
  body ctx = inr fields ->
  checkToken models userId (getProperty fields "token") s = (s1, inr tt) ->
  truthy (getProperty fields "password") = true ->
  strictEquals (getProperty fields "password")
               (getProperty fields "password2") = true ->
  save models [("id", userId); ("password", getProperty fields "password");
               ("must_set_password", VNumber 0)] s1 = (s2, inr tt) ->
  deleteByValue models userId (getProperty fields "token") s2 = (s3, inr tt) ->
  createUserSession models userId s3 = (s4, inr session) ->
  cookiesSet models "sessionId" (getProperty session "id") s4 = (s5, inr tt) ->
  add models userId PasswordSet s5 = (s6, inr tt) ->
  post_users_id_confirm models path ctx s
  = (s6, inr (Redirect (baseUrl ++ "/home")%string)).
Proof.
  intros userId Hbody Hcheck Ht Heq Hsave Hdelete Hsession Hcookie Hadd.
  subst userId.
  unfold post_users_id_confirm, tryCatch, setPassword, bind, ret.
  rewrite Hbody, Hcheck. unfold checkPassword. rewrite Ht, Heq.
  cbn [negb]. now rewrite Hsave, Hdelete, Hsession, Hcookie, Hadd.
Qed.

End ConfirmRoutes.

Lemma confirm_without_token_notifies_witness :
  get_users_id_confirm (H := sampleExternals) journalModels (mkSubPath "u2")
    (mkContext None VUndefined (inr [])) None []
  = (["load u2"; "deleteByValue undefined"; "add EmailConfirmed"],
     inr (Redirect "https://example.org/login")).
Proof.
  apply (confirm_without_token_notifies (H := sampleExternals) journalModels
           (mkSubPath "u2") (mkContext None VUndefined (inr [])) None
           plainUser [] ["load u2"] ["load u2"; "deleteByValue undefined"]);
    reflexivity.
Defined.

Lemma confirm_shows_form_when_password_must_be_set_witness :
  get_users_id_confirm (H := sampleExternals) journalModels (mkSubPath "u3")
    (mkContext None (VString "t3") (inr [])) None []
  = (["confirmEmail u3"; "load u3"],
     inr (Rendered
            (mkConfirmView "users/confirm" "Confirmation" invitedUser None
               (VString "t3") "/users/u3/confirm?token=t3" false))).
Proof.
  apply (confirm_shows_form_when_password_must_be_set
           (H := sampleExternals) journalModels (mkSubPath "u3")
           (mkContext None (VString "t3") (inr [])) None invitedUser
           [] ["confirmEmail u3"]);
    reflexivity.
Defined.

Lemma set_password_needs_token_and_password_witness :
  post_users_id_confirm (H := sampleExternals) journalModels (mkSubPath "u3")
    (mkContext None VUndefined (inr wrongTokenForm)) []
  = get_users_id_confirm (H := sampleExternals) journalModels (mkSubPath "u3")
      (mkContext None VUndefined (inr wrongTokenForm))
      (Some (ErrorForbidden "Invalid or expired token")) ["checkToken"].
Proof.
  destruct (set_password_needs_token_and_password (H := sampleExternals)
              journalModels (mkSubPath "u3")
              (mkContext None VUndefined (inr wrongTokenForm)) [])
    as [_ [Htoken _]].
  apply (Htoken wrongTokenForm ["checkToken"]); reflexivity.
Defined.

Lemma set_password_then_opens_session_witness :
  post_users_id_confirm (H := sampleExternals) journalModels (mkSubPath "u3")
    (mkContext None VUndefined (inr setPasswordForm)) []
  = (["checkToken"; "save u3 secret"; "deleteByValue t3";
      "createUserSession"; "cookie sessionId=session1"; "add PasswordSet"],
     inr (Redirect "https://example.org/home")).
Proof.
  apply (set_password_then_opens_session (H := sampleExternals) journalModels
           (mkSubPath "u3") (mkContext None VUndefined (inr setPasswordForm))
           setPasswordForm [("id", VString "session1")] []
           ["checkToken"] ["checkToken"; "save u3 secret"]
           ["checkToken"; "save u3 secret"; "deleteByValue t3"]
           ["checkToken"; "save u3 secret"; "deleteByValue t3";
            "createUserSession"]
           ["checkToken"; "save u3 secret"; "deleteByValue t3";
            "createUserSession"; "cookie sessionId=session1"]);
    reflexivity.
Defined.

End UsersConfirmFacts.
